(** * The AI-assistant command interpreter of TeamWorkPlatform

    A shallow embedding of [src/services/aiService.ts] (with the part of
    [todoService.ts], [calendarService.ts] and [memoService.ts] it calls)
    and the properties of its natural-language command parser and
    dispatcher.

    Conventions.
    - A JavaScript string is the list of its UTF-16 code units.
    - A [Date] is its time value in milliseconds since the epoch, or
      [InvalidDate] for NaN; local time is UTC plus a constant offset
      [LocalTZA] (a zone without daylight-saving changes, as Korea's).
    - [String.prototype.toLowerCase] and [LocalTZA] are given by the
      [Host]; the properties hold for every host.
    - The parser is a pure function of the message and of [now], the
      value of the [new Date()] it evaluates.
    - Calls to Supabase, to the Gemini chat model and to the console, and
      the later readings of the clock, are the events of a free monad
      [Prog], in which the dispatcher is written. *)

From Stdlib Require Import String Ascii.
From Stdlib Require Import ZArith NArith List Bool Lia.
Import ListNotations.

Local Open Scope string_scope.
Local Open Scope list_scope.
Local Open Scope Z_scope.

(* ================================================================== *)
(** * Part I. Definitions *)
(* ================================================================== *)

(** ** JavaScript strings *)

Module JsString.

(** A UTF-16 code unit. *)
Definition char := N.
Definition str := list char.

Definition char_eqb (a b : char) : bool := N.eqb a b.

Fixpoint str_eqb (a b : str) : bool :=
  match a, b with
  | [], [] => true
  | x :: a', y :: b' => char_eqb x y && str_eqb a' b'
  | _, _ => false
  end.

(** Source text of this file is UTF-8; a literal is decoded to the UTF-16
    code units the TypeScript literal denotes. *)
Definition cont (b : N) : N := N.land b 63.

Definition surrogates (cp : N) : str :=
  let v := (cp - 65536)%N in
  [ (55296 + N.shiftr v 10)%N ; (56320 + N.land v 1023)%N ].

Fixpoint utf16_of_utf8 (bs : list N) : str :=
  match bs with
  | [] => []
  | b0 :: r0 =>
    if (b0 <? 128)%N then b0 :: utf16_of_utf8 r0
    else if (b0 <? 224)%N then
      match r0 with
      | b1 :: r1 =>
        (N.shiftl (N.land b0 31) 6 + cont b1)%N :: utf16_of_utf8 r1
      | [] => []
      end
    else if (b0 <? 240)%N then
      match r0 with
      | b1 :: b2 :: r2 =>
        (N.shiftl (N.land b0 15) 12 + N.shiftl (cont b1) 6 + cont b2)%N
          :: utf16_of_utf8 r2
      | _ => []
      end
    else
      match r0 with
      | b1 :: b2 :: b3 :: r3 =>
        surrogates (N.shiftl (N.land b0 7) 18 + N.shiftl (cont b1) 12
                    + N.shiftl (cont b2) 6 + cont b3)%N
          ++ utf16_of_utf8 r3
      | _ => []
      end
  end.

Definition utf16 (s : string) : str :=
  utf16_of_utf8 (map N_of_ascii (list_ascii_of_string s)).

(** [js "..."] is the string literal, decoded where it is written. *)
Notation "'js' s" :=
  (ltac:(let v := eval vm_compute in (utf16 s) in exact v))
  (at level 10, s at level 9, only parsing).

(** [a.startsWith(p)] *)
Fixpoint startsWith (p s : str) : bool :=
  match p, s with
  | [], _ => true
  | x :: p', y :: s' => char_eqb x y && startsWith p' s'
  | _ :: _, [] => false
  end.

(** [s.includes(p)] *)
Fixpoint includes (p s : str) : bool :=
  startsWith p s ||
  match s with
  | [] => false
  | _ :: s' => includes p s'
  end.

(** ECMAScript WhiteSpace and LineTerminator code points: the set of
    [\s] and of [String.prototype.trim]. *)
Definition isLineTerminator (c : char) : bool :=
  existsb (char_eqb c) [10; 13; 8232; 8233]%N.

Definition isSpace (c : char) : bool :=
  existsb (char_eqb c) [9; 11; 12; 32; 160; 5760; 8239; 8287; 12288; 65279]%N
  || ((8192 <=? c)%N && (c <=? 8202)%N)
  || isLineTerminator c.

Fixpoint trimStart (s : str) : str :=
  match s with
  | c :: s' => if isSpace c then trimStart s' else s
  | [] => []
  end.

Definition trim (s : str) : str := rev (trimStart (rev (trimStart s))).

(** [\d] *)
Definition isDigit (c : char) : bool := (48 <=? c)%N && (c <=? 57)%N.

Definition digitValue (c : char) : Z := Z.of_N c - 48.

(** [parseInt(s)] restricted to what the captures of this file can be:
    the decimal value of the leading digits, [None] (NaN) when there is
    none.  (Captures are runs of [\d], so sign, radix prefix and leading
    white space never occur.) *)
Fixpoint leadingDigits (acc : Z) (s : str) : Z :=
  match s with
  | c :: s' => if isDigit c then leadingDigits (10 * acc + digitValue c) s' else acc
  | [] => acc
  end.

Definition parseInt (s : str) : option Z :=
  match s with
  | c :: _ => if isDigit c then Some (leadingDigits 0 s) else None
  | [] => None
  end.

(** [String(n)] for an integer. *)
Fixpoint digitsOf (fuel : nat) (n : Z) (acc : str) : str :=
  match fuel with
  | O => acc
  | S f =>
    let acc' := Z.to_N (48 + n mod 10) :: acc in
    if n <? 10 then acc' else digitsOf f (n / 10) acc'
  end.

Definition stringOfNat (n : Z) : str := digitsOf (S (Z.to_nat (Z.log2 n))) n [].

Definition String_ (n : Z) : str :=
  if n <? 0 then 45%N :: stringOfNat (- n) else stringOfNat n.

(** [s.padStart(n, '0')] *)
Definition padStart0 (n : nat) (s : str) : str :=
  repeat 48%N (n - length s) ++ s.

(** Truthiness of a string. *)
Definition truthy (s : str) : bool :=
  match s with [] => false | _ :: _ => true end.

End JsString.
Import JsString.

(** ** Regular expressions

    The subset of ECMAScript patterns that [aiService.ts] uses, with the
    backtracking semantics of the language: alternatives left to right,
    greedy quantifiers longest first, lazy ones shortest first.  The
    source quantifies single classes only, apart from [?] on groups whose
    body is never empty, so no empty-iteration check is needed.  No
    pattern has an anchor, a look-around or a back-reference, hence a
    match at an index depends on the text from that index on only. *)

Module Regex.

(** Capture groups that took part in the match, latest first; a group
    that is absent is [undefined] in JavaScript. *)
Definition captures := list (nat * str).

Fixpoint group (i : nat) (cs : captures) : option str :=
  match cs with
  | [] => None
  | (j, s) :: cs' => if Nat.eqb i j then Some s else group i cs'
  end.

Inductive regex : Type :=
| Eps
| Lit (s : str)
| Cls (p : char -> bool)
| Seq (r1 r2 : regex)
| Alt (r1 r2 : regex)
| Opt (r : regex)
| Rep (greedy : bool) (lo : nat) (hi : option nat) (p : char -> bool)
| Grp (i : nat) (r : regex).

(** [rep greedy p lo hi s k]: between [lo] and [hi] code units of class
    [p], then [k] on what is left. *)
Fixpoint rep {R : Type} (greedy : bool) (p : char -> bool) (lo : nat)
    (hi : option nat) (s : str) (k : str -> option R) : option R :=
  let stop := fun _ : unit => match lo with O => k s | S _ => None end in
  let more := fun _ : unit =>
    match s with
    | c :: s' =>
      if p c then
        match hi with
        | Some O => None
        | Some (S h) => rep greedy p (pred lo) (Some h) s' k
        | None => rep greedy p (pred lo) None s' k
        end
      else None
    | [] => None
    end in
  if greedy
  then match more tt with Some x => Some x | None => stop tt end
  else match stop tt with Some x => Some x | None => more tt end.

Fixpoint rmatch {R : Type} (r : regex) (s : str) (cs : captures)
    (k : str -> captures -> option R) : option R :=
  match r with
  | Eps => k s cs
  | Lit p => if startsWith p s then k (skipn (length p) s) cs else None
  | Cls p =>
    match s with
    | c :: s' => if p c then k s' cs else None
    | [] => None
    end
  | Seq r1 r2 => rmatch r1 s cs (fun s1 c1 => rmatch r2 s1 c1 k)
  | Alt r1 r2 =>
    match rmatch r1 s cs k with
    | Some x => Some x
    | None => rmatch r2 s cs k
    end
  | Opt r1 =>
    match rmatch r1 s cs k with
    | Some x => Some x
    | None => k s cs
    end
  | Rep g lo hi p => rep g p lo hi s (fun s' => k s' cs)
  | Grp i r1 =>
    rmatch r1 s cs
      (fun s1 c1 => k s1 ((i, firstn (length s - length s1) s) :: c1))
  end.

(** A match that starts at the head of [s]: what follows it, and the
    captures. *)
Definition matchAt (r : regex) (s : str) : option (str * captures) :=
  rmatch r s [] (fun s' cs => Some (s', cs)).

Record MatchResult : Type := {
  index : nat;
  matched : str;
  groups : captures
}.

Fixpoint searchFrom (r : regex) (i : nat) (s : str) : option MatchResult :=
  match matchAt r s with
  | Some (s', cs) =>
    Some {| index := i; matched := firstn (length s - length s') s; groups := cs |}
  | None =>
    match s with
    | [] => None
    | _ :: t => searchFrom r (S i) t
    end
  end.

(** [s.match(r)] for a pattern without the [g] flag: the leftmost match. *)
Definition jsMatch (s : str) (r : regex) : option MatchResult := searchFrom r 0 s.

(** [m[i]] *)
Definition capture (m : MatchResult) (i : nat) : option str := group i (groups m).

(** [s.replace(r, '')] for a pattern with the [g] flag.  [skip] counts
    the code units of the current match still to drop. *)
Fixpoint removeFrom (r : regex) (s : str) (skip : nat) : str :=
  match s with
  | [] => []
  | c :: s' =>
    match skip with
    | S n => removeFrom r s' n
    | O =>
      match matchAt r s with
      | Some (s1, _) =>
        match (length s - length s1)%nat with
        | O => c :: removeFrom r s' O
        | S n => removeFrom r s' n
        end
      | None => c :: removeFrom r s' O
      end
    end
  end.

Definition removeAll (s : str) (r : regex) : str := removeFrom r s 0.

(** Pattern combinators. *)
Definition cat (rs : list regex) : regex := fold_right Seq Eps rs.

Fixpoint oneOf (r : regex) (rs : list regex) : regex :=
  match rs with
  | [] => r
  | r' :: rs' => Alt r (oneOf r' rs')
  end.

Notation "'word' s" := (Lit (js s)) (at level 10, s at level 9, only parsing).

Definition digit1_2 : regex := Rep true 1 (Some 2%nat) isDigit.   (* \d{1,2} *)
Definition digit2 : regex := Rep true 2 (Some 2%nat) isDigit.     (* \d{2}   *)
Definition digit4 : regex := Rep true 4 (Some 4%nat) isDigit.     (* \d{4}   *)
Definition digits : regex := Rep true 1 None isDigit.             (* \d+     *)
Definition spaces : regex := Rep true 0 None isSpace.             (* \s*     *)
Definition dot (c : char) : bool := negb (isLineTerminator c).    (* .       *)

End Regex.
Import Regex.

(** ** The host environment

    What the JavaScript engine and the machine supply: the offset of local
    time from UTC in milliseconds, and [String.prototype.toLowerCase]. *)

Class Host : Type := {
  LocalTZA : Z;
  toLowerCase : str -> str
}.

(** ** Dates: the time arithmetic of ECMAScript (ECMA-262, 21.4.1) *)

Module JsDate.

Definition msPerSecond : Z := 1000.
Definition msPerMinute : Z := 60000.
Definition msPerHour : Z := 3600000.
Definition msPerDay : Z := 86400000.
Definition maxTime : Z := 8640000000000000.

Definition Day (t : Z) : Z := t / msPerDay.
Definition TimeWithinDay (t : Z) : Z := t mod msPerDay.

Definition isLeap (y : Z) : bool :=
  (y mod 4 =? 0) && (negb (y mod 100 =? 0) || (y mod 400 =? 0)).

Definition DaysInYear (y : Z) : Z := if isLeap y then 366 else 365.

Definition DayFromYear (y : Z) : Z :=
  365 * (y - 1970) + (y - 1969) / 4 - (y - 1901) / 100 + (y - 1601) / 400.

(** The year of a day number: the largest [y] with
    [DayFromYear y <= d].  The quotient by the mean year length is at
    most one off. *)
Definition YearFromDay (d : Z) : Z :=
  let y := 1970 + (400 * d) / 146097 in
  if d <? DayFromYear y then y - 1
  else if DayFromYear (y + 1) <=? d then y + 1
  else y.

Definition YearFromTime (t : Z) : Z := YearFromDay (Day t).
Definition InLeapYear (t : Z) : bool := isLeap (YearFromTime t).
Definition DayWithinYear (t : Z) : Z := Day t - DayFromYear (YearFromTime t).

(** Days of the year before month [m] (0 = January). *)
Definition daysBeforeMonth (leap : bool) (m : Z) : Z :=
  let l := if leap then 1 else 0 in
  match m with
  | 0 => 0
  | 1 => 31
  | 2 => 59 + l
  | 3 => 90 + l
  | 4 => 120 + l
  | 5 => 151 + l
  | 6 => 181 + l
  | 7 => 212 + l
  | 8 => 243 + l
  | 9 => 273 + l
  | 10 => 304 + l
  | 11 => 334 + l
  | _ => 365 + l
  end.

Definition monthOfYearDay (leap : bool) (d : Z) : Z :=
  if d <? daysBeforeMonth leap 1 then 0
  else if d <? daysBeforeMonth leap 2 then 1
  else if d <? daysBeforeMonth leap 3 then 2
  else if d <? daysBeforeMonth leap 4 then 3
  else if d <? daysBeforeMonth leap 5 then 4
  else if d <? daysBeforeMonth leap 6 then 5
  else if d <? daysBeforeMonth leap 7 then 6
  else if d <? daysBeforeMonth leap 8 then 7
  else if d <? daysBeforeMonth leap 9 then 8
  else if d <? daysBeforeMonth leap 10 then 9
  else if d <? daysBeforeMonth leap 11 then 10
  else 11.

Definition MonthFromTime (t : Z) : Z :=
  monthOfYearDay (InLeapYear t) (DayWithinYear t).

Definition DateFromTime (t : Z) : Z :=
  DayWithinYear t - daysBeforeMonth (InLeapYear t) (MonthFromTime t) + 1.

Definition monthLength (leap : bool) (m : Z) : Z :=
  match m with
  | 1 => if leap then 29 else 28
  | 3 | 5 | 8 | 10 => 30
  | _ => 31
  end.

Definition DaysInMonth (y m : Z) : Z := monthLength (isLeap y) m.

Definition WeekDay (t : Z) : Z := (Day t + 4) mod 7.
Definition HourFromTime (t : Z) : Z := (t / msPerHour) mod 24.
Definition MinFromTime (t : Z) : Z := (t / msPerMinute) mod 60.
Definition SecFromTime (t : Z) : Z := (t / msPerSecond) mod 60.
Definition msFromTime (t : Z) : Z := t mod msPerSecond.

Definition MakeTime (h m s ms : Z) : Z :=
  h * msPerHour + m * msPerMinute + s * msPerSecond + ms.

Definition MakeDay (year month date : Z) : Z :=
  let ym := year + month / 12 in
  let mn := month mod 12 in
  DayFromYear ym + daysBeforeMonth (isLeap ym) mn + date - 1.

Definition MakeDate (day time : Z) : Z := day * msPerDay + time.

(** A Date object: its time value, NaN for an invalid date. *)
Inductive Date : Type :=
| InvalidDate
| DateAt (t : Z).

Definition TimeClip (t : Z) : Date :=
  if Z.abs t <=? maxTime then DateAt t else InvalidDate.

Section Zone.

Context {host : Host}.

Definition LocalTime (t : Z) : Z := t + LocalTZA.
Definition UTC (t : Z) : Z := t - LocalTZA.

(** [new Date(year, month, day)] *)
Definition newDate (year month day : Z) : Date :=
  let yr := if (0 <=? year) && (year <=? 99) then 1900 + year else year in
  TimeClip (UTC (MakeDate (MakeDay yr month day) (MakeTime 0 0 0 0))).

Definition getFullYear (t : Z) : Z := YearFromTime (LocalTime t).
Definition getMonth (t : Z) : Z := MonthFromTime (LocalTime t).
Definition getDate (t : Z) : Z := DateFromTime (LocalTime t).
Definition getDay (t : Z) : Z := WeekDay (LocalTime t).
Definition getHours (t : Z) : Z := HourFromTime (LocalTime t).
Definition getMinutes (t : Z) : Z := MinFromTime (LocalTime t).
Definition getSeconds (t : Z) : Z := SecFromTime (LocalTime t).
Definition getMilliseconds (t : Z) : Z := msFromTime (LocalTime t).

(** [d.setFullYear(y)], [d.setDate(n)], [d.setHours(h)], [d.setMinutes(m)]
    on a valid date, as the new time value. *)
Definition setFullYear (t : Z) (y : Z) : Date :=
  let l := LocalTime t in
  TimeClip (UTC (MakeDate (MakeDay y (MonthFromTime l) (DateFromTime l))
                          (TimeWithinDay l))).

Definition setDate (t : Z) (dt : Z) : Date :=
  let l := LocalTime t in
  TimeClip (UTC (MakeDate (MakeDay (YearFromTime l) (MonthFromTime l) dt)
                          (TimeWithinDay l))).

Definition setHours_ (t : Z) (h : Z) : Date :=
  let l := LocalTime t in
  TimeClip (UTC (MakeDate (Day l)
    (MakeTime h (MinFromTime l) (SecFromTime l) (msFromTime l)))).

Definition setMinutes_ (t : Z) (m : Z) : Date :=
  let l := LocalTime t in
  TimeClip (UTC (MakeDate (Day l)
    (MakeTime (HourFromTime l) m (SecFromTime l) (msFromTime l)))).

(** *** date-fns *)

(** [addDays(date, amount)]: [setDate(getDate() + amount)], nothing for
    an amount of 0. *)
Definition addDays (d : Date) (amount : Z) : Date :=
  match d with
  | InvalidDate => InvalidDate
  | DateAt t => if amount =? 0 then DateAt t else setDate t (getDate t + amount)
  end.

Definition addWeeks (d : Date) (amount : Z) : Date := addDays d (amount * 7).

(** [nextDay(date, day)], behind [nextMonday] ... [nextSunday]. *)
Definition nextDay (t : Z) (day : Z) : Date :=
  let delta := day - getDay t in
  let delta := if delta <=? 0 then delta + 7 else delta in
  addDays (DateAt t) delta.

Definition setHours (d : Date) (h : Z) : Date :=
  match d with
  | InvalidDate => InvalidDate
  | DateAt t => setHours_ t h
  end.

Definition setMinutes (d : Date) (m : Z) : Date :=
  match d with
  | InvalidDate => InvalidDate
  | DateAt t => setMinutes_ t m
  end.

(** The tokens of the [format] patterns of this program; any other text
    of a pattern is literal. *)
Inductive token : Type :=
| Tyyyy | TM | TMM | Td | Tdd | THH | Tmm
| Ttext (s : str).

Definition pad2 (n : Z) : str := padStart0 2 (String_ n).

Definition formatToken (t : Z) (k : token) : str :=
  match k with
  | Tyyyy =>
    let y := getFullYear t in
    padStart0 4 (String_ (if 0 <? y then y else 1 - y))
  | TM => String_ (getMonth t + 1)
  | TMM => pad2 (getMonth t + 1)
  | Td => String_ (getDate t)
  | Tdd => pad2 (getDate t)
  | THH => pad2 (getHours t)
  | Tmm => pad2 (getMinutes t)
  | Ttext s => s
  end.

(** [format(date, pattern)]; [None] stands for the RangeError that
    date-fns throws on an invalid date. *)
Definition format (d : Date) (pattern : list token) : option str :=
  match d with
  | InvalidDate => None
  | DateAt t => Some (concat (map (formatToken t) pattern))
  end.

End Zone.

End JsDate.
Import JsDate.

(** ** aiService.ts: the parser *)

Inductive Action : Type := Add | Update | Delete | List | Chat.
Inductive Entity : Type := Event | Todo | Memo.

Record ParsedCommand : Type := {
  action : Action;
  entity : option Entity;
  title : option str;
  date : option Date;
  time : option str;
  content : option str;
  originalMessage : str
}.

(** A JavaScript number that is an integer, or NaN ([None]). *)
Definition num := option Z.

Definition parseIntOf (c : option str) : num :=
  match c with
  | Some s => parseInt s
  | None => None
  end.

Definition stringOfNum (n : num) : str :=
  match n with
  | Some z => String_ z
  | None => js "NaN"
  end.

Definition dayMap : list (str * Z) :=
  [ (js "월요일", 1); (js "화요일", 2); (js "수요일", 3); (js "목요일", 4);
    (js "금요일", 5); (js "토요일", 6); (js "일요일", 0) ].

(** /(\d+)\s*(일|days?)\s*(뒤|후)/ *)
Definition daysLaterRe : regex :=
  cat [ Grp 1 digits; spaces;
        Grp 2 (Alt (word "일") (Seq (word "day") (Opt (word "s"))));
        spaces; Grp 3 (oneOf (word "뒤") [word "후"]) ].

(** /(\d+)\s*(주|주일|weeks?)\s*(뒤|후)/ *)
Definition weeksLaterRe : regex :=
  cat [ Grp 1 digits; spaces;
        Grp 2 (oneOf (word "주") [word "주일"; Seq (word "week") (Opt (word "s"))]);
        spaces; Grp 3 (oneOf (word "뒤") [word "후"]) ].

(** /(\d{1,2})\s*월\s*(\d{1,2})\s*일/ *)
Definition monthDayRe : regex :=
  cat [ Grp 1 digit1_2; spaces; word "월"; spaces; Grp 2 digit1_2; spaces;
        word "일" ].

(** /(\d{4})\s*년\s*(\d{1,2})\s*월\s*(\d{1,2})\s*일/ *)
Definition fullDateRe : regex :=
  cat [ Grp 1 digit4; spaces; word "년"; spaces; Grp 2 digit1_2; spaces;
        word "월"; spaces; Grp 3 digit1_2; spaces; word "일" ].

(** /(오전|오후)\s*(\d{1,2})\s*시\s*(\d{1,2})?\s*(분)?/ *)
Definition ampmRe : regex :=
  cat [ Grp 1 (oneOf (word "오전") [word "오후"]); spaces; Grp 2 digit1_2; spaces;
        word "시"; spaces; Opt (Grp 3 digit1_2); spaces; Opt (Grp 4 (word "분")) ].

(** /(\d{1,2})\s*시\s*(\d{1,2})?\s*(분)?/ *)
Definition timeRe : regex :=
  cat [ Grp 1 digit1_2; spaces; word "시"; spaces; Opt (Grp 2 digit1_2);
        spaces; Opt (Grp 3 (word "분")) ].

(** /(\d{1,2}):(\d{2})/ *)
Definition colonRe : regex :=
  cat [ Grp 1 digit1_2; word ":"; Grp 2 digit2 ].

(** /['""](.+?)['""]|['"](.+?)['"]/ *)
Definition isQuote (c : char) : bool := char_eqb c 39%N || char_eqb c 34%N.

Definition quotedRe : regex :=
  Alt (cat [ Cls isQuote; Grp 1 (Rep false 1 None dot); Cls isQuote ])
      (cat [ Cls isQuote; Grp 2 (Rep false 1 None dot); Cls isQuote ]).

(** The six patterns that the title extraction removes, in its order. *)
Definition dateWordsRe : regex :=
  oneOf (word "오늘") [word "내일"; word "모레"; word "월요일"; word "화요일"; word "수요일"; word "목요일"; word "금요일"; word "토요일"; word "일요일"].

(** /\d+\s*(일|주|월|년)\s*(뒤|후)/g *)
Definition laterRe : regex :=
  cat [ digits; spaces; Grp 1 (oneOf (word "일") [word "주"; word "월"; word "년"]); spaces;
        Grp 2 (oneOf (word "뒤") [word "후"]) ].

(** /\d+월\s*\d+일/g *)
Definition monthDayWordsRe : regex :=
  cat [ digits; word "월"; spaces; digits; word "일" ].

(** /(오전|오후)?\s*\d+시(\s*\d+분)?/g *)
Definition clockWordsRe : regex :=
  cat [ Opt (Grp 1 (oneOf (word "오전") [word "오후"])); spaces; digits; word "시";
        Opt (Grp 2 (cat [ spaces; digits; word "분" ])) ].

(** /\d+:\d+/g *)
Definition colonWordsRe : regex := cat [ digits; word ":"; digits ].

(** /일정|회의|미팅|약속|할일|할 일|메모|추가|등록|만들|생성|잡아|넣어|해줘|해 줘|에/g *)
Definition stopWordsRe : regex :=
  oneOf (word "일정")
    [ word "회의"; word "미팅"; word "약속"; word "할일"; word "할 일";
      word "메모"; word "추가"; word "등록"; word "만들"; word "생성";
      word "잡아"; word "넣어"; word "해줘"; word "해 줘"; word "에" ].

Definition addKeywords : list str :=
  [js "추가"; js "등록"; js "만들"; js "생성"; js "잡아"; js "넣어"].
Definition deleteKeywords : list str := [js "삭제"; js "지워"; js "취소"; js "제거"].
Definition listKeywords : list str := [js "보여"; js "알려"; js "뭐"; js "조회"].

Definition eventKeywords : list str := [js "일정"; js "회의"; js "미팅"; js "약속"].
Definition todoKeywords : list str := [js "할일"; js "할 일"; js "업무"; js "태스크"].
Definition memoKeywords : list str := [js "메모"; js "노트"].

(** A [for] loop over keywords that breaks at the first one included, and
    a chain of [includes] joined by [||]. *)
Definition includesAny (keywords : list str) (s : str) : bool :=
  existsb (fun k => includes k s) keywords.

Section Parser.

Context {host : Host}.

(** [new Date(y, m, d)] on numbers. *)
Definition newDateOf (y m d : num) : Date :=
  match y, m, d with
  | Some y, Some m, Some d => newDate y m d
  | _, _, _ => InvalidDate
  end.

Definition addDaysOf (d : Date) (n : num) : Date :=
  match n with
  | Some n => addDays d n
  | None => InvalidDate
  end.

Definition addWeeksOf (d : Date) (n : num) : Date :=
  match n with
  | Some n => addWeeks d n
  | None => InvalidDate
  end.

(** The month-and-day branch: a date of the current year, moved to the
    next year when it is before [now]. *)
Definition monthDayDate (now : Z) (m : MatchResult) : Date :=
  let month := option_map (fun x => x - 1) (parseIntOf (capture m 1)) in
  let day := parseIntOf (capture m 2) in
  match newDateOf (Some (getFullYear now)) month day with
  | DateAt result =>
    if result <? now then setFullYear result (getFullYear result + 1)
    else DateAt result
  | InvalidDate => InvalidDate
  end.

Definition fullDate (m : MatchResult) : Date :=
  newDateOf (parseIntOf (capture m 1))
            (option_map (fun x => x - 1) (parseIntOf (capture m 2)))
            (parseIntOf (capture m 3)).

(** [now] is the value of [new Date()] at the call. *)
Definition parseKoreanDate (now : Z) (text : str) : option Date :=
  let lowerText := toLowerCase text in
  if includes (js "오늘") lowerText then Some (DateAt now)
  else if includes (js "내일") lowerText then Some (addDays (DateAt now) 1)
  else if includes (js "모레") lowerText then Some (addDays (DateAt now) 2)
  else
    match find (fun e => includes (fst e) lowerText) dayMap with
    | Some (_, day) => Some (nextDay now day)
    | None =>
      match jsMatch lowerText daysLaterRe with
      | Some m => Some (addDaysOf (DateAt now) (parseIntOf (capture m 1)))
      | None =>
        match jsMatch lowerText weeksLaterRe with
        | Some m => Some (addWeeksOf (DateAt now) (parseIntOf (capture m 1)))
        | None =>
          match jsMatch lowerText monthDayRe with
          | Some m => Some (monthDayDate now m)
          | None =>
            match jsMatch lowerText fullDateRe with
            | Some m => Some (fullDate m)
            | None => None
            end
          end
        end
      end
    end.

Record Clock : Type := { hours : num; minutes : num }.

(** [m[i] ? parseInt(m[i]) : 0] *)
Definition minutesOf (c : option str) : num :=
  match c with
  | Some s => if truthy s then parseInt s else Some 0
  | None => Some 0
  end.

Definition numLt (a : num) (b : Z) : bool :=
  match a with Some x => x <? b | None => false end.

Definition numEq (a : num) (b : Z) : bool :=
  match a with Some x => x =? b | None => false end.

Definition parseTime (text : str) : option Clock :=
  match jsMatch text ampmRe with
  | Some m =>
    let hours := parseIntOf (capture m 2) in
    let minutes := minutesOf (capture m 3) in
    let pm := match capture m 1 with Some w => str_eqb w (js "오후") | None => false end in
    let am := match capture m 1 with Some w => str_eqb w (js "오전") | None => false end in
    let hours := if pm && numLt hours 12 then option_map (Z.add 12) hours else hours in
    let hours := if am && numEq hours 12 then Some 0 else hours in
    Some {| hours := hours; minutes := minutes |}
  | None =>
    match jsMatch text timeRe with
    | Some m =>
      Some {| hours := parseIntOf (capture m 1); minutes := minutesOf (capture m 2) |}
    | None =>
      match jsMatch text colonRe with
      | Some m =>
        Some {| hours := parseIntOf (capture m 1); minutes := parseIntOf (capture m 2) |}
      | None => None
      end
    end
  end.

Definition setHoursOf (d : Date) (h : num) : Date :=
  match h with Some h => setHours d h | None => InvalidDate end.

Definition setMinutesOf (d : Date) (m : num) : Date :=
  match m with Some m => setMinutes d m | None => InvalidDate end.

(** The title of a message without a quoted part: the six removals, then
    [trim]. *)
Definition stripTitle (message : str) : str :=
  let title := message in
  let title := removeAll title dateWordsRe in
  let title := removeAll title laterRe in
  let title := removeAll title monthDayWordsRe in
  let title := removeAll title clockWordsRe in
  let title := removeAll title colonWordsRe in
  let title := removeAll title stopWordsRe in
  trim title.

Definition detectAction (lowerMessage : str) : option Action :=
  if includesAny addKeywords lowerMessage then Some Add
  else if includesAny deleteKeywords lowerMessage then Some Delete
  else if includesAny listKeywords lowerMessage then Some List
  else None.

Definition detectEntity (lowerMessage : str) : option Entity :=
  if includesAny eventKeywords lowerMessage then Some Event
  else if includesAny todoKeywords lowerMessage then Some Todo
  else if includesAny memoKeywords lowerMessage then Some Memo
  else None.

(** [quotedMatch[1] || quotedMatch[2]] *)
Definition quotedTitle (m : MatchResult) : option str :=
  match capture m 1 with
  | Some s => if truthy s then Some s else capture m 2
  | None => capture m 2
  end.

Definition withAction (c : ParsedCommand) (a : Action) : ParsedCommand :=
  {| action := a; entity := entity c; title := title c; date := date c;
     time := time c; content := content c;
     originalMessage := originalMessage c |}.

Definition parseCommand (now : Z) (message : str) : ParsedCommand :=
  let lowerMessage := toLowerCase message in
  let result :=
    {| action := Chat; entity := None; title := None; date := None;
       time := None; content := None; originalMessage := message |} in
  match detectAction lowerMessage with
  | None => result
  | Some detectedAction =>
    let result := withAction result detectedAction in
    match detectEntity lowerMessage with
    | None => withAction result Chat
    | Some e =>
      let parsedDate := parseKoreanDate now message in
      let parsedTime := parseTime message in
      let '(date, time) :=
        match parsedTime, parsedDate with
        | Some t, Some d =>
          (Some (setMinutesOf (setHoursOf d (hours t)) (minutes t)),
           Some (stringOfNum (hours t) ++ js ":"
                 ++ padStart0 2 (stringOfNum (minutes t))))
        | _, _ => (parsedDate, None)
        end in
      let title :=
        match jsMatch message quotedRe with
        | Some m => quotedTitle m
        | None =>
          let title := stripTitle message in
          if (2 <? length title)%nat then Some title else None
        end in
      {| action := action result; entity := Some e; title := title;
         date := date; time := time; content := content result;
         originalMessage := originalMessage result |}
    end
  end.

End Parser.

(** ** Effects: Supabase, the chat model, the clock, the console *)

(** A thrown value or a Supabase error: an object whose [message] is a
    string or absent. *)
Record JsError : Type := { message : option str }.

Definition rangeError : JsError := {| message := Some (js "Invalid time value") |}.

(** How an awaited promise settles. *)
Inductive Settled (A : Type) : Type :=
| Fulfilled (a : A)
| Rejected (e : JsError).
Arguments Fulfilled {A} a.
Arguments Rejected {A} e.

(** The [{ data, error }] of a Supabase query; [None] is [null]. *)
Record Reply (A : Type) : Type := {
  data : option A;
  error : option JsError
}.
Arguments data {A} r.
Arguments error {A} r.

Module TodoRow.
Record t : Type := {
  id : Z; title : str; description : option str; project : option str;
  due_date : option str; status : option str; priority : option str;
  assignee : option str; is_deleted : option bool
}.
End TodoRow.

Module TodoItem.
Record t : Type := {
  id : Z; title : str; description : str; project : str; dueDate : str;
  status : str; priority : str; assignee : str; isDeleted : bool
}.
End TodoItem.

Module NewTodo.
Record t : Type := {
  title : str; description : str; project : str; dueDate : str;
  status : str; priority : str; assignee : str
}.
End NewTodo.

(** An event row carries, for [start_date] and [end_date], the Date that
    [new Date(...)] makes of the stored ISO string. *)
Module EventRow.
Record t : Type := {
  id : Z; title : str; start_date : Date; end_date : Date; type : str;
  color : str
}.
End EventRow.

Module CalendarEvent.
Record t : Type := {
  id : Z; title : str; startDate : Date; endDate : Date; type : str;
  color : str
}.
End CalendarEvent.

(** The row that [createEvent] inserts; an ISO string is given by the
    time value it prints. *)
Module NewEventRow.
Record t : Type := {
  title : str; start_date : Z; end_date : Z; type : str; color : str
}.
End NewEventRow.

Module NewEvent.
Record t : Type := {
  title : str; startDate : Date; endDate : Date; type : str; color : str
}.
End NewEvent.

(** [Omit<MemoItem, 'id' | 'updatedAt'>]: [tags], [isPinned] and [group]
    are optional, [None] is an absent property; [date], which
    [createMemo] does not read, is left out. *)
Module NewMemo.
Record t : Type := {
  title : str; content : str; tags : option (list str);
  isPinned : option bool; group : option str
}.
End NewMemo.

Module NewMemoRow.
Record t : Type := {
  title : str; content : str; tags : list str; is_pinned : bool;
  updated_at : Z; group : str
}.
End NewMemoRow.

(** The row that the store answers an insert of a memo with; [None] is
    [null]. *)
Module MemoRow.
Record t : Type := {
  id : Z; title : option str; content : option str;
  tags : option (list str); updated_at : option str;
  is_pinned : option bool; group : option str
}.
End MemoRow.

(** The date that [toLocaleDateString] prints for [updatedAt]: the one of
    the row, or a reading of the clock.  The printed text is made by the
    locale data of the host and is not modelled. *)
Inductive Stamp : Type :=
| StampOfRow (updated_at : str)
| StampOfClock (t : Z).

Module MemoItem.
Record t : Type := {
  id : Z; title : str; content : str; tags : list str;
  updatedAt : Stamp; isPinned : bool; group : str
}.
End MemoItem.

Inductive Call : Type -> Type :=
| SelectTodos : Call (Settled (Reply (list TodoRow.t)))
| SelectEvents : Call (Settled (Reply (list EventRow.t)))
| InsertTodo (row : NewTodo.t) : Call (Settled (Reply TodoRow.t))
| InsertEvent (row : NewEventRow.t) : Call (Settled (Reply EventRow.t))
| InsertMemo (row : NewMemoRow.t) : Call (Settled (Reply MemoRow.t))
| GeminiChat (systemPrompt greeting message : str) : Call (Settled str)
| NewDate : Call Z
| ConsoleError (label : str) (e : JsError) : Call unit.

(** Programs: a value, a thrown exception, or a call and what follows
    its answer. *)
Inductive Prog (A : Type) : Type :=
| Ret (a : A)
| Throw (e : JsError)
| Vis (X : Type) (c : Call X) (k : X -> Prog A).
Arguments Ret {A} a.
Arguments Throw {A} e.
Arguments Vis {A X} c k.

Fixpoint bind {A B : Type} (p : Prog A) (f : A -> Prog B) : Prog B :=
  match p with
  | Ret a => f a
  | Throw e => Throw e
  | Vis c k => Vis c (fun x => bind (k x) f)
  end.

(** [try { p } catch (error) { handler }] *)
Fixpoint tryCatch {A : Type} (p : Prog A) (handler : JsError -> Prog A) : Prog A :=
  match p with
  | Ret a => Ret a
  | Throw e => handler e
  | Vis c k => Vis c (fun x => tryCatch (k x) handler)
  end.

Definition perform {X : Type} (c : Call X) : Prog X := Vis c Ret.

(** [await c]: a rejected promise throws. *)
Definition await {A : Type} (c : Call (Settled A)) : Prog A :=
  Vis c (fun r => match r with Fulfilled a => Ret a | Rejected e => Throw e end).

Declare Scope prog_scope.
Delimit Scope prog_scope with prog.
Notation "x <- p ;; q" := (bind p (fun x => q))
  (at level 61, p at next level, right associativity) : prog_scope.
Notation "p ;; q" := (bind p (fun _ => q))
  (at level 61, right associativity) : prog_scope.
Local Open Scope prog_scope.

(** The calls of a run against an environment that answers every call. *)
Inductive Performed : Type := Called (X : Type) (c : Call X).
Arguments Called {X} c.

Definition World : Type := forall X : Type, Call X -> X.

Fixpoint run {A : Type} (w : World) (p : Prog A) : list Performed * (A + JsError) :=
  match p with
  | Ret a => ([], inl a)
  | Throw e => ([], inr e)
  | Vis c k => let (tr, r) := run w (k (w _ c)) in (Called c :: tr, r)
  end.

(** Every way the program can end, whatever the answers, is a returned
    value that satisfies [P]. *)
Inductive Returns {A : Type} (P : A -> Prop) : Prog A -> Prop :=
| Returns_Ret (a : A) : P a -> Returns P (Ret a)
| Returns_Vis (X : Type) (c : Call X) (k : X -> Prog A) :
    (forall x, Returns P (k x)) -> Returns P (Vis c k).

(** [x || d] on strings. *)
Definition orElse (x : option str) (d : str) : str :=
  match x with
  | Some s => if truthy s then s else d
  | None => d
  end.

Definition nl : str := [10%N].
Definition dquote : str := [34%N].

(** [d.toISOString()] *)
Definition toISOString (d : Date) : Prog Z :=
  match d with
  | DateAt t => Ret t
  | InvalidDate => Throw rangeError
  end.

(** *** todoService.ts *)
Module todoService.

Definition ofRow (todo : TodoRow.t) : TodoItem.t :=
  {| TodoItem.id := TodoRow.id todo;
     TodoItem.title := TodoRow.title todo;
     TodoItem.description := orElse (TodoRow.description todo) [];
     TodoItem.project := orElse (TodoRow.project todo) (js "기타");
     TodoItem.dueDate := orElse (TodoRow.due_date todo) [];
     TodoItem.status := orElse (TodoRow.status todo) (js "대기");
     TodoItem.priority := orElse (TodoRow.priority todo) (js "중");
     TodoItem.assignee := orElse (TodoRow.assignee todo) (js "나");
     TodoItem.isDeleted :=
       match TodoRow.is_deleted todo with Some b => b | None => false end |}.

Definition getTodos : Prog (Reply (list TodoItem.t)) :=
  r <- await SelectTodos ;;
  let todos := match data r with Some rows => map ofRow rows | None => [] end in
  Ret {| data := Some todos; error := error r |}.

Definition createTodo (todo : NewTodo.t) : Prog (Reply TodoItem.t) :=
  let dbTodo :=
    {| NewTodo.title := NewTodo.title todo;
       NewTodo.description := orElse (Some (NewTodo.description todo)) [];
       NewTodo.project := orElse (Some (NewTodo.project todo)) (js "기타");
       NewTodo.dueDate := NewTodo.dueDate todo;
       NewTodo.status := orElse (Some (NewTodo.status todo)) (js "대기");
       NewTodo.priority := orElse (Some (NewTodo.priority todo)) (js "중");
       NewTodo.assignee := orElse (Some (NewTodo.assignee todo)) (js "나") |} in
  r <- await (InsertTodo dbTodo) ;;
  Ret {| data := option_map ofRow (data r); error := error r |}.

End todoService.

(** *** calendarService.ts *)
Module calendarService.

Definition ofRow (event : EventRow.t) : CalendarEvent.t :=
  {| CalendarEvent.id := EventRow.id event;
     CalendarEvent.title := EventRow.title event;
     CalendarEvent.startDate := EventRow.start_date event;
     CalendarEvent.endDate := EventRow.end_date event;
     CalendarEvent.type := EventRow.type event;
     CalendarEvent.color := EventRow.color event |}.

Definition getEvents : Prog (Reply (list CalendarEvent.t)) :=
  r <- await SelectEvents ;;
  let events := match data r with Some rows => map ofRow rows | None => [] end in
  Ret {| data := Some events; error := error r |}.

Definition createEvent (event : NewEvent.t) : Prog (Reply CalendarEvent.t) :=
  start_date <- toISOString (NewEvent.startDate event) ;;
  end_date <- toISOString (NewEvent.endDate event) ;;
  let dbEvent :=
    {| NewEventRow.title := NewEvent.title event;
       NewEventRow.start_date := start_date;
       NewEventRow.end_date := end_date;
       NewEventRow.type := NewEvent.type event;
       NewEventRow.color := NewEvent.color event |} in
  r <- await (InsertEvent dbEvent) ;;
  Ret {| data := option_map ofRow (data r); error := error r |}.

End calendarService.

(** *** memoService.ts *)
Module memoService.

(** [data.updated_at ? new Date(data.updated_at)... : new Date()...] *)
Definition stamp (updated_at : option str) : Prog Stamp :=
  match updated_at with
  | Some s =>
    if truthy s then Ret (StampOfRow s)
    else now <- perform NewDate ;; Ret (StampOfClock now)
  | None => now <- perform NewDate ;; Ret (StampOfClock now)
  end.

Definition createMemo (memo : NewMemo.t) : Prog (Reply MemoItem.t) :=
  now <- perform NewDate ;;
  let tag0 :=
    match NewMemo.tags memo with
    | Some tags => nth_error tags 0
    | None => None
    end in
  let dbMemo :=
    {| NewMemoRow.title := orElse (Some (NewMemo.title memo)) (js "제목 없음");
       NewMemoRow.content := orElse (Some (NewMemo.content memo)) [];
       NewMemoRow.tags :=
         match NewMemo.tags memo with Some tags => tags | None => [] end;
       NewMemoRow.is_pinned :=
         match NewMemo.isPinned memo with Some b => b | None => false end;
       NewMemoRow.updated_at := now;
       NewMemoRow.group :=
         orElse (match NewMemo.group memo with
                 | Some g => if truthy g then Some g else tag0
                 | None => tag0
                 end)
                (js "기본 그룹") |} in
  r <- await (InsertMemo dbMemo) ;;
  match error r with
  | Some e =>
    perform (ConsoleError (js "메모 생성 에러:") e) ;;
    Ret {| data := None; error := Some e |}
  | None =>
    match data r with
    | Some row =>
      updatedAt <- stamp (MemoRow.updated_at row) ;;
      Ret {| data :=
               Some {| MemoItem.id := MemoRow.id row;
                       MemoItem.title := orElse (MemoRow.title row) [];
                       MemoItem.content := orElse (MemoRow.content row) [];
                       MemoItem.tags :=
                         match MemoRow.tags row with
                         | Some tags => tags
                         | None => []
                         end;
                       MemoItem.updatedAt := updatedAt;
                       MemoItem.isPinned :=
                         match MemoRow.is_pinned row with
                         | Some b => b
                         | None => false
                         end;
                       MemoItem.group :=
                         orElse (MemoRow.group row) (js "기본 그룹") |};
             error := None |}
    | None => Ret {| data := None; error := None |}
    end
  end.

End memoService.

(** ** aiService.ts: the dispatcher *)

Record Response : Type := {
  response : str;
  command : option ParsedCommand
}.

Definition askEventTitle : str :=
  js "일정 제목을 알려주세요. 예: " ++ dquote
    ++ js "내일 오후 2시에 팀 미팅 일정 추가해줘" ++ dquote.

Definition askTodoTitle : str :=
  js "할 일 내용을 알려주세요. 예: " ++ dquote
    ++ js "금요일까지 보고서 작성 할 일 추가해줘" ++ dquote.

Definition noEvents : str := js "등록된 일정이 없습니다.".
Definition noTodos : str := js "등록된 할 일이 없습니다.".
Definition eventsHeader : str := js "📅 **다가오는 일정**" ++ nl ++ nl.
Definition todosHeader : str := js "📝 **진행 중인 할 일**" ++ nl ++ nl.
Definition commandFailed : str :=
  js "⚠️ 명령 처리 중 오류가 발생했습니다. 다시 시도해주세요.".
Definition modelUnreachable : str :=
  js "⚠️ AI 모델 연결에 문제가 있습니다. 잠시 후 다시 시도해주세요.".
Definition requestFailed : str :=
  js "⚠️ 죄송합니다. 요청을 처리하는 중 오류가 발생했습니다. 다시 시도해주세요.".

(** The persona prompt and the greeting that prime the chat. *)
Definition systemPrompt : str :=
  js "당신은 " ++ dquote ++ js "AI 비서" ++ dquote ++ js "입니다. 비즈니스 협업 플랫폼에서 사용자를 도와주는 친절한 AI 어시스턴트입니다."
  ++ nl
  ++ js "            "
  ++ nl
  ++ js "            다음과 같은 업무를 도와줄 수 있습니다:"
  ++ nl
  ++ js "            - 일정 관리 (추가/조회/삭제)"
  ++ nl
  ++ js "            - 할 일 관리 (추가/조회/삭제)"
  ++ nl
  ++ js "            - 메모 작성"
  ++ nl
  ++ js "            - 업무 관련 질문 답변"
  ++ nl
  ++ js "            "
  ++ nl
  ++ js "            항상 친절하고 전문적으로 응답해주세요. 한국어로 응답해주세요.".

Definition greeting : str :=
  js "안녕하세요! AI 비서입니다. 일정, 할 일, 메모 관리를 도와드리겠습니다. 무엇을 도와드릴까요?".

(** [!command.title] *)
Definition noTitle (c : ParsedCommand) : bool :=
  match title c with
  | Some s => negb (truthy s)
  | None => true
  end.

Definition bullet (s : str) : str := js "• " ++ s ++ nl.

Definition isPending (t : TodoItem.t) : bool :=
  negb (str_eqb (TodoItem.status t) (js "완료")).

Section Dispatcher.

Context {host : Host}.

Definition formatDate (d : Date) (pattern : list token) : Prog str :=
  match format d pattern with
  | Some s => Ret s
  | None => Throw rangeError
  end.

(** 'M월 d일 HH:mm', 'M월 d일', "yyyy-MM-dd'T'HH:mm", 'M/d HH:mm' *)
Definition fmtEventAdded : list token :=
  [TM; Ttext (js "월 "); Td; Ttext (js "일 "); THH; Ttext (js ":"); Tmm].
Definition fmtTodoAdded : list token := [TM; Ttext (js "월 "); Td; Ttext (js "일")].
Definition fmtDueDate : list token :=
  [Tyyyy; Ttext (js "-"); TMM; Ttext (js "-"); Tdd; Ttext (js "T"); THH;
   Ttext (js ":"); Tmm].
Definition fmtEventLine : list token :=
  [TM; Ttext (js "/"); Td; Ttext (js " "); THH; Ttext (js ":"); Tmm].

(** [upcoming.forEach(event => response += ...)] *)
Fixpoint eventLines (response : str) (events : list CalendarEvent.t) : Prog str :=
  match events with
  | [] => Ret response
  | event :: rest =>
    when <- formatDate (CalendarEvent.startDate event) fmtEventLine ;;
    eventLines
      (response ++ js "• " ++ CalendarEvent.title event ++ js " - " ++ when ++ nl)
      rest
  end.

Definition todoLines (response : str) (todos : list TodoItem.t) : str :=
  fold_left (fun response todo => response ++ bullet (TodoItem.title todo))
            todos response.

Definition addEvent (command : ParsedCommand) : Prog str :=
  if noTitle command then Ret askEventTitle
  else
    let title := orElse (title command) [] in
    startDate <- match date command with
                 | Some d => Ret d
                 | None => now <- perform NewDate ;; Ret (DateAt now)
                 end ;;
    let endDate := addDays startDate 0 in
    r <- calendarService.createEvent
           {| NewEvent.title := title;
              NewEvent.startDate := startDate;
              NewEvent.endDate := endDate;
              NewEvent.type := js "personal";
              NewEvent.color :=
                js "bg-blue-100 text-blue-700 border-l-4 border-blue-600" |} ;;
    match error r with
    | Some e => Throw e
    | None =>
      dateStr <- formatDate startDate fmtEventAdded ;;
      Ret (js "✅ 일정이 추가되었습니다!" ++ nl ++ nl ++ js "📅 **" ++ title
           ++ js "**" ++ nl ++ js "⏰ " ++ dateStr)
    end.

Definition addTodo (command : ParsedCommand) : Prog str :=
  if noTitle command then Ret askTodoTitle
  else
    let title := orElse (title command) [] in
    dueDate <- match date command with
               | Some d => Ret d
               | None => now <- perform NewDate ;; Ret (addDays (DateAt now) 1)
               end ;;
    due <- formatDate dueDate fmtDueDate ;;
    r <- todoService.createTodo
           {| NewTodo.title := title;
              NewTodo.dueDate := due;
              NewTodo.status := js "대기";
              NewTodo.priority := js "중";
              NewTodo.project := js "기타";
              NewTodo.assignee := js "나";
              NewTodo.description := [] |} ;;
    match error r with
    | Some e => Throw e
    | None =>
      dateStr <- formatDate dueDate fmtTodoAdded ;;
      Ret (js "✅ 할 일이 추가되었습니다!" ++ nl ++ nl ++ js "📝 **" ++ title
           ++ js "**" ++ nl ++ js "📆 마감일: " ++ dateStr)
    end.

Definition addMemo (command : ParsedCommand) : Prog str :=
  let title := orElse (title command) (js "새 메모") in
  let content := orElse (content command) (originalMessage command) in
  r <- memoService.createMemo
         {| NewMemo.title := title; NewMemo.content := content;
            NewMemo.tags := Some []; NewMemo.isPinned := Some false;
            NewMemo.group := None |} ;;
  match error r with
  | Some e => Throw e
  | None =>
    Ret (js "✅ 메모가 저장되었습니다!" ++ nl ++ nl ++ js "📝 **" ++ title ++ js "**")
  end.

Definition listEvents : Prog str :=
  r <- calendarService.getEvents ;;
  match data r with
  | None | Some [] => Ret noEvents
  | Some events => eventLines eventsHeader (firstn 5 events)
  end.

Definition listTodos : Prog str :=
  r <- todoService.getTodos ;;
  match data r with
  | None | Some [] => Ret noTodos
  | Some todos => Ret (todoLines todosHeader (firstn 5 (filter isPending todos)))
  end.

Definition logAndFail (error : JsError) : Prog str :=
  perform (ConsoleError (js "명령 실행 오류:") error) ;;
  Ret commandFailed.

Definition executeCommand (command : ParsedCommand) : Prog str :=
  tryCatch
    match action command, entity command with
    | Add, Some Event => addEvent command
    | Add, Some Todo => addTodo command
    | Add, Some Memo => addMemo command
    | List, Some Event => listEvents
    | List, Some Todo => listTodos
    | _, _ => Ret []
    end
    logAndFail.

(** The conversation with the model: [startChat], [sendMessage] and
    [result.response.text()]. *)
Definition converse (message : str) : Prog Response :=
  reply <- await (GeminiChat systemPrompt greeting message) ;;
  Ret {| response := reply; command := None |}.

Definition apologise (error : JsError) : Prog Response :=
  perform (ConsoleError (js "AI 서비스 오류:") error) ;;
  if match message error with
     | Some m => includes (js "404") m
     | None => false
     end
  then Ret {| response := modelUnreachable; command := None |}
  else Ret {| response := requestFailed; command := None |}.

(** [now] is the clock reading of the parser. *)
Definition sendMessage (now : Z) (message : str) : Prog Response :=
  tryCatch
    (let command := parseCommand now message in
     match action command, entity command with
     | Chat, _ | _, None => converse message
     | _, Some _ =>
       result <- executeCommand command ;;
       if truthy result
       then Ret {| response := result; command := Some command |}
       else converse message
     end)
    apologise.

End Dispatcher.

(** ** AIView.tsx: the chat view

    The state of the component is its three [useState] cells; a handler
    is run on the state of the render that made it, and each
    [setMessages(prev => [...prev, m])] appends to the messages.
    [Date.now()] and [new Date()] are both readings of the clock. *)
Module AIView.

Inductive Role : Type := User | Assistant.

Record Message : Type := {
  id : Z;
  role : Role;
  content : str;
  timestamp : Z;
  isCommand : option bool
}.

Record State : Type := {
  messages : list Message;
  inputMessage : str;
  isLoading : bool
}.

Definition sendFailed : str :=
  js "⚠️ 죄송합니다. 요청을 처리하는 중 오류가 발생했습니다.".

Definition append (st : State) (m : Message) : State :=
  {| messages := messages st ++ [m];
     inputMessage := inputMessage st;
     isLoading := isLoading st |}.

(** [command?.action !== 'chat'] *)
Definition isCommandOf (command : option ParsedCommand) : bool :=
  match command with
  | Some c => match action c with Chat => false | _ => true end
  | None => true
  end.

Section Handlers.

Context {host : Host}.

(** [now] is the clock reading of the parser. *)
Definition handleSend (now : Z) (st : State) : Prog State :=
  if negb (truthy (trim (inputMessage st))) || isLoading st then Ret st
  else
    id <- perform NewDate ;;
    timestamp <- perform NewDate ;;
    let userMessage :=
      {| id := id; role := User; content := inputMessage st;
         timestamp := timestamp; isCommand := None |} in
    let st1 :=
      {| messages := messages st ++ [userMessage];
         inputMessage := [];
         isLoading := true |} in
    st2 <- tryCatch
             (r <- sendMessage now (inputMessage st) ;;
              id <- perform NewDate ;;
              timestamp <- perform NewDate ;;
              Ret (append st1
                     {| id := id + 1; role := Assistant;
                        content := response r; timestamp := timestamp;
                        isCommand := Some (isCommandOf (command r)) |}))
             (fun error =>
                perform (ConsoleError (js "메시지 전송 오류:") error) ;;
                id <- perform NewDate ;;
                timestamp <- perform NewDate ;;
                Ret (append st1
                       {| id := id + 1; role := Assistant;
                          content := sendFailed; timestamp := timestamp;
                          isCommand := None |})) ;;
    Ret {| messages := messages st2;
           inputMessage := inputMessage st2;
           isLoading := false |}.

(** [handleSuggestedCommand(command)] *)
Definition handleSuggestedCommand (command : str) (st : State) : State :=
  {| messages := messages st; inputMessage := command;
     isLoading := isLoading st |}.

End Handlers.

End AIView.

(** An environment given by one answer per kind of call. *)
Record Answers : Type := {
  selectTodos : Settled (Reply (list TodoRow.t));
  selectEvents : Settled (Reply (list EventRow.t));
  insertTodo : Settled (Reply TodoRow.t);
  insertEvent : Settled (Reply EventRow.t);
  insertMemo : Settled (Reply MemoRow.t);
  geminiChat : Settled str;
  clock : Z
}.

Definition worldOf (a : Answers) : World :=
  fun X c =>
    match c in Call X return X with
    | SelectTodos => selectTodos a
    | SelectEvents => selectEvents a
    | InsertTodo _ => insertTodo a
    | InsertEvent _ => insertEvent a
    | InsertMemo _ => insertMemo a
    | GeminiChat _ _ _ => geminiChat a
    | NewDate => clock a
    | ConsoleError _ _ => tt
    end.

Definition nothing {A : Type} : Settled (Reply A) :=
  Fulfilled {| data := None; error := None |}.

Definition failing {A : Type} (text : str) : Settled (Reply A) :=
  Fulfilled {| data := None; error := Some {| message := Some text |} |}.

(** A concrete host for worked examples: Korea Standard Time, and a
    lower-casing of the Basic Latin letters (every text of the examples
    is Hangul, digits, spaces and punctuation, which have no case). *)
Definition asciiLower (c : char) : char :=
  if (65 <=? c)%N && (c <=? 90)%N then (c + 32)%N else c.

Definition KST : Z := 9 * msPerHour.

Definition seoul : Host := {| LocalTZA := KST; toLowerCase := map asciiLower |}.

(** [new Date(y, m, d, h, min)] in Seoul, for the examples. *)
Definition seoulTime (y m d h min : Z) : Z :=
  MakeDate (MakeDay y m d) (MakeTime h min 0 0) - KST.

(** ** The vocabulary of the properties *)

(** A month (0 = January) and a day of the month that exist in year [y]. *)
Definition validDate (y m d : Z) : Prop :=
  0 <= m <= 11 /\ 1 <= d <= DaysInMonth y m.

(** None of the three literal words that are tried before the weekday
    names. *)
Definition noLiteralDay (lowerText : str) : Prop :=
  includes (js "오늘") lowerText = false /\
  includes (js "내일") lowerText = false /\
  includes (js "모레") lowerText = false.

(** [name] is the first weekday name, in the order of [dayMap], that the
    text includes. *)
Definition firstWeekday (lowerText name : str) (day : Z) : Prop :=
  exists before after,
    dayMap = before ++ (name, day) :: after /\
    Forall (fun e => includes (fst e) lowerText = false) before /\
    includes name lowerText = true.

(** The month-and-day pattern is the first of the date patterns to match
    the lower-cased text, with captures that read [M] and [D]. *)
Definition monthDayInput (lowerText : str) (M D : Z) : Prop :=
  noLiteralDay lowerText /\
  find (fun e => includes (fst e) lowerText) dayMap = None /\
  jsMatch lowerText daysLaterRe = None /\
  jsMatch lowerText weeksLaterRe = None /\
  exists m, jsMatch lowerText monthDayRe = Some m /\
            parseIntOf (capture m 1) = Some M /\
            parseIntOf (capture m 2) = Some D.

(** The same as a test, and the text 'M월 D일' in figures. *)
Definition isNone {A : Type} (o : option A) : bool :=
  match o with None => true | Some _ => false end.

Definition readsAs (c : option str) (n : Z) : bool :=
  match parseIntOf c with Some z => z =? n | None => false end.

Definition monthDayInputb (lowerText : str) (M D : Z) : bool :=
  negb (includes (js "오늘") lowerText) &&
  negb (includes (js "내일") lowerText) &&
  negb (includes (js "모레") lowerText) &&
  isNone (find (fun e => includes (fst e) lowerText) dayMap) &&
  isNone (jsMatch lowerText daysLaterRe) &&
  isNone (jsMatch lowerText weeksLaterRe) &&
  match jsMatch lowerText monthDayRe with
  | Some m => readsAs (capture m 1) M && readsAs (capture m 2) D
  | None => false
  end.

Definition monthDayText (M D : Z) : str :=
  String_ M ++ js "월 " ++ String_ D ++ js "일".

(** One of the keywords occurs in the lower-cased message. *)
Definition mentions (keywords : list str) (lowerMessage : str) : Prop :=
  exists k, In k keywords /\ includes k lowerMessage = true.

(** The classification of the specification: additions first, then
    deletions, then listings, else a chat; events first, then to-dos,
    then memos, else no entity. *)
Inductive ActionBySpec (m : str) : Action -> Prop :=
| by_add : mentions addKeywords m -> ActionBySpec m Add
| by_delete :
    ~ mentions addKeywords m -> mentions deleteKeywords m ->
    ActionBySpec m Delete
| by_list :
    ~ mentions addKeywords m -> ~ mentions deleteKeywords m ->
    mentions listKeywords m -> ActionBySpec m List
| by_default :
    ~ mentions addKeywords m -> ~ mentions deleteKeywords m ->
    ~ mentions listKeywords m -> ActionBySpec m Chat.

Inductive EntityBySpec (m : str) : option Entity -> Prop :=
| by_event : mentions eventKeywords m -> EntityBySpec m (Some Event)
| by_todo :
    ~ mentions eventKeywords m -> mentions todoKeywords m ->
    EntityBySpec m (Some Todo)
| by_memo :
    ~ mentions eventKeywords m -> ~ mentions todoKeywords m ->
    mentions memoKeywords m -> EntityBySpec m (Some Memo)
| by_nothing :
    ~ mentions eventKeywords m -> ~ mentions todoKeywords m ->
    ~ mentions memoKeywords m -> EntityBySpec m None.

(** No date pattern matches the lower-cased text. *)
Definition noDatePattern (lowerText : str) : Prop :=
  noLiteralDay lowerText /\
  (forall name day, In (name, day) dayMap -> includes name lowerText = false) /\
  jsMatch lowerText daysLaterRe = None /\
  jsMatch lowerText weeksLaterRe = None /\
  jsMatch lowerText monthDayRe = None /\
  jsMatch lowerText fullDateRe = None.

(** No time pattern matches the text. *)
Definition noTimePattern (text : str) : Prop :=
  jsMatch text ampmRe = None /\
  jsMatch text timeRe = None /\
  jsMatch text colonRe = None.


(** Every way the program can end is an exception or a returned value
    that satisfies [P]. *)
Inductive Ends {A : Type} (P : A -> Prop) : Prog A -> Prop :=
| Ends_Ret (a : A) : P a -> Ends P (Ret a)
| Ends_Throw (e : JsError) : Ends P (Throw e)
| Ends_Vis (X : Type) (c : Call X) (k : X -> Prog A) :
    (forall x, Ends P (k x)) -> Ends P (Vis c k).

(** [Matches r w]: the pattern [r] describes the text [w]. *)
Inductive Matches : regex -> str -> Prop :=
| M_Eps : Matches Eps []
| M_Lit (p : str) : Matches (Lit p) p
| M_Cls (p : char -> bool) (c : char) : p c = true -> Matches (Cls p) [c]
| M_Seq (r1 r2 : regex) (w1 w2 : str) :
    Matches r1 w1 -> Matches r2 w2 -> Matches (Seq r1 r2) (w1 ++ w2)
| M_AltL (r1 r2 : regex) (w : str) : Matches r1 w -> Matches (Alt r1 r2) w
| M_AltR (r1 r2 : regex) (w : str) : Matches r2 w -> Matches (Alt r1 r2) w
| M_OptNone (r : regex) : Matches (Opt r) []
| M_OptSome (r : regex) (w : str) : Matches r w -> Matches (Opt r) w
| M_Rep (g : bool) (lo : nat) (hi : option nat) (p : char -> bool) (w : str) :
    forallb p w = true -> (lo <= length w)%nat ->
    (forall h, hi = Some h -> (length w <= h)%nat) ->
    Matches (Rep g lo hi p) w
| M_Grp (i : nat) (r : regex) (w : str) : Matches r w -> Matches (Grp i r) w.

Section Clock.

Context {host : Host}.

(** The clock reads a local time from 1970 on, a thousand days or more
    inside the range of time values. *)
Definition ordinaryClock (now : Z) : Prop :=
  0 <= LocalTime now /\ Z.abs now <= maxTime - 1000 * msPerDay.

(** [t] is the instant at which local clocks show 00:00:00.000 on day
    [D] of month [M] (1 = January) of year [y]. *)
Definition isLocalMidnightOf (t y M D : Z) : Prop :=
  getFullYear t = y /\ getMonth t = M - 1 /\ getDate t = D /\
  TimeWithinDay (LocalTime t) = 0.

(** The time value of 00:00 local time on day [D] of month [M] of year
    [y], as [MakeDay] counts it also for a day that overflows the month. *)
Definition midnight (y M D : Z) : Z := UTC (MakeDate (MakeDay y (M - 1) D) 0).

End Clock.

(** ** The vocabulary of further properties *)

(** [MatchesC r w cs cs']: the pattern [r] describes the text [w], and
    a match of [w] that starts with the captures [cs] ends with [cs']. *)
Inductive MatchesC : regex -> str -> captures -> captures -> Prop :=
| MC_Eps (cs : captures) : MatchesC Eps [] cs cs
| MC_Lit (p : str) (cs : captures) : MatchesC (Lit p) p cs cs
| MC_Cls (p : char -> bool) (c : char) (cs : captures) :
    p c = true -> MatchesC (Cls p) [c] cs cs
| MC_Seq (r1 r2 : regex) (w1 w2 : str) (cs c1 c2 : captures) :
    MatchesC r1 w1 cs c1 -> MatchesC r2 w2 c1 c2 ->
    MatchesC (Seq r1 r2) (w1 ++ w2) cs c2
| MC_AltL (r1 r2 : regex) (w : str) (cs c1 : captures) :
    MatchesC r1 w cs c1 -> MatchesC (Alt r1 r2) w cs c1
| MC_AltR (r1 r2 : regex) (w : str) (cs c1 : captures) :
    MatchesC r2 w cs c1 -> MatchesC (Alt r1 r2) w cs c1
| MC_OptNone (r : regex) (cs : captures) : MatchesC (Opt r) [] cs cs
| MC_OptSome (r : regex) (w : str) (cs c1 : captures) :
    MatchesC r w cs c1 -> MatchesC (Opt r) w cs c1
| MC_Rep (g : bool) (lo : nat) (hi : option nat) (p : char -> bool)
    (w : str) (cs : captures) :
    forallb p w = true -> (lo <= length w)%nat ->
    (forall h, hi = Some h -> (length w <= h)%nat) ->
    MatchesC (Rep g lo hi p) w cs cs
| MC_Grp (i : nat) (r : regex) (w : str) (cs c1 : captures) :
    MatchesC r w cs c1 -> MatchesC (Grp i r) w cs ((i, w) :: c1).

(** Every call of the program satisfies [ok]; it ends with an exception
    or with a value that satisfies [P]. *)
Inductive Calls {A : Type} (ok : forall X : Type, Call X -> Prop)
    (P : A -> Prop) : Prog A -> Prop :=
| Calls_Ret (a : A) : P a -> Calls ok P (Ret a)
| Calls_Throw (e : JsError) : Calls ok P (Throw e)
| Calls_Vis (X : Type) (c : Call X) (k : X -> Prog A) :
    ok X c -> (forall x, Calls ok P (k x)) -> Calls ok P (Vis c k).

(** The same, and the program never ends with an exception. *)
Inductive CallsAndReturns {A : Type} (ok : forall X : Type, Call X -> Prop)
    (P : A -> Prop) : Prog A -> Prop :=
| CR_Ret (a : A) : P a -> CallsAndReturns ok P (Ret a)
| CR_Vis (X : Type) (c : Call X) (k : X -> Prog A) :
    ok X c -> (forall x, CallsAndReturns ok P (k x)) ->
    CallsAndReturns ok P (Vis c k).

Definition notGemini (X : Type) (c : Call X) : Prop :=
  match c with
  | GeminiChat _ _ _ => False
  | _ => True
  end.

(** A call that writes to a store. *)
Definition isInsert (X : Type) (c : Call X) : Prop :=
  match c with
  | InsertTodo _ | InsertEvent _ | InsertMemo _ => True
  | _ => False
  end.

Definition notInsert (X : Type) (c : Call X) : Prop := ~ isInsert X c.

(** A text that does not begin and does not end with white space. *)
Definition trimmed (s : str) : Prop :=
  (forall c r, s = c :: r -> isSpace c = false) /\
  (forall r c, s = r ++ [c] -> isSpace c = false).

(** [t] stands in [message] between two quote characters, is not empty
    and has no line break. *)
Definition quotedIn (t message : str) : Prop :=
  exists pre q1 q2 post,
    message = pre ++ q1 :: t ++ q2 :: post /\
    isQuote q1 = true /\ isQuote q2 = true /\
    t <> [] /\ forallb dot t = true.

(** The commands that [executeCommand] has a branch for. *)
Definition implemented (c : ParsedCommand) : bool :=
  match action c, entity c with
  | Add, Some _ => true
  | List, Some Event | List, Some Todo => true
  | _, _ => false
  end.

(** The line of one event in the list of events; [None] when its start
    date is invalid. *)
Definition eventLine {host : Host} (e : CalendarEvent.t) : option str :=
  match CalendarEvent.startDate e with
  | DateAt t =>
    Some (js "• " ++ CalendarEvent.title e ++ js " - "
          ++ concat (map (formatToken t) fmtEventLine) ++ nl)
  | InvalidDate => None
  end.

(** The calls that [createMemo] makes after an insert that is answered
    without an error: none when the answer has no row or its row has an
    [updated_at], one reading of the clock otherwise. *)
Definition stampCalls (answered : option MemoRow.t) : list Performed :=
  match answered with
  | Some row =>
    match MemoRow.updated_at row with
    | Some s => if truthy s then [] else [Called NewDate]
    | None => [Called NewDate]
    end
  | None => []
  end.

(** [error.message?.includes('404')] *)
Definition mentions404 (e : JsError) : bool :=
  match message e with
  | Some m => includes (js "404") m
  | None => false
  end.

(** What a task has of its row: the id and the title; the value of the
    row for each text that the row has; 대기, 기타, 중 and 나 for a
    status, project, priority and assignee that is null or empty, so
    that these are never empty; deleted only if the row says so. *)
Definition readsRow (row : TodoRow.t) (t : TodoItem.t) : Prop :=
  TodoItem.id t = TodoRow.id row /\
  TodoItem.title t = TodoRow.title row /\
  TodoItem.status t <> [] /\ TodoItem.project t <> [] /\
  TodoItem.priority t <> [] /\ TodoItem.assignee t <> [] /\
  (forall s, s <> [] ->
     (TodoRow.status row = Some s -> TodoItem.status t = s) /\
     (TodoRow.project row = Some s -> TodoItem.project t = s) /\
     (TodoRow.priority row = Some s -> TodoItem.priority t = s) /\
     (TodoRow.assignee row = Some s -> TodoItem.assignee t = s) /\
     (TodoRow.due_date row = Some s -> TodoItem.dueDate t = s) /\
     (TodoRow.description row = Some s -> TodoItem.description t = s)) /\
  (TodoRow.status row = None \/ TodoRow.status row = Some [] ->
   TodoItem.status t = js "대기") /\
  (TodoRow.project row = None \/ TodoRow.project row = Some [] ->
   TodoItem.project t = js "기타") /\
  (TodoRow.priority row = None \/ TodoRow.priority row = Some [] ->
   TodoItem.priority t = js "중") /\
  (TodoRow.assignee row = None \/ TodoRow.assignee row = Some [] ->
   TodoItem.assignee t = js "나") /\
  (TodoItem.isDeleted t = true <-> TodoRow.is_deleted row = Some true).

(* ================================================================== *)
(** * Part II. Properties *)
(* ================================================================== *)

(** ** Calendar arithmetic *)

Lemma DayFromYear_succ y : DayFromYear (y + 1) = DayFromYear y + DaysInYear y.
Proof.
  unfold DayFromYear, DaysInYear, isLeap.
  destruct (y mod 4 =? 0) eqn:E4; destruct (y mod 100 =? 0) eqn:E100;
    destruct (y mod 400 =? 0) eqn:E400; cbn [andb orb negb];
    rewrite ?Z.eqb_eq, ?Z.eqb_neq in *;
    Z.div_mod_to_equations; lia.
Qed.

Lemma DayFromYear_lt a b : a < b -> DayFromYear a < DayFromYear b.
Proof. unfold DayFromYear. intros. Z.div_mod_to_equations. lia. Qed.

Lemma YearFromDay_spec d :
  DayFromYear (YearFromDay d) <= d < DayFromYear (YearFromDay d + 1).
Proof.
  unfold YearFromDay.
  set (y := 1970 + 400 * d / 146097).
  destruct (d <? DayFromYear y) eqn:E1;
    [apply Z.ltb_lt in E1 | apply Z.ltb_ge in E1].
  - split; [| replace (y - 1 + 1) with y by lia; exact E1].
    subst y. unfold DayFromYear in *. Z.div_mod_to_equations. lia.
  - destruct (DayFromYear (y + 1) <=? d) eqn:E2;
      [apply Z.leb_le in E2 | apply Z.leb_gt in E2].
    + split; [exact E2|].
      subst y. unfold DayFromYear in *. Z.div_mod_to_equations. lia.
    + lia.
Qed.

Lemma YearFromDay_unique y d :
  DayFromYear y <= d < DayFromYear (y + 1) -> YearFromDay d = y.
Proof.
  intros H. pose proof (YearFromDay_spec d) as S.
  destruct (Z.lt_trichotomy (YearFromDay d) y) as [L | [E | G]]; [| exact E |].
  - assert (DayFromYear (YearFromDay d + 1) <= DayFromYear y).
    { destruct (Z.eq_dec (YearFromDay d + 1) y) as [-> | N]; [lia|].
      apply Z.lt_le_incl, DayFromYear_lt. lia. }
    lia.
  - assert (DayFromYear (y + 1) <= DayFromYear (YearFromDay d)).
    { destruct (Z.eq_dec (y + 1) (YearFromDay d)) as [-> | N]; [lia|].
      apply Z.lt_le_incl, DayFromYear_lt. lia. }
    lia.
Qed.

Ltac split_ltb :=
  repeat match goal with
         | |- context [?a <? ?b] => destruct (Z.ltb_spec a b)
         end.

Lemma monthOfYearDay_range leap d : 0 <= monthOfYearDay leap d <= 11.
Proof. unfold monthOfYearDay. split_ltb; lia. Qed.

Ltac month_cases m :=
  let H := fresh in
  assert (H : m = 0 \/ m = 1 \/ m = 2 \/ m = 3 \/ m = 4 \/ m = 5 \/ m = 6
              \/ m = 7 \/ m = 8 \/ m = 9 \/ m = 10 \/ m = 11) by lia;
  repeat destruct H as [H | H]; subst m.

Lemma daysBeforeMonth_bounds leap m d :
  0 <= m <= 11 -> 1 <= d <= monthLength leap m ->
  0 <= daysBeforeMonth leap m + d - 1 < (if leap then 366 else 365).
Proof.
  intros Hm Hd.
  month_cases m; destruct leap; cbv [daysBeforeMonth monthLength] in *; lia.
Qed.

Lemma monthOfYearDay_inv leap m d :
  0 <= m <= 11 -> 1 <= d <= monthLength leap m ->
  monthOfYearDay leap (daysBeforeMonth leap m + d - 1) = m.
Proof.
  intros Hm Hd. unfold monthOfYearDay.
  month_cases m; destruct leap; cbv [daysBeforeMonth monthLength] in *;
    split_ltb; lia.
Qed.

Lemma Day_MakeDate n tod :
  0 <= tod < msPerDay ->
  Day (MakeDate n tod) = n /\ TimeWithinDay (MakeDate n tod) = tod.
Proof.
  unfold Day, TimeWithinDay, MakeDate, msPerDay. intros.
  Z.div_mod_to_equations. lia.
Qed.

Lemma MakeDay_valid y m d :
  0 <= m <= 11 ->
  MakeDay y m d = DayFromYear y + daysBeforeMonth (isLeap y) m + d - 1.
Proof.
  intros Hm. unfold MakeDay.
  replace (m / 12) with 0 by (Z.div_mod_to_equations; lia).
  replace (m mod 12) with m by (Z.div_mod_to_equations; lia).
  now rewrite Z.add_0_r.
Qed.

(** The fields of a date built from a year, a month and a day that
    exist are that year, month and day. *)
Lemma fields_of_MakeDay y m d tod :
  validDate y m d -> 0 <= tod < msPerDay ->
  let t := MakeDate (MakeDay y m d) tod in
  YearFromTime t = y /\ MonthFromTime t = m /\ DateFromTime t = d.
Proof.
  intros [Hm Hd] Ht t.
  destruct (Day_MakeDate (MakeDay y m d) tod Ht) as [HD _]. fold t in HD.
  unfold DaysInMonth in Hd.
  pose proof (daysBeforeMonth_bounds (isLeap y) m d Hm Hd) as B.
  assert (HY : YearFromTime t = y).
  { unfold YearFromTime. rewrite HD. apply YearFromDay_unique.
    rewrite DayFromYear_succ, MakeDay_valid by exact Hm.
    unfold DaysInYear. destruct (isLeap y); lia. }
  assert (HW : DayWithinYear t = daysBeforeMonth (isLeap y) m + d - 1).
  { unfold DayWithinYear. rewrite HY, HD, MakeDay_valid by exact Hm. lia. }
  assert (HM : MonthFromTime t = m).
  { unfold MonthFromTime, InLeapYear. rewrite HY, HW.
    now apply monthOfYearDay_inv. }
  repeat split; [exact HY | exact HM |].
  unfold DateFromTime, InLeapYear. rewrite HM, HY, HW. lia.
Qed.

(** Conversely, the day number of a time is rebuilt from its fields,
    also when the day of the month is shifted. *)
Lemma MakeDay_of_fields t k :
  MakeDay (YearFromTime t) (MonthFromTime t) (DateFromTime t + k) = Day t + k.
Proof.
  rewrite MakeDay_valid by apply monthOfYearDay_range.
  unfold DateFromTime, DayWithinYear, InLeapYear. lia.
Qed.

Lemma TimeWithinDay_range t : 0 <= TimeWithinDay t < msPerDay.
Proof. unfold TimeWithinDay, msPerDay. Z.div_mod_to_equations. lia. Qed.

Lemma Day_split t : t = MakeDate (Day t) (TimeWithinDay t).
Proof.
  unfold MakeDate, Day, TimeWithinDay, msPerDay. Z.div_mod_to_equations. lia.
Qed.

(** ** Date objects *)

Section DateFacts.

Context {host : Host}.

Lemma LocalTime_UTC t : LocalTime (UTC t) = t.
Proof. unfold LocalTime, UTC. lia. Qed.

Lemma TimeClip_in_range t : Z.abs t <= maxTime -> TimeClip t = DateAt t.
Proof. unfold TimeClip. intros H. apply Z.leb_le in H. now rewrite H. Qed.

(** Adding days shifts the time value by whole days. *)
Lemma addDays_shift t n :
  Z.abs (t + n * msPerDay) <= maxTime ->
  addDays (DateAt t) n = DateAt (t + n * msPerDay).
Proof.
  intros R. unfold addDays.
  destruct (Z.eqb_spec n 0) as [-> | N]; [f_equal; lia|].
  unfold setDate, getDate. rewrite MakeDay_of_fields.
  rewrite <- TimeClip_in_range by exact R. f_equal.
  pose proof (Day_split (LocalTime t)) as S.
  unfold MakeDate, UTC, LocalTime in *. lia.
Qed.

Lemma getDay_shift t n : getDay (t + n * msPerDay) = (getDay t + n) mod 7.
Proof.
  unfold getDay, WeekDay, LocalTime, Day.
  replace (t + n * msPerDay + LocalTZA) with (t + LocalTZA + n * msPerDay) by lia.
  rewrite Z.div_add by (unfold msPerDay; lia).
  rewrite Zplus_mod_idemp_l. f_equal. lia.
Qed.

Lemma getDay_range t : 0 <= getDay t < 7.
Proof. unfold getDay, WeekDay. apply Z.mod_pos_bound. lia. Qed.

(** [nextDay] lands on the wanted weekday, one to seven days ahead, and
    on no day of that name in between. *)
Lemma nextDay_spec t day :
  0 <= day < 7 -> - maxTime <= t <= maxTime - 7 * msPerDay ->
  exists delta,
    1 <= delta <= 7 /\
    nextDay t day = DateAt (t + delta * msPerDay) /\
    getDay (t + delta * msPerDay) = day /\
    (getDay t = day -> delta = 7) /\
    (forall j, 1 <= j < delta -> getDay (t + j * msPerDay) <> day).
Proof.
  intros Hd R. pose proof (getDay_range t) as G. unfold nextDay.
  set (delta := if day - getDay t <=? 0 then day - getDay t + 7 else day - getDay t).
  assert (B : 1 <= delta <= 7 /\ (delta = day - getDay t \/ delta = day - getDay t + 7)).
  { subst delta. destruct (Z.leb_spec (day - getDay t) 0); lia. }
  destruct B as [B E]. exists delta. split; [exact B|]. split.
  { apply addDays_shift. unfold maxTime, msPerDay in *. lia. }
  split.
  { rewrite getDay_shift.
    destruct E as [-> | ->].
    - replace (getDay t + (day - getDay t)) with day by lia.
      now apply Z.mod_small.
    - replace (getDay t + (day - getDay t + 7)) with (day + 1 * 7) by lia.
      rewrite Z.mod_add by lia. now apply Z.mod_small. }
  split; [lia|].
  intros j Hj. rewrite getDay_shift. intros C.
  destruct (Z.ltb_spec (getDay t + j) 7) as [L | L].
  - rewrite Z.mod_small in C by lia. lia.
  - replace (getDay t + j) with (getDay t + j - 7 + 1 * 7) in C by lia.
    rewrite Z.mod_add in C by lia. rewrite Z.mod_small in C by lia. lia.
Qed.

End DateFacts.

(** ** parseKoreanDate: weekday names *)

Lemma find_first {A : Type} (f : A -> bool) (before after : list A) (x : A) :
  Forall (fun e => f e = false) before -> f x = true ->
  find f (before ++ x :: after) = Some x.
Proof.
  induction 1 as [| e l He _ IH]; intros Hx; cbn.
  - now rewrite Hx.
  - rewrite He. now apply IH.
Qed.

Lemma dayMap_days name day : In (name, day) dayMap -> 0 <= day < 7.
Proof.
  unfold dayMap. cbn [In]. intros H.
  repeat destruct H as [H | H]; try (inversion H; lia); contradiction.
Qed.

Section Weekdays.

Context {host : Host}.

(** C5 (corrected): when the lower-cased input has none of 오늘, 내일,
    모레, and [name] is the first weekday name in the order Monday to
    Sunday that it includes, parseKoreanDate returns the clock reading
    moved forward by one to seven whole days, to the next day of that
    name strictly after today: seven days ahead when today has that
    name, and no day of that name lies in between. *)
Theorem C5_first_weekday_next_occurrence (now : Z) (text name : str) (day : Z) :
  - maxTime <= now <= maxTime - 7 * msPerDay ->
  noLiteralDay (toLowerCase text) ->
  firstWeekday (toLowerCase text) name day ->
  exists delta,
    1 <= delta <= 7 /\
    parseKoreanDate now text = Some (DateAt (now + delta * msPerDay)) /\
    getDay (now + delta * msPerDay) = day /\
    (getDay now = day -> delta = 7) /\
    (forall j, 1 <= j < delta -> getDay (now + j * msPerDay) <> day).
Proof.
  intros R (H1 & H2 & H3) (before & after & Hmap & Hbefore & Hname).
  assert (Hday : 0 <= day < 7).
  { apply (dayMap_days name). rewrite Hmap. apply in_elt. }
  destruct (nextDay_spec now day Hday R) as (delta & B & Hn & Hw & H7 & Hmin).
  exists delta. repeat split; try tauto; try lia.
  unfold parseKoreanDate. rewrite H1, H2, H3, Hmap.
  rewrite (find_first (fun e => includes (fst e) (toLowerCase text))
             before after (name, day) Hbefore Hname).
  now rewrite Hn.
Qed.

End Weekdays.

(** On Tuesday 3 November 2026, 10:00 in Seoul, "금요일" gives Friday
    6 November, 10:00. *)
Lemma C5_first_weekday_witness :
  exists delta,
    1 <= delta <= 7 /\
    @parseKoreanDate seoul (seoulTime 2026 10 3 10 0) (js "금요일까지 보고서")
      = Some (DateAt (seoulTime 2026 10 3 10 0 + delta * msPerDay)) /\
    @getDay seoul (seoulTime 2026 10 3 10 0 + delta * msPerDay) = 5 /\
    (@getDay seoul (seoulTime 2026 10 3 10 0) = 5 -> delta = 7) /\
    (forall j, 1 <= j < delta ->
       @getDay seoul (seoulTime 2026 10 3 10 0 + j * msPerDay) <> 5).
Proof.
  apply (@C5_first_weekday_next_occurrence seoul _ _ (js "금요일") 5).
  - vm_compute. split; discriminate.
  - repeat split; vm_compute; reflexivity.
  - exists (firstn 4 dayMap), (skipn 5 dayMap).
    split; [reflexivity|]. split; [| vm_compute; reflexivity].
    repeat constructor.
Defined.

(** C5 as the specification words it fails on an input with two
    weekday names: "월요일이나 금요일" includes 금요일 and none of 오늘,
    내일, 모레, yet on Tuesday 3 November 2026 the result is Monday
    9 November, not a Friday. *)
Lemma C5_counterexample_two_weekdays :
  let now := seoulTime 2026 10 3 10 0 in
  let text := js "월요일이나 금요일" in
  includes (js "금요일") (@toLowerCase seoul text) = true /\
  noLiteralDay (@toLowerCase seoul text) /\
  @parseKoreanDate seoul now text = Some (DateAt (seoulTime 2026 10 9 10 0)) /\
  @getDay seoul (seoulTime 2026 10 9 10 0) = 1.
Proof. vm_compute. repeat split; reflexivity. Qed.

(** ** parseKoreanDate: a month and a day *)

Lemma monthOfYearDay_spec (leap : bool) d :
  0 <= d < (if leap then 366 else 365) ->
  let m := monthOfYearDay leap d in
  daysBeforeMonth leap m <= d < daysBeforeMonth leap m + monthLength leap m.
Proof.
  intros Hd. unfold monthOfYearDay.
  destruct leap; cbv [daysBeforeMonth monthLength] in *; split_ltb;
    cbv [daysBeforeMonth monthLength]; lia.
Qed.

Lemma DayWithinYear_range t :
  0 <= DayWithinYear t < (if InLeapYear t then 366 else 365).
Proof.
  unfold DayWithinYear, InLeapYear, YearFromTime.
  pose proof (YearFromDay_spec (Day t)) as S.
  rewrite DayFromYear_succ in S. unfold DaysInYear in S.
  destruct (isLeap (YearFromDay (Day t))); lia.
Qed.

(** The year, month and day of a time always form a date that exists. *)
Lemma fields_valid t :
  validDate (YearFromTime t) (MonthFromTime t) (DateFromTime t).
Proof.
  split; [apply monthOfYearDay_range|].
  pose proof (monthOfYearDay_spec (InLeapYear t) (DayWithinYear t)
                (DayWithinYear_range t)) as S. cbv zeta in S.
  unfold DateFromTime, DaysInMonth, MonthFromTime. fold (InLeapYear t). lia.
Qed.

Lemma YearFromTime_epoch t : 0 <= t -> 1970 <= YearFromTime t.
Proof.
  intros Ht. unfold YearFromTime.
  pose proof (YearFromDay_spec (Day t)) as S.
  assert (0 <= Day t) by (unfold Day, msPerDay; Z.div_mod_to_equations; lia).
  destruct (Z.le_gt_cases 1970 (YearFromDay (Day t))) as [L | G]; [exact L|].
  assert (DayFromYear (YearFromDay (Day t) + 1) <= DayFromYear 1970).
  { destruct (Z.eq_dec (YearFromDay (Day t) + 1) 1970) as [-> | N]; [lia|].
    apply Z.lt_le_incl, DayFromYear_lt. lia. }
  change (DayFromYear 1970) with 0 in *. lia.
Qed.

Lemma MakeDay_in_year y m d :
  validDate y m d -> DayFromYear y <= MakeDay y m d < DayFromYear y + 366.
Proof.
  intros [Hm Hd]. rewrite MakeDay_valid by exact Hm.
  pose proof (daysBeforeMonth_bounds (isLeap y) m d Hm Hd).
  destruct (isLeap y); lia.
Qed.

Lemma MakeDay_next_year y m d :
  validDate y m d ->
  DayFromYear y <= MakeDay (y + 1) m d < DayFromYear y + 800.
Proof.
  intros [Hm Hd]. rewrite MakeDay_valid by exact Hm.
  rewrite DayFromYear_succ. unfold DaysInYear, DaysInMonth in *.
  month_cases m; destruct (isLeap y); destruct (isLeap (y + 1));
    cbv [daysBeforeMonth monthLength] in *; lia.
Qed.

Lemma leap_not_next y : isLeap y = true -> isLeap (y + 1) = false.
Proof.
  unfold isLeap. intros H. apply andb_true_iff in H. destruct H as [H _].
  apply Z.eqb_eq in H. apply andb_false_iff. left. apply Z.eqb_neq.
  Z.div_mod_to_equations. lia.
Qed.

Lemma validDate_next_year y m d :
  validDate y m d -> (m, d) <> (1, 29) -> validDate (y + 1) m d.
Proof.
  unfold validDate, DaysInMonth. intros [Hm Hd] N. split; [exact Hm|].
  month_cases m; destruct (isLeap y); destruct (isLeap (y + 1));
    cbv [monthLength] in *; try lia.
  all: assert (d <> 29) by (intros ->; now apply N); lia.
Qed.

Lemma MakeDay_leap_day y :
  isLeap y = false -> MakeDay y 1 29 = MakeDay y 2 1.
Proof.
  intros H. rewrite !MakeDay_valid by lia. rewrite H.
  cbv [daysBeforeMonth]. lia.
Qed.

Lemma monthDayInputb_sound lowerText M D :
  monthDayInputb lowerText M D = true -> monthDayInput lowerText M D.
Proof.
  unfold monthDayInputb, monthDayInput, noLiteralDay, isNone, readsAs.
  rewrite !andb_true_iff, !negb_true_iff.
  intros ((((((A & B) & C) & E) & F) & G) & H).
  destruct (find _ dayMap); [discriminate|].
  destruct (jsMatch lowerText daysLaterRe); [discriminate|].
  destruct (jsMatch lowerText weeksLaterRe); [discriminate|].
  destruct (jsMatch lowerText monthDayRe) as [m |]; [| discriminate].
  apply andb_true_iff in H. destruct H as [H1 H2].
  repeat split; try assumption.
  exists m. split; [reflexivity|].
  destruct (parseIntOf (capture m 1)); [| discriminate].
  destruct (parseIntOf (capture m 2)); [| discriminate].
  apply Z.eqb_eq in H1, H2. now subst.
Qed.

(** Every 'M월 D일' written in figures, for a month from 1 to 12 and a
    day from 1 to 31, is an input of the month-and-day branch. *)
Lemma monthDayText_input M D :
  1 <= M <= 12 -> 1 <= D <= 31 -> monthDayInput (monthDayText M D) M D.
Proof.
  intros HM HD. apply monthDayInputb_sound.
  assert (All : forallb (fun m => forallb (fun d =>
              monthDayInputb (monthDayText (Z.of_nat m) (Z.of_nat d))
                             (Z.of_nat m) (Z.of_nat d))
              (seq 1 31)) (seq 1 12) = true) by (vm_compute; reflexivity).
  rewrite forallb_forall in All.
  specialize (All (Z.to_nat M)). rewrite forallb_forall in All.
  specialize (All ltac:(apply in_seq; lia) (Z.to_nat D) ltac:(apply in_seq; lia)).
  now rewrite !Z2Nat.id in All by lia.
Qed.

Section MonthDay.

Context {host : Host}.

Lemma isLocalMidnightOf_unique t y M D :
  isLocalMidnightOf t y M D -> t = midnight y M D /\ validDate y (M - 1) D.
Proof.
  unfold isLocalMidnightOf, getFullYear, getMonth, getDate.
  intros (Hy & Hm & Hd & H0).
  pose proof (MakeDay_of_fields (LocalTime t) 0) as F.
  pose proof (fields_valid (LocalTime t)) as V.
  pose proof (Day_split (LocalTime t)) as S.
  rewrite Hy, Hm, Hd in *. rewrite H0 in S.
  split; [| exact V].
  unfold midnight. rewrite !Z.add_0_r in F. rewrite F, <- S.
  unfold UTC, LocalTime. lia.
Qed.

Lemma midnight_fields y M D :
  validDate y (M - 1) D -> isLocalMidnightOf (midnight y M D) y M D.
Proof.
  intros V. unfold isLocalMidnightOf, getFullYear, getMonth, getDate, midnight.
  rewrite LocalTime_UTC.
  assert (T : 0 <= 0 < msPerDay) by (unfold msPerDay; lia).
  destruct (fields_of_MakeDay y (M - 1) D 0 V T) as (A & B & C).
  destruct (Day_MakeDate (MakeDay y (M - 1) D) 0 T) as [_ E].
  tauto.
Qed.

Lemma clock_day_in_year now :
  let y := getFullYear now in
  DayFromYear y <= Day (LocalTime now) < DayFromYear y + 366.
Proof.
  cbv zeta. unfold getFullYear, YearFromTime.
  pose proof (YearFromDay_spec (Day (LocalTime now))) as S.
  rewrite DayFromYear_succ in S. unfold DaysInYear in S.
  destruct (isLeap (YearFromDay (Day (LocalTime now)))); lia.
Qed.

Lemma midnight_near now M D :
  ordinaryClock now -> validDate (getFullYear now) (M - 1) D ->
  Z.abs (midnight (getFullYear now) M D) <= maxTime /\
  Z.abs (midnight (getFullYear now + 1) M D) <= maxTime.
Proof.
  intros [H0 HR] V.
  pose proof (clock_day_in_year now) as C. cbv zeta in C.
  pose proof (MakeDay_in_year _ _ _ V) as A.
  pose proof (MakeDay_next_year _ _ _ V) as B.
  pose proof (Day_split (LocalTime now)) as S.
  pose proof (TimeWithinDay_range (LocalTime now)) as W.
  unfold midnight, UTC, MakeDate, LocalTime, maxTime, msPerDay in *.
  lia.
Qed.

Lemma newDate_midnight y M D :
  (0 <=? y) && (y <=? 99) = false ->
  newDate y (M - 1) D = TimeClip (midnight y M D).
Proof. intros Q. unfold newDate. rewrite Q. reflexivity. Qed.

Lemma setFullYear_fields t y :
  setFullYear t y =
  TimeClip (UTC (MakeDate (MakeDay y (getMonth t) (getDate t))
                          (TimeWithinDay (LocalTime t)))).
Proof. reflexivity. Qed.

Lemma setFullYear_midnight t y y' M D :
  isLocalMidnightOf t y M D -> setFullYear t y' = TimeClip (midnight y' M D).
Proof.
  intros (_ & B & C & E). rewrite setFullYear_fields, B, C, E. reflexivity.
Qed.

(** What the month-and-day branch computes, for a month and a day that
    exist in the current year. *)
Lemma monthDayDate_value now m M D :
  ordinaryClock now ->
  parseIntOf (capture m 1) = Some M -> parseIntOf (capture m 2) = Some D ->
  validDate (getFullYear now) (M - 1) D ->
  monthDayDate now m =
    DateAt (if midnight (getFullYear now) M D <? now
            then midnight (getFullYear now + 1) M D
            else midnight (getFullYear now) M D).
Proof.
  intros HC H1 H2 V. destruct (midnight_near now M D HC V) as [R0 R1].
  pose proof (midnight_fields _ _ _ V) as F.
  assert (Y : 1970 <= getFullYear now)
    by (apply YearFromTime_epoch; apply HC).
  assert (Q : (0 <=? getFullYear now) && (getFullYear now <=? 99) = false)
    by (apply andb_false_iff; right; apply Z.leb_gt; lia).
  unfold monthDayDate. rewrite H1, H2. cbn [option_map newDateOf].
  rewrite (newDate_midnight _ _ _ Q), (TimeClip_in_range _ R0).
  destruct (_ <? now); [| reflexivity].
  rewrite (setFullYear_midnight _ _ _ _ _ F).
  destruct F as [-> _].
  exact (TimeClip_in_range _ R1).
Qed.

Lemma parseKoreanDate_monthDay now text M D :
  monthDayInput (toLowerCase text) M D ->
  exists m, parseKoreanDate now text = Some (monthDayDate now m) /\
            parseIntOf (capture m 1) = Some M /\
            parseIntOf (capture m 2) = Some D.
Proof.
  intros ((H1 & H2 & H3) & Hw & Hd & Hk & m & Hm & HM & HD).
  exists m. split; [| tauto].
  unfold parseKoreanDate. now rewrite H1, H2, H3, Hw, Hd, Hk, Hm.
Qed.

(** The day that [setFullYear] reaches from 00:00 of an existing month
    [M], day [D] of year [y]: the same day of the next year, or 1 March
    when that day is 29 February. *)
Lemma midnight_next_year y M D :
  validDate y (M - 1) D ->
  ((M, D) <> (2, 29) -> isLocalMidnightOf (midnight (y + 1) M D) (y + 1) M D) /\
  ((M, D) = (2, 29) -> isLocalMidnightOf (midnight (y + 1) M D) (y + 1) 3 1).
Proof.
  intros V. split.
  - intros N. apply midnight_fields. apply validDate_next_year; [exact V|].
    intros E. apply N. inversion E. f_equal; lia.
  - intros E. inversion E; subst M D.
    assert (Leap : isLeap y = true).
    { destruct V as [_ V]. unfold DaysInMonth in V. cbn in V.
      destruct (isLeap y); [reflexivity | lia]. }
    apply leap_not_next in Leap.
    replace (midnight (y + 1) 2 29) with (midnight (y + 1) 3 1).
    + apply midnight_fields. split; [lia|]. unfold DaysInMonth. cbn. lia.
    + unfold midnight. cbn [Z.sub Z.add Z.opp Z.pos_sub Pos.pred_double].
      now rewrite (MakeDay_leap_day _ Leap).
Qed.

(** C4 (corrected): the input has the form 'M월 D일', no earlier date
    pattern matches, and month M, day D exists in the current year, at
    00:00 of which is the instant [t0].  When [t0] is after the call,
    [t0] is returned.  When [t0] is before the call, 00:00 of month M,
    day D of the next year is returned - of 1 March of the next year
    when the day is 29 February, which the next year lacks. *)
Theorem C4_month_day_rollover (now : Z) (text : str) (M D t0 : Z) :
  ordinaryClock now ->
  monthDayInput (toLowerCase text) M D ->
  isLocalMidnightOf t0 (getFullYear now) M D ->
  (now < t0 -> parseKoreanDate now text = Some (DateAt t0)) /\
  (t0 < now ->
   exists r,
     parseKoreanDate now text = Some (DateAt r) /\
     ((M, D) <> (2, 29) -> isLocalMidnightOf r (getFullYear now + 1) M D) /\
     ((M, D) = (2, 29) -> isLocalMidnightOf r (getFullYear now + 1) 3 1)).
Proof.
  intros HC HI H0.
  destruct (isLocalMidnightOf_unique _ _ _ _ H0) as [-> V].
  destruct (parseKoreanDate_monthDay now text M D HI) as (m & -> & H1 & H2).
  rewrite (monthDayDate_value now m M D HC H1 H2 V).
  split.
  - intros L. apply Z.lt_asymm, Z.ltb_nlt in L. now rewrite L.
  - intros L. apply Z.ltb_lt in L. rewrite L.
    exists (midnight (getFullYear now + 1) M D).
    split; [reflexivity | now apply midnight_next_year].
Qed.

End MonthDay.

(** On 3 November 2026, 10:00 in Seoul, "12월 25일" is 25 December
    2026, 00:00. *)
Lemma C4_month_day_rollover_witness :
  let now := seoulTime 2026 10 3 10 0 in
  let t0 := seoulTime 2026 11 25 0 0 in
  (now < t0 ->
   @parseKoreanDate seoul now (js "12월 25일 회의") = Some (DateAt t0)) /\
  (t0 < now ->
   exists r,
     @parseKoreanDate seoul now (js "12월 25일 회의") = Some (DateAt r) /\
     ((12, 25) <> (2, 29) ->
      @isLocalMidnightOf seoul r (@getFullYear seoul now + 1) 12 25) /\
     ((12, 25) = (2, 29) ->
      @isLocalMidnightOf seoul r (@getFullYear seoul now + 1) 3 1)).
Proof.
  apply (@C4_month_day_rollover seoul).
  - vm_compute. split; [discriminate | discriminate].
  - vm_compute. repeat split; try reflexivity.
    eexists. repeat split; reflexivity.
  - vm_compute. repeat split; reflexivity.
Defined.

(** C4 as the specification words it fails for 29 February: on
    15 June 2028 in Seoul, 29 February 2028 has passed, and "2월 29일"
    gives 1 March 2029, not a 29 February. *)
Lemma C4_counterexample_leap_day :
  let now := seoulTime 2028 5 15 12 0 in
  let text := js "2월 29일" in
  let r := seoulTime 2029 2 1 0 0 in
  @ordinaryClock seoul now /\
  monthDayInput (@toLowerCase seoul text) 2 29 /\
  @isLocalMidnightOf seoul (seoulTime 2028 1 29 0 0) (@getFullYear seoul now) 2 29 /\
  seoulTime 2028 1 29 0 0 < now /\
  @parseKoreanDate seoul now text = Some (DateAt r) /\
  @getFullYear seoul r = 2029 /\ @getMonth seoul r = 2 /\ @getDate seoul r = 1.
Proof.
  vm_compute. repeat split; try reflexivity; try discriminate.
  eexists. repeat split; reflexivity.
Qed.

(** ** parseKoreanDate: the day itself *)

Section SameDay.

Context {host : Host}.

Lemma midnight_today now :
  0 < TimeWithinDay (LocalTime now) ->
  midnight (getFullYear now) (getMonth now + 1) (getDate now) < now.
Proof.
  intros H. unfold midnight, getFullYear, getMonth, getDate.
  replace (MonthFromTime (LocalTime now) + 1 - 1)
    with (MonthFromTime (LocalTime now)) by lia.
  pose proof (MakeDay_of_fields (LocalTime now) 0) as F.
  rewrite !Z.add_0_r in F. rewrite F.
  pose proof (Day_split (LocalTime now)) as S.
  unfold UTC, MakeDate, LocalTime in *. lia.
Qed.

(** C8 (corrected): given 'M월 D일' on month M, day D itself, at any
    moment after 00:00, parseKoreanDate returns 00:00 of month M, day D
    of the next year; on 29 February, which the next year lacks, it
    returns 00:00 of 1 March of the next year. *)
Theorem C8_same_day_next_year (now : Z) (text : str) (M D : Z) :
  ordinaryClock now ->
  monthDayInput (toLowerCase text) M D ->
  getMonth now = M - 1 -> getDate now = D ->
  0 < TimeWithinDay (LocalTime now) ->
  exists r,
    parseKoreanDate now text = Some (DateAt r) /\
    ((M, D) <> (2, 29) -> isLocalMidnightOf r (getFullYear now + 1) M D) /\
    ((M, D) = (2, 29) -> isLocalMidnightOf r (getFullYear now + 1) 3 1).
Proof.
  intros HC HI Hm Hd Ht.
  assert (V : validDate (getFullYear now) (M - 1) D).
  { rewrite <- Hm, <- Hd. apply fields_valid. }
  assert (L : midnight (getFullYear now) M D < now).
  { pose proof (midnight_today now Ht) as P.
    rewrite Hm, Hd in P. now replace (M - 1 + 1) with M in P by lia. }
  destruct (parseKoreanDate_monthDay now text M D HI) as (m & -> & H1 & H2).
  rewrite (monthDayDate_value now m M D HC H1 H2 V).
  apply Z.ltb_lt in L. rewrite L.
  exists (midnight (getFullYear now + 1) M D).
  split; [reflexivity | now apply midnight_next_year].
Qed.

(** The comparison is strict: at 00:00:00.000 of the day itself the
    result is that very instant, in the current year. *)
Lemma at_midnight_same_year (now : Z) (text : str) (M D : Z) :
  ordinaryClock now ->
  monthDayInput (toLowerCase text) M D ->
  getMonth now = M - 1 -> getDate now = D ->
  TimeWithinDay (LocalTime now) = 0 ->
  parseKoreanDate now text = Some (DateAt now).
Proof.
  intros HC HI Hm Hd Ht.
  assert (H0 : isLocalMidnightOf now (getFullYear now) M D)
    by (repeat split; assumption).
  destruct (isLocalMidnightOf_unique _ _ _ _ H0) as [E V].
  destruct (parseKoreanDate_monthDay now text M D HI) as (m & -> & H1 & H2).
  rewrite (monthDayDate_value now m M D HC H1 H2 V), <- E.
  now rewrite Z.ltb_irrefl.
Qed.

End SameDay.

(** On 3 November 2026, 10:00 in Seoul, "11월 3일" is 3 November 2027. *)
Lemma C8_same_day_next_year_witness :
  let now := seoulTime 2026 10 3 10 0 in
  exists r,
    @parseKoreanDate seoul now (js "11월 3일 회의") = Some (DateAt r) /\
    ((11, 3) <> (2, 29) ->
     @isLocalMidnightOf seoul r (@getFullYear seoul now + 1) 11 3) /\
    ((11, 3) = (2, 29) ->
     @isLocalMidnightOf seoul r (@getFullYear seoul now + 1) 3 1).
Proof.
  apply (@C8_same_day_next_year seoul).
  - vm_compute. split; discriminate.
  - vm_compute. repeat split; try reflexivity.
    eexists. repeat split; reflexivity.
  - vm_compute. reflexivity.
  - vm_compute. reflexivity.
  - vm_compute. reflexivity.
Defined.

(** C8 as the specification words it fails on 29 February: at 10:00
    on 29 February 2028 in Seoul, "2월 29일" gives 1 March 2029; the
    next year has no 29 February. *)
Lemma C8_counterexample_leap_day :
  let now := seoulTime 2028 1 29 10 0 in
  let text := js "2월 29일" in
  let r := seoulTime 2029 2 1 0 0 in
  @ordinaryClock seoul now /\
  monthDayInput (@toLowerCase seoul text) 2 29 /\
  @getMonth seoul now = 2 - 1 /\ @getDate seoul now = 29 /\
  0 < TimeWithinDay (@LocalTime seoul now) /\
  @parseKoreanDate seoul now text = Some (DateAt r) /\
  @getFullYear seoul r = 2029 /\ @getMonth seoul r = 2 /\ @getDate seoul r = 1.
Proof.
  vm_compute. repeat split; try reflexivity; try discriminate.
  eexists. repeat split; reflexivity.
Qed.

(** ** parseCommand: action and entity *)

Lemma includesAny_mentions keywords s :
  includesAny keywords s = true <-> mentions keywords s.
Proof. unfold includesAny, mentions. apply existsb_exists. Qed.

Lemma includesAny_not_mentions keywords s :
  includesAny keywords s = false <-> ~ mentions keywords s.
Proof.
  rewrite <- includesAny_mentions. destruct (includesAny keywords s);
    split; intros; try reflexivity; try discriminate; tauto.
Qed.

Lemma detectAction_spec m a :
  ActionBySpec m a ->
  detectAction m = match a with Chat => None | _ => Some a end.
Proof.
  unfold detectAction.
  destruct 1;
    repeat match goal with
           | H : mentions _ _ |- _ => apply includesAny_mentions in H; rewrite H
           | H : ~ mentions _ _ |- _ =>
             apply includesAny_not_mentions in H; rewrite H
           end; reflexivity.
Qed.

Lemma detectEntity_spec m e : EntityBySpec m e -> detectEntity m = e.
Proof.
  unfold detectEntity.
  destruct 1;
    repeat match goal with
           | H : mentions _ _ |- _ => apply includesAny_mentions in H; rewrite H
           | H : ~ mentions _ _ |- _ =>
             apply includesAny_not_mentions in H; rewrite H
           end; reflexivity.
Qed.

Section Classification.

Context {host : Host}.

(** C3: parseCommand takes the action by the fixed precedence add, then
    delete, then list, else chat, on the keywords that occur in the
    lower-cased message; the entity is event, then todo, then memo, and
    is looked for only when the action is not chat; an action without an
    entity gives action chat and entity null. *)
Theorem C3_classification_precedence
    (now : Z) (message : str) (a : Action) (e : option Entity) :
  ActionBySpec (toLowerCase message) a ->
  EntityBySpec (toLowerCase message) e ->
  let c := parseCommand now message in
  match a, e with
  | Chat, _ | _, None => action c = Chat /\ entity c = None
  | _, Some _ => action c = a /\ entity c = e
  end.
Proof.
  intros Ha He. cbv zeta. unfold parseCommand.
  rewrite (detectAction_spec _ _ Ha).
  destruct a; try rewrite (detectEntity_spec _ _ He);
    destruct e; cbn; try (split; reflexivity).
  all: destruct (parseTime message), (parseKoreanDate now message);
    cbn; split; reflexivity.
Qed.

End Classification.

(** "회의 취소하고 새 일정 추가해줘" has a deletion and an addition
    keyword, and an event keyword: the action is add. *)
Lemma C3_classification_precedence_witness :
  let c := @parseCommand seoul (seoulTime 2026 10 3 10 0)
             (js "회의 취소하고 새 일정 추가해줘") in
  action c = Add /\ entity c = Some Event.
Proof.
  apply (@C3_classification_precedence seoul _ _ Add (Some Event)).
  - apply by_add. exists (js "추가"). split; [left; reflexivity | reflexivity].
  - apply by_event. exists (js "일정"). split; [left; reflexivity | reflexivity].
Defined.

(** ** parseCommand: totality and the no-match results *)

Lemma find_none_iff {A : Type} (f : A -> bool) (l : list A) :
  find f l = None <-> forall x, In x l -> f x = false.
Proof.
  split.
  - apply find_none.
  - induction l as [| x l IH]; intros H; [reflexivity|].
    cbn. rewrite (H x (or_introl eq_refl)). apply IH.
    intros y Hy. apply H. now right.
Qed.

Section Totality.

Context {host : Host}.

Lemma parseKoreanDate_none now text :
  parseKoreanDate now text = None <-> noDatePattern (toLowerCase text).
Proof.
  unfold parseKoreanDate, noDatePattern, noLiteralDay.
  set (lowerText := toLowerCase text).
  destruct (includes (js "오늘") lowerText);
    [split; [discriminate | intros ((A & _) & _); discriminate]|].
  destruct (includes (js "내일") lowerText);
    [split; [discriminate | intros ((_ & A & _) & _); discriminate]|].
  destruct (includes (js "모레") lowerText);
    [split; [discriminate | intros ((_ & _ & A) & _); discriminate]|].
  destruct (find _ dayMap) as [[name day] |] eqn:F.
  { split; [discriminate|]. intros (_ & W & _).
    apply find_some in F. destruct F as [I T]. cbn in T.
    rewrite (W name day I) in T. discriminate. }
  assert (W : forall name day, In (name, day) dayMap ->
                               includes name lowerText = false).
  { intros name day I.
    exact (proj1 (find_none_iff _ _) F (name, day) I). }
  destruct (jsMatch lowerText daysLaterRe);
    [split; [discriminate | intros (_ & _ & A & _); discriminate]|].
  destruct (jsMatch lowerText weeksLaterRe);
    [split; [discriminate | intros (_ & _ & _ & A & _); discriminate]|].
  destruct (jsMatch lowerText monthDayRe);
    [split; [discriminate | intros (_ & _ & _ & _ & A & _); discriminate]|].
  destruct (jsMatch lowerText fullDateRe);
    [split; [discriminate | intros (_ & _ & _ & _ & _ & A); discriminate]|].
  split; [| reflexivity]. intros _. repeat split; assumption.
Qed.

Lemma parseTime_none text : parseTime text = None <-> noTimePattern text.
Proof.
  unfold parseTime, noTimePattern.
  destruct (jsMatch text ampmRe);
    [split; [discriminate | intros (A & _); discriminate]|].
  destruct (jsMatch text timeRe);
    [split; [discriminate | intros (_ & A & _); discriminate]|].
  destruct (jsMatch text colonRe);
    [split; [discriminate | intros (_ & _ & A); discriminate]|].
  split; [| reflexivity]. intros _. repeat split; reflexivity.
Qed.

(** C10: parseCommand returns a ParsedCommand for every message and
    every clock reading (it is a total function, with no exception in
    its result type), and its originalMessage is the input as given;
    parseKoreanDate returns null exactly when no date pattern matches,
    and parseTime returns null exactly when no time pattern matches. *)
Theorem C10_total_and_null_on_no_match (now : Z) (message : str) :
  (exists c, parseCommand now message = c /\ originalMessage c = message) /\
  (parseKoreanDate now message = None
   <-> noDatePattern (toLowerCase message)) /\
  (parseTime message = None <-> noTimePattern message).
Proof.
  split; [| split; [apply parseKoreanDate_none | apply parseTime_none]].
  eexists. split; [reflexivity|].
  unfold parseCommand.
  destruct (detectAction _); [| reflexivity].
  destruct (detectEntity _); [| reflexivity].
  destruct (parseTime message), (parseKoreanDate now message); reflexivity.
Qed.

End Totality.

(** ** parseCommand: the title *)

Section Title.

Context {host : Host}.

Lemma detectAction_not_chat m : detectAction m <> Some Chat.
Proof.
  unfold detectAction.
  destruct (includesAny addKeywords m); [discriminate|].
  destruct (includesAny deleteKeywords m); [discriminate|].
  destruct (includesAny listKeywords m); discriminate.
Qed.

Lemma parseCommand_chat_iff now message :
  action (parseCommand now message) = Chat <->
  (detectAction (toLowerCase message) = None \/
   detectEntity (toLowerCase message) = None).
Proof.
  unfold parseCommand, detectAction.
  destruct (includesAny addKeywords _);
    [| destruct (includesAny deleteKeywords _);
       [| destruct (includesAny listKeywords _)]];
    destruct (detectEntity _);
    try (destruct (parseTime message), (parseKoreanDate now message));
    cbn; split; intros H; try discriminate; try tauto;
    destruct H; discriminate.
Qed.

(** Where the title of a message without a quoted part comes from: a
    command has the stripped message as its title when that is 3 or more
    code units long, a message classified as chat has none. *)
Lemma unquoted_title (now : Z) (message : str) :
  jsMatch message quotedRe = None ->
  let c := parseCommand now message in
  (action c <> Chat ->
   title c = if (3 <=? length (stripTitle message))%nat
             then Some (stripTitle message) else None) /\
  (action c = Chat -> title c = None).
Proof.
  intros Q. cbv zeta. unfold parseCommand.
  destruct (detectAction _) as [a |] eqn:DA;
    [| cbn; split; [tauto | reflexivity]].
  destruct (detectEntity _) as [e |]; [| cbn; split; [tauto | reflexivity]].
  rewrite Q.
  assert (E : (2 <? length (stripTitle message))%nat
              = (3 <=? length (stripTitle message))%nat).
  { destruct (Nat.ltb_spec 2 (length (stripTitle message)));
      destruct (Nat.leb_spec 3 (length (stripTitle message)));
      try reflexivity; lia. }
  assert (N : a <> Chat).
  { intros ->. now apply detectAction_not_chat in DA. }
  destruct (parseTime message), (parseKoreanDate now message);
    cbn [action title withAction]; rewrite E; split;
    try reflexivity; intros; contradiction.
Qed.

End Title.

(** The title extraction is not reached for a message that is not a
    command: "안녕하세요 반갑습니다" has no quoted part and keeps 11
    code units after the removals, and the parsed command has no
    title. *)
Lemma chat_message_has_no_title :
  let message := js "안녕하세요 반갑습니다" in
  jsMatch message quotedRe = None /\
  (3 <=? length (stripTitle message))%nat = true /\
  title (@parseCommand seoul (seoulTime 2026 10 3 10 0) message) = None.
Proof. vm_compute. repeat split; reflexivity. Qed.

(** The removals leave the keywords that are not in their list (업무 is
    an entity keyword, 취소 an action keyword), and a keyword that a
    removal itself puts together. *)
Lemma stripTitle_keeps_keywords :
  stripTitle (js "업무 보고서 취소 등록") = js "업무 보고서 취소" /\
  stripTitle (js "회회의의 자료 추가") = js "회의 자료".
Proof. vm_compute. split; reflexivity. Qed.

(** C7, at its failing input: "업무 보고서 추가해줘" has no quoted part
    and is classified as the addition of a task, by 추가 and by 업무.
    The removal of keywords takes out 추가 and 해줘 and leaves 업무,
    which its pattern does not match although 업무 is a keyword of the
    classifier: the command has the title "업무 보고서", which still
    holds the keyword, and not "보고서", the message without its
    keywords, which is 3 code units long and would be carried as the
    title. *)
Theorem C7_entity_keyword_stays_in_title :
  let now := seoulTime 2026 10 3 10 0 in
  let message := js "업무 보고서 추가해줘" in
  let c := @parseCommand seoul now message in
  jsMatch message quotedRe = None /\
  action c = Add /\ entity c = Some Todo /\
  In (js "업무") todoKeywords /\
  jsMatch (js "업무") stopWordsRe = None /\
  stripTitle message = js "업무 보고서" /\
  title c = Some (js "업무 보고서") /\
  includes (js "업무") (js "업무 보고서") = true /\
  title c <> Some (js "보고서") /\
  (3 <=? length (js "보고서"))%nat = true.
Proof.
  cbv zeta.
  split; [vm_compute; reflexivity |].
  split; [vm_compute; reflexivity |].
  split; [vm_compute; reflexivity |].
  split; [right; right; left; reflexivity |].
  split; [vm_compute; reflexivity |].
  split; [vm_compute; reflexivity |].
  split; [vm_compute; reflexivity |].
  split; [vm_compute; reflexivity |].
  split; [vm_compute; discriminate | vm_compute; reflexivity].
Qed.

(** ** Programs *)

Lemma Ends_any {A : Type} (p : Prog A) : Ends (fun _ => True) p.
Proof. induction p; constructor; auto. Qed.

(** A [try] block whose handler always returns never throws. *)
Lemma Returns_tryCatch {A : Type} (P : A -> Prop) (p : Prog A)
    (handler : JsError -> Prog A) :
  Ends P p -> (forall e, Returns P (handler e)) ->
  Returns P (tryCatch p handler).
Proof.
  intros Hp Hh. induction Hp; cbn; [now constructor | apply Hh |].
  constructor. auto.
Qed.

Lemma Returns_weaken {A : Type} (P Q : A -> Prop) (p : Prog A) :
  (forall a, P a -> Q a) -> Returns P p -> Returns Q p.
Proof. intros I H. induction H; constructor; auto. Qed.

(** A program that always returns does so against every environment. *)
Lemma Returns_run {A : Type} (P : A -> Prop) (p : Prog A) (w : World) :
  Returns P p -> exists a, snd (run w p) = inl a /\ P a.
Proof.
  induction 1 as [a Ha | X c k _ IH]; cbn.
  - now exists a.
  - destruct (IH (w X c)) as (a & E & Ha). exists a.
    destruct (run w (k (w X c))). cbn in *. now split.
Qed.



(** ** executeCommand and sendMessage *)

Section DispatcherFacts.

Context {host : Host}.

Lemma logAndFail_returns e : Returns (fun s => s = commandFailed) (logAndFail e).
Proof. unfold logAndFail, perform. cbn [bind]. repeat constructor. Qed.

Lemma apologise_returns e :
  Returns (fun r => command r = None /\
                    (response r = modelUnreachable \/ response r = requestFailed))
          (apologise e).
Proof.
  unfold apologise, perform. cbn [bind]. constructor. intros _.
  destruct (match message e with Some m => includes (js "404") m | None => false end);
    constructor; cbn [command response]; tauto.
Qed.

(** executeCommand always returns a string. *)
Lemma executeCommand_never_throws command :
  Returns (fun _ => True) (executeCommand command).
Proof.
  unfold executeCommand. apply Returns_tryCatch; [apply Ends_any|].
  intros e. eapply Returns_weaken; [| apply logAndFail_returns]. trivial.
Qed.

(** sendMessage always returns a response. *)
Lemma sendMessage_never_throws now message :
  Returns (fun _ => True) (sendMessage now message).
Proof.
  unfold sendMessage. apply Returns_tryCatch; [apply Ends_any|].
  intros e. eapply Returns_weaken; [| apply apologise_returns]. trivial.
Qed.

(** Against every environment, sendMessage ends with a response. *)
Lemma sendMessage_responds (w : World) now message :
  exists r, snd (run w (sendMessage now message)) = inl r.
Proof.
  destruct (Returns_run _ _ w (sendMessage_never_throws now message))
    as (r & E & _).
  now exists r.
Qed.

Lemma todoLines_concat header todos :
  todoLines header todos
  = header ++ concat (map (fun t => bullet (TodoItem.title t)) todos).
Proof.
  unfold todoLines. revert header.
  induction todos as [| t l IH]; intros header; cbn.
  - now rewrite app_nil_r.
  - rewrite IH. now rewrite <- app_assoc.
Qed.



End DispatcherFacts.



(** ** Commands without an executor *)

Section Unimplemented.

Context {host : Host}.

Lemma executeCommand_no_branch command :
  action command = Delete \/ action command = Update ->
  executeCommand command = Ret [].
Proof. unfold executeCommand. intros [-> | ->]; reflexivity. Qed.

(** C9: for a message classified with action delete or update and an
    entity, executeCommand is the bare return of the empty string - it
    makes no call at all - and sendMessage is the call of the Gemini
    model with the original message (no call comes before it); when the
    model answers, the response is its reply, with no command. *)
Theorem C9_delete_and_update_fall_to_chat (now : Z) (message : str) :
  let c := parseCommand now message in
  action c = Delete \/ action c = Update ->
  entity c <> None ->
  executeCommand c = Ret [] /\
  exists k,
    sendMessage now message = Vis (GeminiChat systemPrompt greeting message) k /\
    forall reply, k (Fulfilled reply) = Ret {| response := reply; command := None |}.
Proof.
  cbv zeta. intros Ha He.
  pose proof (executeCommand_no_branch _ Ha) as E. split; [exact E|].
  unfold sendMessage. cbv zeta. rewrite E.
  destruct (entity (parseCommand now message)); [| contradiction].
  destruct Ha as [-> | ->]; eexists; (split; [reflexivity | reflexivity]).
Qed.

End Unimplemented.

(** "회의 일정 삭제해줘" is classified as the deletion of an event. *)
Lemma C9_delete_and_update_fall_to_chat_witness :
  let now := seoulTime 2026 10 3 10 0 in
  let message := js "회의 일정 삭제해줘" in
  @executeCommand seoul (@parseCommand seoul now message) = Ret [] /\
  exists k,
    @sendMessage seoul now message
      = Vis (GeminiChat systemPrompt greeting message) k /\
    forall reply, k (Fulfilled reply) = Ret {| response := reply; command := None |}.
Proof.
  apply (@C9_delete_and_update_fall_to_chat seoul).
  - left. vm_compute. reflexivity.
  - vm_compute. discriminate.
Defined.

(** ** Errors of the stores *)

(** C2, at its failing input: a command with action list and entity
    todo, run against a store whose query yields an error.  The command
    asks the store once, logs nothing, and answers with the 'none found'
    message instead of the failure message. *)
Theorem C2_list_hides_store_error :
  let command := @parseCommand seoul (seoulTime 2026 10 3 10 0) (js "할 일 보여줘") in
  let w := worldOf {| selectTodos := failing (js "connection refused");
                      selectEvents := nothing; insertTodo := nothing;
                      insertEvent := nothing; insertMemo := nothing;
                      geminiChat := Fulfilled []; clock := 0 |} in
  action command = List /\ entity command = Some Todo /\
  run w (@executeCommand seoul command) = ([Called SelectTodos], inl noTodos) /\
  noTodos <> commandFailed.
Proof. vm_compute. repeat split; try reflexivity. discriminate. Qed.

(** The add branches do look at the error: against a store whose insert
    yields an error, "금요일까지 보고서 작성 할 일 추가해줘" is answered
    with the failure message, after the insert and one line on the
    console. *)
Lemma add_reports_store_error :
  let command := @parseCommand seoul (seoulTime 2026 10 3 10 0)
                   (js "금요일까지 보고서 작성 할 일 추가해줘") in
  let w := worldOf {| selectTodos := nothing; selectEvents := nothing;
                      insertTodo := failing (js "connection refused");
                      insertEvent := nothing; insertMemo := nothing;
                      geminiChat := Fulfilled []; clock := 0 |} in
  action command = Add /\ entity command = Some Todo /\
  snd (run w (@executeCommand seoul command)) = inl commandFailed /\
  length (fst (run w (@executeCommand seoul command))) = 2%nat.
Proof. vm_compute. repeat split; reflexivity. Qed.

(** ** The matcher against the language of a pattern *)

Lemma startsWith_app p s : startsWith p (p ++ s) = true.
Proof.
  induction p as [| c p IH]; [destruct s; reflexivity|].
  cbn. unfold char_eqb. now rewrite N.eqb_refl, IH.
Qed.

Lemma startsWith_split p s :
  startsWith p s = true -> s = p ++ skipn (length p) s.
Proof.
  revert s. induction p as [| c p IH]; intros s H; [reflexivity|].
  destruct s as [| d s]; [discriminate|].
  cbn in H. apply andb_true_iff in H. destruct H as [E H].
  apply N.eqb_eq in E. subst d. cbn. f_equal. now apply IH.
Qed.

Lemma skipn_app_length {A : Type} (p s : list A) : skipn (length p) (p ++ s) = s.
Proof. induction p; [reflexivity | assumption]. Qed.

Section MatcherFacts.

Variable R : Type.

(** What [rep] returns comes from its continuation, after a run of the
    class within the bounds. *)
Lemma rep_sound g p s : forall lo hi (k : str -> option R) x,
  rep g p lo hi s k = Some x ->
  exists w s', s = w ++ s' /\ forallb p w = true /\ (lo <= length w)%nat /\
               (forall h, hi = Some h -> (length w <= h)%nat) /\
               k s' = Some x.
Proof.
  induction s as [| c s IH]; intros lo hi k x H.
  - exists [], []. cbn in H.
    destruct g, lo; try discriminate;
      repeat split; cbn; auto; try lia;
      destruct (k []); try discriminate; assumption.
  - assert (Stop : lo = O -> k (c :: s) = Some x ->
                   exists w s', c :: s = w ++ s' /\ forallb p w = true /\
                     (lo <= length w)%nat /\
                     (forall h, hi = Some h -> (length w <= h)%nat) /\
                     k s' = Some x).
    { intros -> K. exists [], (c :: s). repeat split; cbn; auto; lia. }
    assert (More : forall lo' hi',
               p c = true -> lo' = pred lo ->
               (forall h, hi = Some h -> exists h', h = S h' /\ hi' = Some h') ->
               (hi = None -> hi' = None) ->
               rep g p lo' hi' s k = Some x ->
               exists w s', c :: s = w ++ s' /\ forallb p w = true /\
                 (lo <= length w)%nat /\
                 (forall h, hi = Some h -> (length w <= h)%nat) /\
                 k s' = Some x).
    { intros lo' hi' Pc -> Hh Hn Hr.
      destruct (IH _ _ _ _ Hr) as (w & s' & -> & Fw & Lw & Bw & K).
      exists (c :: w), s'. repeat split; cbn; auto.
      - now rewrite Pc, Fw.
      - lia.
      - intros h E. destruct (Hh h E) as (h' & -> & E').
        specialize (Bw h' E'). lia. }
    assert (Stop' : lo = O ->
               match k (c :: s) with Some y => Some y | None => None end = Some x ->
               exists w s', c :: s = w ++ s' /\ forallb p w = true /\
                 (lo <= length w)%nat /\
                 (forall h, hi = Some h -> (length w <= h)%nat) /\
                 k s' = Some x).
    { intros L K. apply Stop; [exact L|].
      destruct (k (c :: s)); [exact K | discriminate]. }
    assert (Hsome : forall h0 h, Some (S h0) = Some h ->
                      exists h', h = S h' /\ Some h0 = Some h').
    { intros h0 h E0. inversion E0. now exists h0. }
    cbn in H. destruct (p c) eqn:Pc.
    + destruct hi as [[| h] |].
      * destruct g, lo; try discriminate; auto.
      * destruct g.
        -- destruct (rep true p (pred lo) (Some h) s k) eqn:E.
           ++ inversion H; subst.
              apply (More (pred lo) (Some h)); auto. discriminate.
           ++ destruct lo; [now apply Stop | discriminate].
        -- destruct lo.
           ++ destruct (k (c :: s)) eqn:E.
              ** inversion H; subst. now apply Stop.
              ** apply (More O (Some h)); auto. discriminate.
           ++ apply (More lo (Some h)); auto. discriminate.
      * destruct g.
        -- destruct (rep true p (pred lo) None s k) eqn:E.
           ++ inversion H; subst. apply (More (pred lo) None); auto.
              discriminate.
           ++ destruct lo; [now apply Stop | discriminate].
        -- destruct lo.
           ++ destruct (k (c :: s)) eqn:E.
              ** inversion H; subst. now apply Stop.
              ** apply (More O None); auto. discriminate.
           ++ apply (More lo None); auto. discriminate.
    + destruct g, lo; try discriminate; auto.
Qed.

(** [rep] succeeds on every run of the class within the bounds after
    which its continuation succeeds. *)
Lemma rep_complete g p w : forall lo hi s' (k : str -> option R),
  forallb p w = true -> (lo <= length w)%nat ->
  (forall h, hi = Some h -> (length w <= h)%nat) ->
  k s' <> None ->
  rep g p lo hi (w ++ s') k <> None.
Proof.
  induction w as [| c w IH]; intros lo hi s' k Fw Lw Bw K.
  - cbn in Lw. assert (lo = O) by lia. subst lo. cbn [app].
    destruct s' as [| d s']; cbn.
    + destruct g; destruct (k []); congruence.
    + destruct g.
      * destruct (if p d then _ else _); [discriminate | exact K].
      * destruct (k (d :: s')); [discriminate | congruence].
  - cbn in Fw. apply andb_true_iff in Fw. destruct Fw as [Pc Fw].
    cbn in Lw. cbn [app]. cbn. rewrite Pc.
    assert (Rec : forall hi', (forall h, hi' = Some h -> (length w <= h)%nat) ->
                              rep g p (pred lo) hi' (w ++ s') k <> None).
    { intros hi' B'. apply IH; auto. lia. }
    destruct hi as [[| h] |].
    + specialize (Bw O eq_refl). cbn in Bw. lia.
    + assert (Rh : rep g p (pred lo) (Some h) (w ++ s') k <> None).
      { apply Rec. intros h0 E0. inversion E0; subst.
        specialize (Bw (S h0) eq_refl). cbn in Bw. lia. }
      destruct g.
      * destruct (rep true p (pred lo) (Some h) (w ++ s') k);
          [discriminate | congruence].
      * destruct lo; [destruct (k (c :: w ++ s')); [discriminate|] |]; exact Rh.
    + assert (Rn : rep g p (pred lo) None (w ++ s') k <> None).
      { apply Rec. discriminate. }
      destruct g.
      * destruct (rep true p (pred lo) None (w ++ s') k);
          [discriminate | congruence].
      * destruct lo; [destruct (k (c :: w ++ s')); [discriminate|] |]; exact Rn.
Qed.

(** Soundness: a result of the matcher is a result of its continuation
    after a text that the pattern describes. *)
Lemma rmatch_sound r : forall s cs (k : str -> captures -> option R) x,
  rmatch r s cs k = Some x ->
  exists w s' cs', s = w ++ s' /\ Matches r w /\ k s' cs' = Some x.
Proof.
  induction r as [| p | p | r1 IH1 r2 IH2 | r1 IH1 r2 IH2 | r IH
                  | g lo hi p | i r IH]; intros s cs k x H; cbn in H.
  - exists [], s, cs. repeat split; [constructor | exact H].
  - destruct (startsWith p s) eqn:E; [| discriminate].
    exists p, (skipn (length p) s), cs.
    repeat split; [now apply startsWith_split | constructor | exact H].
  - destruct s as [| c s]; [discriminate|].
    destruct (p c) eqn:E; [| discriminate].
    exists [c], s, cs. repeat split; [now constructor | exact H].
  - destruct (IH1 _ _ _ _ H) as (w1 & s1 & c1 & -> & M1 & H1).
    destruct (IH2 _ _ _ _ H1) as (w2 & s2 & c2 & -> & M2 & H2).
    exists (w1 ++ w2), s2, c2.
    repeat split; [now rewrite app_assoc | now constructor | exact H2].
  - destruct (rmatch r1 s cs k) eqn:E.
    + inversion H; subst.
      destruct (IH1 _ _ _ _ E) as (w & s' & c' & -> & M & K).
      exists w, s', c'. repeat split; [now apply M_AltL | exact K].
    + destruct (IH2 _ _ _ _ H) as (w & s' & c' & -> & M & K).
      exists w, s', c'. repeat split; [now apply M_AltR | exact K].
  - destruct (rmatch r s cs k) eqn:E.
    + inversion H; subst.
      destruct (IH _ _ _ _ E) as (w & s' & c' & -> & M & K).
      exists w, s', c'. repeat split; [now apply M_OptSome | exact K].
    + exists [], s, cs. repeat split; [constructor | exact H].
  - destruct (rep_sound _ _ _ _ _ _ _ H) as (w & s' & -> & F & L & B & K).
    exists w, s', cs. repeat split; [now constructor | exact K].
  - destruct (IH _ _ _ _ H) as (w & s' & c' & -> & M & K).
    eexists w, s', _. repeat split; [now constructor | exact K].
Qed.

(** Completeness: the matcher succeeds on every text that the pattern
    describes after which its continuation succeeds. *)
Lemma rmatch_complete r w :
  Matches r w ->
  forall s' cs (k : str -> captures -> option R),
    (forall cs', k s' cs' <> None) -> rmatch r (w ++ s') cs k <> None.
Proof.
  induction 1 as [| p | p c Pc | r1 r2 w1 w2 _ IH1 _ IH2 | r1 r2 w _ IH
                  | r1 r2 w _ IH | r | r w _ IH | g lo hi p w F L B
                  | i r w _ IH]; intros s' cs k K; cbn.
  - apply K.
  - rewrite startsWith_app, skipn_app_length. apply K.
  - rewrite Pc. apply K.
  - rewrite <- app_assoc. apply IH1. intros c1. now apply IH2.
  - specialize (IH s' cs k K).
    destruct (rmatch r1 (w ++ s') cs k); [discriminate | congruence].
  - destruct (rmatch r1 (w ++ s') cs k); [discriminate | now apply IH].
  - destruct (rmatch r s' cs k); [discriminate | apply K].
  - specialize (IH s' cs k K).
    destruct (rmatch r (w ++ s') cs k); [discriminate | congruence].
  - apply rep_complete; auto.
  - apply IH. intros c1. apply K.
Qed.

End MatcherFacts.

Lemma matchAt_complete r w s' : Matches r w -> matchAt r (w ++ s') <> None.
Proof.
  intros M. unfold matchAt. apply rmatch_complete; [exact M|]. discriminate.
Qed.

Lemma matchAt_sound r s :
  matchAt r s <> None -> exists w s', s = w ++ s' /\ Matches r w.
Proof.
  unfold matchAt. intros H.
  destruct (rmatch r s [] _) as [x |] eqn:E; [| congruence].
  destruct (rmatch_sound _ _ _ _ _ _ E) as (w & s' & _ & -> & M & _).
  now exists w, s'.
Qed.

Lemma searchFrom_finds r pre t : forall i,
  matchAt r t <> None -> searchFrom r i (pre ++ t) <> None.
Proof.
  induction pre as [| c pre IH]; intros i H; cbn [app].
  - destruct t; cbn; destruct (matchAt r _) as [[s' cs] |];
      try discriminate; congruence.
  - cbn. destruct (matchAt r (c :: pre ++ t)) as [[s' cs] |]; [discriminate|].
    now apply IH.
Qed.

Lemma searchFrom_found r s : forall i,
  searchFrom r i s <> None -> exists pre t, s = pre ++ t /\ matchAt r t <> None.
Proof.
  induction s as [| c s IH]; intros i H.
  - exists [], []. split; [reflexivity|]. cbn in H.
    destruct (matchAt r []) as [[s' cs] |]; [discriminate | congruence].
  - cbn in H. destruct (matchAt r (c :: s)) as [[s' cs] |] eqn:E.
    + exists [], (c :: s). split; [reflexivity|]. rewrite E. discriminate.
    + destruct (IH _ H) as (pre & t & -> & M). now exists (c :: pre), t.
Qed.

(** [s.match(r)] is not null exactly when some part of [s] is a text
    that the pattern describes. *)
Lemma jsMatch_iff s r :
  jsMatch s r <> None <->
  exists pre w post, s = pre ++ w ++ post /\ Matches r w.
Proof.
  unfold jsMatch. split.
  - intros H. destruct (searchFrom_found _ _ _ H) as (pre & t & -> & M).
    destruct (matchAt_sound _ _ M) as (w & post & -> & Mw).
    now exists pre, w, post.
  - intros (pre & w & post & -> & M).
    apply searchFrom_finds. now apply matchAt_complete.
Qed.

Lemma Matches_Seq_inv r1 r2 w :
  Matches (Seq r1 r2) w ->
  exists w1 w2, w = w1 ++ w2 /\ Matches r1 w1 /\ Matches r2 w2.
Proof. intros H. inversion H; subst. now exists w1, w2. Qed.

Lemma Matches_Grp_inv i r w : Matches (Grp i r) w -> Matches r w.
Proof. intros H. now inversion H. Qed.

(** ** parseKoreanDate: the full date *)

(** A text that the full-date pattern describes ends with a text that
    the month-and-day pattern describes. *)
Lemma fullDate_ends_with_monthDay w :
  Matches fullDateRe w ->
  exists w1 w2, w = w1 ++ w2 /\ Matches monthDayRe w2.
Proof.
  unfold fullDateRe, monthDayRe, cat. cbn [fold_right]. intros H.
  apply Matches_Seq_inv in H. destruct H as (y & w1 & -> & _ & H).
  apply Matches_Seq_inv in H. destruct H as (s1 & w2 & -> & _ & H).
  apply Matches_Seq_inv in H. destruct H as (n & w3 & -> & _ & H).
  apply Matches_Seq_inv in H. destruct H as (s2 & w4 & -> & _ & H).
  apply Matches_Seq_inv in H. destruct H as (m & w5 & -> & Hm & H).
  apply Matches_Seq_inv in H. destruct H as (s3 & w6 & -> & Hs3 & H).
  apply Matches_Seq_inv in H. destruct H as (wol & w7 & -> & Hwol & H).
  apply Matches_Seq_inv in H. destruct H as (s4 & w8 & -> & Hs4 & H).
  apply Matches_Seq_inv in H. destruct H as (d & w9 & -> & Hd & H).
  apply Matches_Grp_inv in Hm. apply Matches_Grp_inv in Hd.
  exists (y ++ s1 ++ n ++ s2), (m ++ s3 ++ wol ++ s4 ++ d ++ w9).
  split; [now rewrite <- !app_assoc|].
  repeat (apply M_Seq; [try apply M_Grp; assumption|]).
  exact H.
Qed.

(** Whenever the full-date pattern matches a text, so does the
    month-and-day pattern, which parseKoreanDate tries first. *)
Lemma fullDate_implies_monthDay s :
  jsMatch s fullDateRe <> None -> jsMatch s monthDayRe <> None.
Proof.
  rewrite !jsMatch_iff. intros (pre & w & post & -> & M).
  destruct (fullDate_ends_with_monthDay w M) as (w1 & w2 & -> & M2).
  exists (pre ++ w1), w2, post. split; [| exact M2].
  now rewrite <- !app_assoc.
Qed.

Section FullDate.

Context {host : Host}.

(** X4: the full-date branch of parseKoreanDate is never taken: when the
    patterns before it do not match, neither does its own pattern. *)
Theorem fullDate_branch_unreachable (now : Z) (text : str) :
  parseKoreanDate now text = None <->
  noLiteralDay (toLowerCase text) /\
  (forall name day, In (name, day) dayMap ->
                    includes name (toLowerCase text) = false) /\
  jsMatch (toLowerCase text) daysLaterRe = None /\
  jsMatch (toLowerCase text) weeksLaterRe = None /\
  jsMatch (toLowerCase text) monthDayRe = None.
Proof.
  rewrite parseKoreanDate_none. unfold noDatePattern.
  split; [tauto|]. intros (A & B & C & D & E).
  assert (F : jsMatch (toLowerCase text) fullDateRe = None).
  { destruct (jsMatch (toLowerCase text) fullDateRe) eqn:F; [| reflexivity].
    exfalso. apply (fullDate_implies_monthDay (toLowerCase text)); [| exact E].
    rewrite F. discriminate. }
  exact (conj A (conj B (conj C (conj D (conj E F))))).
Qed.

End FullDate.

(** C1, at its failing input: "2025년 1월 15일" is a full date with year
    2025, month 1 and day 15, and on 3 November 2026, 10:00 in Seoul,
    parseKoreanDate returns 15 January 2027: the month-and-day pattern
    matches first, reads "1월 15일" in the current year, and moves the
    passed date to the next year. *)
Theorem C1_full_date_read_as_month_day :
  let now := seoulTime 2026 10 3 10 0 in
  let text := js "2025년 1월 15일" in
  let r := seoulTime 2027 0 15 0 0 in
  (exists m, jsMatch (@toLowerCase seoul text) fullDateRe = Some m /\
             parseIntOf (capture m 1) = Some 2025 /\
             parseIntOf (capture m 2) = Some 1 /\
             parseIntOf (capture m 3) = Some 15) /\
  @parseKoreanDate seoul now text = Some (DateAt r) /\
  @getFullYear seoul r = 2027 /\ @getMonth seoul r = 0 /\ @getDate seoul r = 15.
Proof.
  vm_compute. split; [eexists; repeat split; reflexivity|].
  repeat split; reflexivity.
Qed.

(** ** Captures *)

Lemma firstn_matched (w s1 : str) :
  firstn (length (w ++ s1) - length s1) (w ++ s1) = w.
Proof.
  rewrite length_app. replace (length w + length s1 - length s1)%nat
    with (length w + 0)%nat by lia.
  rewrite firstn_app_2. cbn. apply app_nil_r.
Qed.

Section CaptureFacts.

Variable R : Type.

(** Soundness with captures: a group holds the text that its body
    matched. *)
Lemma rmatch_sound_captures r : forall s cs (k : str -> captures -> option R) x,
  rmatch r s cs k = Some x ->
  exists w s' cs', s = w ++ s' /\ MatchesC r w cs cs' /\ k s' cs' = Some x.
Proof.
  induction r as [| p | p | r1 IH1 r2 IH2 | r1 IH1 r2 IH2 | r IH
                  | g lo hi p | i r IH]; intros s cs k x H; cbn in H.
  - exists [], s, cs. repeat split; [constructor | exact H].
  - destruct (startsWith p s) eqn:E; [| discriminate].
    exists p, (skipn (length p) s), cs.
    repeat split; [now apply startsWith_split | constructor | exact H].
  - destruct s as [| c s]; [discriminate|].
    destruct (p c) eqn:E; [| discriminate].
    exists [c], s, cs. repeat split; [now constructor | exact H].
  - destruct (IH1 _ _ _ _ H) as (w1 & s1 & c1 & -> & M1 & H1).
    destruct (IH2 _ _ _ _ H1) as (w2 & s2 & c2 & -> & M2 & H2).
    exists (w1 ++ w2), s2, c2.
    repeat split; [now rewrite app_assoc | econstructor; eassumption | exact H2].
  - destruct (rmatch r1 s cs k) eqn:E.
    + inversion H; subst.
      destruct (IH1 _ _ _ _ E) as (w & s' & c' & -> & M & K).
      exists w, s', c'. repeat split; [now apply MC_AltL | exact K].
    + destruct (IH2 _ _ _ _ H) as (w & s' & c' & -> & M & K).
      exists w, s', c'. repeat split; [now apply MC_AltR | exact K].
  - destruct (rmatch r s cs k) eqn:E.
    + inversion H; subst.
      destruct (IH _ _ _ _ E) as (w & s' & c' & -> & M & K).
      exists w, s', c'. repeat split; [now apply MC_OptSome | exact K].
    + exists [], s, cs. repeat split; [constructor | exact H].
  - destruct (rep_sound _ _ _ _ _ _ _ _ H) as (w & s' & -> & F & L & B & K).
    exists w, s', cs. repeat split; [now constructor | exact K].
  - destruct (IH _ _ _ _ H) as (w & s' & c' & -> & M & K).
    rewrite firstn_matched in K.
    exists w, s', ((i, w) :: c'). repeat split; [now constructor | exact K].
Qed.

End CaptureFacts.

Lemma matchAt_some r s s' cs :
  matchAt r s = Some (s', cs) ->
  exists w, s = w ++ s' /\ MatchesC r w [] cs.
Proof.
  unfold matchAt. intros E.
  destruct (rmatch_sound_captures _ _ _ _ _ _ E) as (w & t & c' & Es & M & K).
  inversion K; subst. now exists w.
Qed.

Lemma searchFrom_some r s : forall i m,
  searchFrom r i s = Some m ->
  exists pre w post,
    s = pre ++ w ++ post /\ MatchesC r w [] (groups m) /\ matched m = w.
Proof.
  assert (Here : forall i t s' cs,
             matchAt r t = Some (s', cs) ->
             exists pre w post,
               t = pre ++ w ++ post /\
               MatchesC r w []
                 (groups {| index := i;
                            matched := firstn (length t - length s') t;
                            groups := cs |}) /\
               matched {| index := i;
                          matched := firstn (length t - length s') t;
                          groups := cs |} = w).
  { intros i t s' cs E. destruct (matchAt_some _ _ _ _ E) as (w & -> & M).
    exists [], w, s'. cbn [app groups matched].
    split; [reflexivity|]. split; [exact M|]. apply firstn_matched. }
  induction s as [| c s IH]; intros i m H; cbn [searchFrom] in H.
  - destruct (matchAt r []) as [[s' cs] |] eqn:E; [| discriminate].
    injection H as <-. exact (Here i _ _ _ E).
  - destruct (matchAt r (c :: s)) as [[s' cs] |] eqn:E.
    + injection H as <-. exact (Here i _ _ _ E).
    + destruct (IH _ _ H) as (pre & w & post & -> & M & E').
      exists (c :: pre), w, post. now repeat split.
Qed.

(** [s.match(r)]: the match is a part of [s] that the pattern
    describes, with its captures. *)
Lemma jsMatch_some s r m :
  jsMatch s r = Some m ->
  exists pre w post,
    s = pre ++ w ++ post /\ MatchesC r w [] (groups m) /\ matched m = w.
Proof. apply searchFrom_some. Qed.

Lemma MC_Eps_inv w cs c' : MatchesC Eps w cs c' -> w = [] /\ c' = cs.
Proof. intros H. inversion H; subst. now split. Qed.

Lemma MC_Lit_inv p w cs c' : MatchesC (Lit p) w cs c' -> w = p /\ c' = cs.
Proof. intros H. inversion H; subst. now split. Qed.

Lemma MC_Cls_inv p w cs c' :
  MatchesC (Cls p) w cs c' -> exists c, w = [c] /\ p c = true /\ c' = cs.
Proof. intros H. inversion H; subst. now exists c. Qed.

Lemma MC_Seq_inv r1 r2 w cs c2 :
  MatchesC (Seq r1 r2) w cs c2 ->
  exists w1 w2 c1,
    w = w1 ++ w2 /\ MatchesC r1 w1 cs c1 /\ MatchesC r2 w2 c1 c2.
Proof. intros H. inversion H; subst. now exists w1, w2, c1. Qed.

Lemma MC_Alt_inv r1 r2 w cs c' :
  MatchesC (Alt r1 r2) w cs c' -> MatchesC r1 w cs c' \/ MatchesC r2 w cs c'.
Proof. intros H. inversion H; subst; tauto. Qed.

Lemma MC_Opt_inv r w cs c' :
  MatchesC (Opt r) w cs c' -> (w = [] /\ c' = cs) \/ MatchesC r w cs c'.
Proof. intros H. inversion H; subst; tauto. Qed.

Lemma MC_Rep_inv g lo hi p w cs c' :
  MatchesC (Rep g lo hi p) w cs c' ->
  c' = cs /\ forallb p w = true /\ (lo <= length w)%nat /\
  (forall h, hi = Some h -> (length w <= h)%nat).
Proof. intros H. inversion H; subst. tauto. Qed.

Lemma MC_Grp_inv i r w cs c' :
  MatchesC (Grp i r) w cs c' ->
  exists c1, c' = (i, w) :: c1 /\ MatchesC r w cs c1.
Proof. intros H. inversion H; subst. now exists c1. Qed.

(** Takes a match of a pattern of the source apart, down to its
    literals, classes and runs. *)
Ltac take_apart :=
  repeat match goal with
    | H : MatchesC Eps _ _ _ |- _ =>
      apply MC_Eps_inv in H; destruct H as [? ?]; subst
    | H : MatchesC (Lit _) _ _ _ |- _ =>
      apply MC_Lit_inv in H; destruct H as [? ?]; subst
    | H : MatchesC (Cls _) _ _ _ |- _ =>
      apply MC_Cls_inv in H; destruct H as (? & ? & ? & ?); subst
    | H : MatchesC (Seq _ _) _ _ _ |- _ =>
      apply MC_Seq_inv in H; destruct H as (? & ? & ? & ? & ? & ?); subst
    | H : MatchesC (Alt _ _) _ _ _ |- _ =>
      apply MC_Alt_inv in H; destruct H as [? | ?]
    | H : MatchesC (Opt _) _ _ _ |- _ =>
      apply MC_Opt_inv in H; destruct H as [[? ?] | ?]; subst
    | H : MatchesC (Rep _ _ _ _) _ _ _ |- _ =>
      apply MC_Rep_inv in H; destruct H as (? & ? & ? & ?); subst
    | H : MatchesC (Grp _ _) _ _ _ |- _ =>
      apply MC_Grp_inv in H; destruct H as (? & ? & ?); subst
    end.

(** ** Figures *)

Lemma isDigit_value c : isDigit c = true -> 0 <= digitValue c <= 9.
Proof.
  unfold isDigit, digitValue. rewrite andb_true_iff, !N.leb_le. lia.
Qed.

Lemma leadingDigits_nonneg d : forall acc,
  0 <= acc -> 0 <= leadingDigits acc d.
Proof.
  induction d as [| c d IH]; intros acc Ha; cbn [leadingDigits]; [exact Ha|].
  destruct (isDigit c) eqn:E; [| exact Ha].
  apply IH. pose proof (isDigit_value c E). lia.
Qed.

(** A run of figures always reads as a number that is not negative. *)
Lemma parseInt_figures d :
  forallb isDigit d = true -> (1 <= length d)%nat ->
  exists n, parseInt d = Some n /\ 0 <= n.
Proof.
  destruct d as [| c d]; cbn [length forallb]; intros F L; [lia|].
  apply andb_true_iff in F. destruct F as [Fc _].
  unfold parseInt. rewrite Fc. eexists. split; [reflexivity|].
  apply leadingDigits_nonneg. lia.
Qed.

(** One or two figures read as a number from 0 to 99. *)
Lemma parseInt_two_figures d :
  forallb isDigit d = true -> (1 <= length d)%nat -> (length d <= 2)%nat ->
  exists n, parseInt d = Some n /\ 0 <= n <= 99.
Proof.
  destruct d as [| a [| b [| c d]]]; cbn [length forallb]; intros F L1 L2;
    try lia.
  - rewrite andb_true_r in F. pose proof (isDigit_value a F).
    unfold parseInt. cbn [leadingDigits]. rewrite F.
    eexists. split; [reflexivity | lia].
  - rewrite andb_true_r in F. apply andb_true_iff in F. destruct F as [Fa Fb].
    pose proof (isDigit_value a Fa). pose proof (isDigit_value b Fb).
    unfold parseInt. cbn [leadingDigits]. rewrite Fa, Fb.
    eexists. split; [reflexivity | lia].
Qed.

(** ** parseTime *)

Lemma minutesOf_two_figures d :
  forallb isDigit d = true -> (1 <= length d)%nat -> (length d <= 2)%nat ->
  exists n, minutesOf (Some d) = Some n /\ 0 <= n <= 99.
Proof.
  intros F L1 L2. unfold minutesOf.
  destruct d as [| c d]; [cbn in L1; lia|]. cbn [truthy].
  now apply parseInt_two_figures.
Qed.

Ltac two_figures d :=
  match goal with
  | F : forallb isDigit d = true, L : (1 <= length d)%nat,
    B : forall h, Some 2%nat = Some h -> (length d <= h)%nat |- _ =>
    let n := fresh "n" in
    let E := fresh "E" in
    let R := fresh "R" in
    destruct (parseInt_two_figures d F L (B _ eq_refl)) as (n & E & R)
  end.

Ltac two_figure_minutes d :=
  match goal with
  | F : forallb isDigit d = true, L : (1 <= length d)%nat,
    B : forall h, Some 2%nat = Some h -> (length d <= h)%nat |- _ =>
    let n := fresh "mi" in
    let E := fresh "E" in
    let R := fresh "R" in
    destruct (minutesOf_two_figures d F L (B _ eq_refl)) as (n & E & R)
  end.

(** What a match of the pattern with 오전 or 오후 captures. *)
Lemma parseTime_ampm text m :
  jsMatch text ampmRe = Some m ->
  exists a h0 mi,
    (a = js "오전" \/ a = js "오후") /\
    capture m 1 = Some a /\
    parseIntOf (capture m 2) = Some h0 /\ 0 <= h0 <= 99 /\
    minutesOf (capture m 3) = Some mi /\ 0 <= mi <= 99.
Proof.
  intros H. destruct (jsMatch_some _ _ _ H) as (pre & w & post & _ & M & _).
  unfold capture. remember (groups m) as gs eqn:G. clear H G.
  unfold ampmRe, cat, oneOf, digit1_2, spaces in M; cbn [fold_right] in M.
  take_apart.
  all: match goal with
       | F : forallb isDigit ?d = true |- context [(2%nat, ?d)] => two_figures d
       end.
  all: try match goal with
       | F : forallb isDigit ?d = true |- context [(3%nat, ?d)] =>
         two_figure_minutes d
       end.
  all: cbn [group Nat.eqb parseIntOf].
  all: eexists _, _, _; repeat split;
    try eassumption; try reflexivity; try lia; tauto.
Qed.

(** What a match of the pattern without 오전 or 오후 captures. *)
Lemma parseTime_plain text m :
  jsMatch text timeRe = Some m ->
  exists h mi,
    parseIntOf (capture m 1) = Some h /\ 0 <= h <= 99 /\
    minutesOf (capture m 2) = Some mi /\ 0 <= mi <= 99.
Proof.
  intros H. destruct (jsMatch_some _ _ _ H) as (pre & w & post & _ & M & _).
  unfold capture. remember (groups m) as gs eqn:G. clear H G.
  unfold timeRe, cat, oneOf, digit1_2, spaces in M; cbn [fold_right] in M.
  take_apart.
  all: match goal with
       | F : forallb isDigit ?d = true |- context [(1%nat, ?d)] => two_figures d
       end.
  all: try match goal with
       | F : forallb isDigit ?d = true |- context [(2%nat, ?d)] =>
         two_figure_minutes d
       end.
  all: cbn [group Nat.eqb parseIntOf].
  all: eexists _, _; repeat split;
    try eassumption; try reflexivity; lia.
Qed.

(** What a match of the pattern with a colon captures. *)
Lemma parseTime_colon text m :
  jsMatch text colonRe = Some m ->
  exists h mi,
    parseIntOf (capture m 1) = Some h /\ 0 <= h <= 99 /\
    parseIntOf (capture m 2) = Some mi /\ 0 <= mi <= 99.
Proof.
  intros H. destruct (jsMatch_some _ _ _ H) as (pre & w & post & _ & M & _).
  unfold capture. remember (groups m) as gs eqn:G. clear H G.
  unfold colonRe, cat, oneOf, digit1_2, digit2 in M; cbn [fold_right] in M.
  take_apart.
  match goal with
  | F : forallb isDigit ?d = true |- context [(1%nat, ?d)] => two_figures d
  end.
  match goal with
  | F : forallb isDigit ?d = true, L : (2 <= length ?d)%nat,
    B : forall h, Some 2%nat = Some h -> (length ?d <= h)%nat
    |- context [(2%nat, ?d)] =>
    destruct (parseInt_two_figures d F ltac:(lia) (B _ eq_refl)) as (mi & Em & Rm)
  end.
  cbn [group Nat.eqb parseIntOf].
  eexists _, _; repeat split; try eassumption; lia.
Qed.

(** X6: whenever parseTime returns a time, its hours and its minutes are
    numbers (never NaN) from 0 to 99 - they are not held below 24 and
    60; after 오후 the hour is 12 or more, and after 오전 it is not 12. *)
Theorem X6_parseTime_bounds (text : str) (c : Clock) :
  parseTime text = Some c ->
  exists h mi,
    hours c = Some h /\ minutes c = Some mi /\
    0 <= h <= 99 /\ 0 <= mi <= 99 /\
    (forall m, jsMatch text ampmRe = Some m ->
       (capture m 1 = Some (js "오후") -> 12 <= h) /\
       (capture m 1 = Some (js "오전") -> h <> 12)).
Proof.
  unfold parseTime. intros H.
  destruct (jsMatch text ampmRe) as [m |] eqn:A.
  - destruct (parseTime_ampm _ _ A) as (a & h0 & mi & Ha & C1 & C2 & R2 & C3 & R3).
    rewrite C1, C2, C3 in H. injection H as <-. cbn [hours minutes].
    assert (Fin : forall h, (a = js "오후" -> 12 <= h) ->
                            (a = js "오전" -> h <> 12) ->
              forall m0, Some m = Some m0 ->
                (capture m0 1 = Some (js "오후") -> 12 <= h) /\
                (capture m0 1 = Some (js "오전") -> h <> 12)).
    { intros h P Q m0 E. injection E as <-. rewrite C1.
      split; intros X; injection X as X; auto. }
    destruct Ha as [-> | ->].
    + replace (str_eqb (js "오전") (js "오후")) with false by reflexivity.
      replace (str_eqb (js "오전") (js "오전")) with true by reflexivity.
      cbn [andb numEq]. destruct (Z.eqb_spec h0 12) as [-> | N].
      * exists 0, mi. do 4 (split; [reflexivity || lia|]).
        apply Fin; [discriminate | lia].
      * exists h0, mi. do 4 (split; [reflexivity || lia|]).
        apply Fin; [discriminate | intros _; exact N].
    + replace (str_eqb (js "오후") (js "오후")) with true by reflexivity.
      replace (str_eqb (js "오후") (js "오전")) with false by reflexivity.
      cbn [andb numLt option_map]. destruct (Z.ltb_spec h0 12) as [L | L].
      * exists (12 + h0), mi. do 4 (split; [reflexivity || lia|]).
        apply Fin; [lia | discriminate].
      * exists h0, mi. do 4 (split; [reflexivity || lia|]).
        apply Fin; [lia | discriminate].
  - destruct (jsMatch text timeRe) as [m |] eqn:T.
    + destruct (parseTime_plain _ _ T) as (h & mi & C1 & R1 & C2 & R2).
      rewrite C1, C2 in H. injection H as <-. exists h, mi.
      do 4 (split; [reflexivity || lia|]). discriminate.
    + destruct (jsMatch text colonRe) as [m |] eqn:Co; [| discriminate].
      destruct (parseTime_colon _ _ Co) as (h & mi & C1 & R1 & C2 & R2).
      rewrite C1, C2 in H. injection H as <-. exists h, mi.
      do 4 (split; [reflexivity || lia|]). discriminate.
Qed.

(** "오후 3시 30분" is 15:30. *)
Lemma X6_parseTime_bounds_witness :
  exists h mi,
    hours {| hours := Some 15; minutes := Some 30 |} = Some h /\
    minutes {| hours := Some 15; minutes := Some 30 |} = Some mi /\
    0 <= h <= 99 /\ 0 <= mi <= 99 /\
    (forall m, jsMatch (js "내일 오후 3시 30분") ampmRe = Some m ->
       (capture m 1 = Some (js "오후") -> 12 <= h) /\
       (capture m 1 = Some (js "오전") -> h <> 12)).
Proof.
  apply (X6_parseTime_bounds (js "내일 오후 3시 30분")).
  vm_compute. reflexivity.
Defined.

(** ** parseKoreanDate: the relative dates *)

Section RelativeDates.

Context {host : Host}.

(** [addDays] moves the time value by whole days, and gives an invalid
    date when that leaves the range of time values. *)
Lemma addDays_value t n :
  Z.abs t <= maxTime -> addDays (DateAt t) n = TimeClip (t + n * msPerDay).
Proof.
  intros R. unfold addDays.
  destruct (Z.eqb_spec n 0) as [-> | N].
  - rewrite Z.mul_0_l, Z.add_0_r. symmetry. now apply TimeClip_in_range.
  - unfold setDate, getDate. rewrite MakeDay_of_fields. f_equal.
    pose proof (Day_split (LocalTime t)) as S.
    unfold MakeDate, UTC, LocalTime in *. lia.
Qed.

Lemma no_weekday_find lowerText :
  (forall name day, In (name, day) dayMap -> includes name lowerText = false) ->
  find (fun e => includes (fst e) lowerText) dayMap = None.
Proof.
  intros W. apply find_none_iff. intros [name day] I. cbn [fst]. eauto.
Qed.

(** X1: the three literal words come first, in the order 오늘, 내일,
    모레, whatever else the text holds: with 오늘 the result is the
    clock reading itself, with 내일 (and no 오늘) it is exactly one day
    later, with 모레 (and neither) exactly two days later, at the same
    time of day. *)
Theorem X1_literal_day_words (now : Z) (text : str) :
  - maxTime <= now <= maxTime - 2 * msPerDay ->
  (includes (js "오늘") (toLowerCase text) = true ->
   parseKoreanDate now text = Some (DateAt now)) /\
  (includes (js "오늘") (toLowerCase text) = false ->
   includes (js "내일") (toLowerCase text) = true ->
   parseKoreanDate now text = Some (DateAt (now + msPerDay))) /\
  (includes (js "오늘") (toLowerCase text) = false ->
   includes (js "내일") (toLowerCase text) = false ->
   includes (js "모레") (toLowerCase text) = true ->
   parseKoreanDate now text = Some (DateAt (now + 2 * msPerDay))).
Proof.
  intros R. unfold parseKoreanDate. repeat split.
  - intros ->. reflexivity.
  - intros -> ->. rewrite addDays_shift; [do 2 f_equal; lia|].
    unfold maxTime, msPerDay in *. lia.
  - intros -> -> ->. rewrite addDays_shift; [reflexivity|].
    unfold maxTime, msPerDay in *. lia.
Qed.

(** What a match of the 'N일 뒤' pattern captures. *)
Lemma daysLater_capture s m :
  jsMatch s daysLaterRe = Some m ->
  exists n, parseIntOf (capture m 1) = Some n /\ 0 <= n.
Proof.
  intros H. destruct (jsMatch_some _ _ _ H) as (pre & w & post & _ & M & _).
  unfold capture. remember (groups m) as gs eqn:G. clear H G.
  unfold daysLaterRe, cat, oneOf, digits, spaces in M; cbn [fold_right] in M.
  take_apart.
  all: cbn [group Nat.eqb parseIntOf]; now apply parseInt_figures.
Qed.

Lemma weeksLater_capture s m :
  jsMatch s weeksLaterRe = Some m ->
  exists n, parseIntOf (capture m 1) = Some n /\ 0 <= n.
Proof.
  intros H. destruct (jsMatch_some _ _ _ H) as (pre & w & post & _ & M & _).
  unfold capture. remember (groups m) as gs eqn:G. clear H G.
  unfold weeksLaterRe, cat, oneOf, digits, spaces in M; cbn [fold_right] in M.
  take_apart.
  all: cbn [group Nat.eqb parseIntOf]; now apply parseInt_figures.
Qed.

(** X2: when 'N일 뒤' (or 후, or days) is the first date pattern to
    match, N is read as a number that is not negative, and the result
    is the clock reading moved N days ahead, at the same time of day;
    when that instant is beyond the range of time values the result is
    an invalid date, not an exception. *)
Theorem X2_days_later (now : Z) (text : str) (m : MatchResult) :
  Z.abs now <= maxTime ->
  noLiteralDay (toLowerCase text) ->
  (forall name day, In (name, day) dayMap ->
                    includes name (toLowerCase text) = false) ->
  jsMatch (toLowerCase text) daysLaterRe = Some m ->
  exists n,
    parseIntOf (capture m 1) = Some n /\ 0 <= n /\
    parseKoreanDate now text =
      Some (if Z.abs (now + n * msPerDay) <=? maxTime
            then DateAt (now + n * msPerDay) else InvalidDate).
Proof.
  intros R (H1 & H2 & H3) W Hm.
  destruct (daysLater_capture _ _ Hm) as (n & Hn & N0).
  exists n. split; [exact Hn|]. split; [exact N0|].
  unfold parseKoreanDate.
  rewrite H1, H2, H3, (no_weekday_find _ W), Hm, Hn.
  cbn [addDaysOf]. now rewrite addDays_value.
Qed.

(** X3: when 'N주 뒤' (or 주일, weeks, 후) is the first date pattern to
    match, the result is the clock reading moved 7 N days ahead, or an
    invalid date when that is beyond the range of time values. *)
Theorem X3_weeks_later (now : Z) (text : str) (m : MatchResult) :
  Z.abs now <= maxTime ->
  noLiteralDay (toLowerCase text) ->
  (forall name day, In (name, day) dayMap ->
                    includes name (toLowerCase text) = false) ->
  jsMatch (toLowerCase text) daysLaterRe = None ->
  jsMatch (toLowerCase text) weeksLaterRe = Some m ->
  exists n,
    parseIntOf (capture m 1) = Some n /\ 0 <= n /\
    parseKoreanDate now text =
      Some (if Z.abs (now + 7 * n * msPerDay) <=? maxTime
            then DateAt (now + 7 * n * msPerDay) else InvalidDate).
Proof.
  intros R (H1 & H2 & H3) W Hd Hm.
  destruct (weeksLater_capture _ _ Hm) as (n & Hn & N0).
  exists n. split; [exact Hn|]. split; [exact N0|].
  unfold parseKoreanDate.
  rewrite H1, H2, H3, (no_weekday_find _ W), Hd, Hm, Hn.
  cbn [addWeeksOf]. unfold addWeeks. rewrite addDays_value by exact R.
  replace (n * 7 * msPerDay) with (7 * n * msPerDay) by lia. reflexivity.
Qed.

End RelativeDates.

(** On 3 November 2026, 10:00 in Seoul: "내일 오후 2시 회의". *)
Lemma X1_literal_day_words_witness :
  let now := seoulTime 2026 10 3 10 0 in
  let text := js "내일 오후 2시 회의" in
  (includes (js "오늘") (@toLowerCase seoul text) = true ->
   @parseKoreanDate seoul now text = Some (DateAt now)) /\
  (includes (js "오늘") (@toLowerCase seoul text) = false ->
   includes (js "내일") (@toLowerCase seoul text) = true ->
   @parseKoreanDate seoul now text = Some (DateAt (now + msPerDay))) /\
  (includes (js "오늘") (@toLowerCase seoul text) = false ->
   includes (js "내일") (@toLowerCase seoul text) = false ->
   includes (js "모레") (@toLowerCase seoul text) = true ->
   @parseKoreanDate seoul now text = Some (DateAt (now + 2 * msPerDay))).
Proof.
  apply (@X1_literal_day_words seoul). vm_compute. split; discriminate.
Defined.

(** "3일 뒤 회의": three days ahead. *)
Lemma X2_days_later_witness :
  let now := seoulTime 2026 10 3 10 0 in
  let m := {| index := 0; matched := js "3일 뒤";
              groups := [(3%nat, js "뒤"); (2%nat, js "일"); (1%nat, js "3")] |} in
  exists n,
    parseIntOf (capture m 1) = Some n /\ 0 <= n /\
    @parseKoreanDate seoul now (js "3일 뒤 회의") =
      Some (if Z.abs (now + n * msPerDay) <=? maxTime
            then DateAt (now + n * msPerDay) else InvalidDate).
Proof.
  apply (@X2_days_later seoul).
  - vm_compute. discriminate.
  - repeat split; vm_compute; reflexivity.
  - intros name day I. cbn [In dayMap] in I.
    repeat destruct I as [I | I]; inversion I; subst; vm_compute; reflexivity.
  - vm_compute. reflexivity.
Defined.

(** "2주일 뒤 회의": fourteen days ahead. *)
Lemma X3_weeks_later_witness :
  let now := seoulTime 2026 10 3 10 0 in
  let m := {| index := 0; matched := js "2주일 뒤";
              groups := [(3%nat, js "뒤"); (2%nat, js "주일"); (1%nat, js "2")] |} in
  exists n,
    parseIntOf (capture m 1) = Some n /\ 0 <= n /\
    @parseKoreanDate seoul now (js "2주일 뒤 회의") =
      Some (if Z.abs (now + 7 * n * msPerDay) <=? maxTime
            then DateAt (now + 7 * n * msPerDay) else InvalidDate).
Proof.
  apply (@X3_weeks_later seoul).
  - vm_compute. discriminate.
  - repeat split; vm_compute; reflexivity.
  - intros name day I. cbn [In dayMap] in I.
    repeat destruct I as [I | I]; inversion I; subst; vm_compute; reflexivity.
  - vm_compute. reflexivity.
  - vm_compute. reflexivity.
Defined.

(** ** parseCommand: a date with a time *)

Lemma time_of_day_fields day h mi s ms :
  0 <= h < 24 -> 0 <= mi < 60 -> 0 <= s < 60 -> 0 <= ms < 1000 ->
  let t := MakeDate day (MakeTime h mi s ms) in
  Day t = day /\ HourFromTime t = h /\ MinFromTime t = mi /\
  SecFromTime t = s /\ msFromTime t = ms.
Proof.
  intros Hh Hm Hs Hms. cbv zeta.
  unfold Day, HourFromTime, MinFromTime, SecFromTime, msFromTime, MakeDate,
    MakeTime, msPerDay, msPerHour, msPerMinute, msPerSecond.
  repeat split; Z.div_mod_to_equations; lia.
Qed.

Lemma time_of_day_ranges t :
  0 <= HourFromTime t < 24 /\ 0 <= MinFromTime t < 60 /\
  0 <= SecFromTime t < 60 /\ 0 <= msFromTime t < 1000.
Proof.
  unfold HourFromTime, MinFromTime, SecFromTime, msFromTime, msPerHour,
    msPerMinute, msPerSecond.
  repeat split; Z.div_mod_to_equations; lia.
Qed.

(** The year, the month and the day of the month depend on the day
    number only. *)
Lemma same_day_same_date t t' :
  Day t = Day t' ->
  YearFromTime t = YearFromTime t' /\ MonthFromTime t = MonthFromTime t' /\
  DateFromTime t = DateFromTime t'.
Proof.
  intros E.
  assert (Y : YearFromTime t = YearFromTime t')
    by (unfold YearFromTime; now rewrite E).
  assert (W : DayWithinYear t = DayWithinYear t')
    by (unfold DayWithinYear; now rewrite E, Y).
  assert (L : InLeapYear t = InLeapYear t')
    by (unfold InLeapYear; now rewrite Y).
  assert (M : MonthFromTime t = MonthFromTime t')
    by (unfold MonthFromTime; now rewrite L, W).
  repeat split; try assumption.
  unfold DateFromTime. now rewrite W, L, M.
Qed.

Lemma MakeDate_near day tod l :
  Day l = day -> 0 <= tod < msPerDay -> Z.abs (MakeDate day tod - l) < msPerDay.
Proof.
  intros <- T. pose proof (Day_split l) as S.
  pose proof (TimeWithinDay_range l) as W.
  unfold MakeDate in *. lia.
Qed.

Lemma MakeTime_range h mi s ms :
  0 <= h < 24 -> 0 <= mi < 60 -> 0 <= s < 60 -> 0 <= ms < 1000 ->
  0 <= MakeTime h mi s ms < msPerDay.
Proof.
  unfold MakeTime, msPerDay, msPerHour, msPerMinute, msPerSecond. lia.
Qed.

Section DateWithTime.

Context {host : Host}.

(** [setHours] with an hour of the day, on local time values. *)
Lemma setHours_local t h :
  0 <= h < 24 -> Z.abs t <= maxTime - msPerDay ->
  exists r,
    setHours_ t h = DateAt r /\
    Z.abs (r - t) < msPerDay /\
    Day (LocalTime r) = Day (LocalTime t) /\
    HourFromTime (LocalTime r) = h /\
    MinFromTime (LocalTime r) = MinFromTime (LocalTime t) /\
    SecFromTime (LocalTime r) = SecFromTime (LocalTime t) /\
    msFromTime (LocalTime r) = msFromTime (LocalTime t).
Proof.
  intros Hh R. set (l := LocalTime t).
  destruct (time_of_day_ranges l) as (_ & Rm & Rs & Rms).
  pose proof (MakeTime_range h _ _ _ Hh Rm Rs Rms) as T.
  pose proof (MakeDate_near (Day l) _ l eq_refl T) as N.
  destruct (time_of_day_fields (Day l) h _ _ _ Hh Rm Rs Rms)
    as (F1 & F2 & F3 & F4 & F5).
  exists (UTC (MakeDate (Day l)
            (MakeTime h (MinFromTime l) (SecFromTime l) (msFromTime l)))).
  rewrite LocalTime_UTC. repeat split; try assumption.
  - unfold setHours_. fold l. apply TimeClip_in_range.
    unfold UTC, l, LocalTime in *. unfold msPerDay, maxTime in *. lia.
  - unfold UTC, l, LocalTime in *. lia.
Qed.

Lemma setMinutes_local t mi :
  0 <= mi < 60 -> Z.abs t <= maxTime - msPerDay ->
  exists r,
    setMinutes_ t mi = DateAt r /\
    Z.abs (r - t) < msPerDay /\
    Day (LocalTime r) = Day (LocalTime t) /\
    HourFromTime (LocalTime r) = HourFromTime (LocalTime t) /\
    MinFromTime (LocalTime r) = mi /\
    SecFromTime (LocalTime r) = SecFromTime (LocalTime t) /\
    msFromTime (LocalTime r) = msFromTime (LocalTime t).
Proof.
  intros Hm R. set (l := LocalTime t).
  destruct (time_of_day_ranges l) as (Rh & _ & Rs & Rms).
  pose proof (MakeTime_range _ mi _ _ Rh Hm Rs Rms) as T.
  pose proof (MakeDate_near (Day l) _ l eq_refl T) as N.
  destruct (time_of_day_fields (Day l) _ mi _ _ Rh Hm Rs Rms)
    as (F1 & F2 & F3 & F4 & F5).
  exists (UTC (MakeDate (Day l)
            (MakeTime (HourFromTime l) mi (SecFromTime l) (msFromTime l)))).
  rewrite LocalTime_UTC. repeat split; try assumption.
  - unfold setMinutes_. fold l. apply TimeClip_in_range.
    unfold UTC, l, LocalTime in *. unfold msPerDay, maxTime in *. lia.
  - unfold UTC, l, LocalTime in *. lia.
Qed.

End DateWithTime.

Section CommandDateTime.

Context {host : Host}.

Lemma set_clock_fields d h mi :
  0 <= h < 24 -> 0 <= mi < 60 -> Z.abs d <= maxTime - 2 * msPerDay ->
  exists r,
    setMinutesOf (setHoursOf (DateAt d) (Some h)) (Some mi) = DateAt r /\
    getFullYear r = getFullYear d /\ getMonth r = getMonth d /\
    getDate r = getDate d /\
    getHours r = h /\ getMinutes r = mi /\
    getSeconds r = getSeconds d /\ getMilliseconds r = getMilliseconds d.
Proof.
  intros Hh Hm R.
  destruct (setHours_local d h Hh) as (r1 & E1 & N1 & D1 & H1 & M1 & S1 & L1);
    [unfold msPerDay, maxTime in *; lia |].
  destruct (setMinutes_local r1 mi Hm) as (r & E2 & N2 & D2 & H2 & M2 & S2 & L2);
    [unfold msPerDay, maxTime in *; lia |].
  exists r. unfold setMinutesOf, setHoursOf, setHours, setMinutes.
  rewrite E1, E2.
  destruct (same_day_same_date (LocalTime r) (LocalTime d)) as (Y & Mo & Da);
    [congruence |].
  unfold getFullYear, getMonth, getDate, getHours, getMinutes, getSeconds,
    getMilliseconds.
  repeat split; congruence.
Qed.

(** X8 (parseCommand, date and time together).  When a command carries
    both a date and a clock time with an hour below 24 and a minute below
    60, the date of the parsed command is the parsed date with its hour
    and minute replaced: same year, month and day of the month, the
    parsed hour and minute, the seconds and milliseconds of the parsed
    date; and the time of the command is the text 'H:MM', the minute
    padded to two figures. *)
Theorem X8_command_date_with_time (now : Z) (message : str) (d h mi : Z) :
  action (parseCommand now message) <> Chat ->
  parseKoreanDate now message = Some (DateAt d) ->
  parseTime message = Some {| hours := Some h; minutes := Some mi |} ->
  0 <= h < 24 -> 0 <= mi < 60 -> Z.abs d <= maxTime - 2 * msPerDay ->
  exists r,
    date (parseCommand now message) = Some (DateAt r) /\
    getFullYear r = getFullYear d /\ getMonth r = getMonth d /\
    getDate r = getDate d /\
    getHours r = h /\ getMinutes r = mi /\
    getSeconds r = getSeconds d /\ getMilliseconds r = getMilliseconds d /\
    time (parseCommand now message)
      = Some (String_ h ++ js ":" ++ padStart0 2 (String_ mi)).
Proof.
  intros NC PD PT Hh Hm R.
  destruct (set_clock_fields d h mi Hh Hm R) as (r & E & F).
  exists r. revert NC. unfold parseCommand.
  destruct (detectAction (toLowerCase message)) as [a |];
    [| intros NC; now contradiction NC].
  destruct (detectEntity (toLowerCase message)) as [e |];
    [| intros NC; now contradiction NC].
  intros _. rewrite PD, PT. cbn [date time hours minutes stringOfNum].
  rewrite E. split; [reflexivity |].
  decompose [and] F. repeat (split; [assumption |]). reflexivity.
Qed.

End CommandDateTime.

Lemma X8_command_date_with_time_witness :
  let now := seoulTime 2026 10 3 10 0 in
  let message := js "내일 오후 3시 30분에 팀 회의 일정 추가해줘" in
  exists r,
    date (parseCommand (host := seoul) now message) = Some (DateAt r) /\
    getFullYear (host := seoul) r = 2026 /\ getMonth (host := seoul) r = 10 /\
    getDate (host := seoul) r = 4 /\
    getHours (host := seoul) r = 15 /\ getMinutes (host := seoul) r = 30 /\
    time (parseCommand (host := seoul) now message) = Some (js "15:30").
Proof.
  intros now message.
  destruct (X8_command_date_with_time (host := seoul) now message
              (seoulTime 2026 10 4 10 0) 15 30)
    as (r & E & Y & M & D & H & Mi & _ & _ & T).
  - vm_compute. discriminate.
  - vm_compute. reflexivity.
  - vm_compute. reflexivity.
  - lia.
  - lia.
  - vm_compute. discriminate.
  - exists r. repeat split; assumption.
Defined.

(** ** parseCommand: the shape of every parsed command *)

Section CommandShape.

Context {host : Host}.

(** X9 (parseCommand, shape of the result).  For every message and clock
    reading: the action is never 'update'; the action is 'chat' exactly
    when there is no entity, and then the command has no title, date or
    time; the content is never set and the original message is kept; a
    command has a time only if it has a date and a clock time was read,
    so a clock time without a date is dropped; and without a clock time
    the date is what parseKoreanDate returned. *)
Theorem X9_parseCommand_shape (now : Z) (message : str) :
  let c := parseCommand now message in
  action c <> Update /\
  (action c = Chat <-> entity c = None) /\
  (action c = Chat -> title c = None /\ date c = None /\ time c = None) /\
  content c = None /\
  originalMessage c = message /\
  (time c <> None -> date c <> None /\ parseTime message <> None /\
                     parseKoreanDate now message <> None) /\
  (parseKoreanDate now message = None -> date c = None /\ time c = None) /\
  (action c <> Chat -> parseTime message = None ->
     date c = parseKoreanDate now message).
Proof.
  cbv zeta. unfold parseCommand, detectAction.
  destruct (includesAny addKeywords _);
    [| destruct (includesAny deleteKeywords _);
       [| destruct (includesAny listKeywords _)]];
  (destruct (detectEntity (toLowerCase message)) as [e |];
   [ destruct (parseKoreanDate now message) as [d |];
     destruct (parseTime message) as [t |] | ]);
  cbn [action entity title date time content originalMessage withAction];
  repeat split; try discriminate; try reflexivity; try tauto;
  try (intros; discriminate); try (intros; congruence).
Qed.

End CommandShape.

(** ** parseCommand: quoted titles *)

Lemma quoted_alternative (i : nat) (w : str) (cs : captures) :
  MatchesC (cat [ Cls isQuote; Grp i (Rep false 1 None dot); Cls isQuote ])
    w [] cs ->
  exists q1 t q2,
    w = q1 :: t ++ [q2] /\ isQuote q1 = true /\ isQuote q2 = true /\
    t <> [] /\ forallb dot t = true /\ cs = [(i, t)].
Proof.
  intros H. cbn [cat fold_right] in H. take_apart.
  match goal with
  | Q1 : isQuote ?a = true, Q2 : isQuote ?b = true,
    F : forallb dot ?t = true, L : (1 <= length ?t)%nat |- _ =>
    exists a, t, b; rewrite app_nil_r; repeat split; try assumption;
    try reflexivity; intros ->; cbn in L; lia
  end.
Qed.

Lemma quotedRe_match (message : str) (m : MatchResult) :
  jsMatch message quotedRe = Some m ->
  exists t, quotedTitle m = Some t /\ quotedIn t message.
Proof.
  intros H. destruct (jsMatch_some _ _ _ H) as (pre & w & post & -> & M & _).
  unfold quotedTitle, capture. remember (groups m) as gs eqn:G. clear H G.
  unfold quotedRe in M. apply MC_Alt_inv in M.
  destruct M as [M | M];
    apply quoted_alternative in M;
    destruct M as (q1 & t & q2 & -> & Q1 & Q2 & NE & F & ->);
    exists t; (split;
      [ cbn [group Nat.eqb]; destruct t; [now contradiction NE | reflexivity]
      | exists pre, q1, q2, post; repeat split; try assumption;
        cbn [app]; now rewrite <- app_assoc ]).
Qed.

Section QuotedTitle.

Context {host : Host}.

(** X10 (parseCommand, quoted title).  When a message that is classified
    as a command has a text of one or more characters without a line
    break between two quote characters (apostrophe or double quote), the
    title of the command
    is such a text of the message, whatever date, time or keyword words
    it contains; nothing is removed from it. *)
Theorem X10_quoted_title (now : Z) (message : str) :
  action (parseCommand now message) <> Chat ->
  (exists t, quotedIn t message) ->
  exists t, title (parseCommand now message) = Some t /\ quotedIn t message.
Proof.
  intros NC (t0 & pre & q1 & q2 & post & E & Q1 & Q2 & NE & F).
  assert (J : jsMatch message quotedRe <> None).
  { apply jsMatch_iff. exists pre, (q1 :: t0 ++ [q2]), post. split.
    - rewrite E. cbn [app]. now rewrite <- app_assoc.
    - apply M_AltL. cbn [cat fold_right].
      change (q1 :: t0 ++ [q2]) with ([q1] ++ t0 ++ [q2]).
      apply M_Seq; [now apply M_Cls |].
      apply M_Seq.
      + apply M_Grp, M_Rep; [assumption | | discriminate].
        destruct t0; [now contradiction NE | cbn; lia].
      + rewrite <- (app_nil_r [q2]). apply M_Seq; [now apply M_Cls | apply M_Eps]. }
  destruct (jsMatch message quotedRe) as [m |] eqn:Q; [| now contradiction J].
  destruct (quotedRe_match _ _ Q) as (t & T & I).
  exists t. split; [| exact I].
  revert NC. unfold parseCommand.
  destruct (detectAction (toLowerCase message)) as [a |];
    [| intros NC; now contradiction NC].
  destruct (detectEntity (toLowerCase message)) as [e |];
    [| intros NC; now contradiction NC].
  intros _. rewrite Q.
  destruct (parseTime message), (parseKoreanDate now message);
    cbn [title]; exact T.
Qed.

End QuotedTitle.

Lemma X10_quoted_title_witness :
  let now := seoulTime 2026 10 3 10 0 in
  let message := js "내일 '오늘 회의 3시' 일정 추가해줘" in
  exists t, title (parseCommand (host := seoul) now message) = Some t /\
            quotedIn t message.
Proof.
  intros now message.
  apply (X10_quoted_title (host := seoul)).
  - vm_compute. discriminate.
  - exists (js "오늘 회의 3시"), (js "내일 "), 39%N, 39%N, (js " 일정 추가해줘").
    repeat split; try (vm_compute; reflexivity). discriminate.
Defined.

(** ** trim, and the titles that parseCommand gives *)

Lemma trimStart_split (s : str) :
  exists pre, s = pre ++ trimStart s /\ forallb isSpace pre = true.
Proof.
  induction s as [| c s (pre & E & F)].
  - now exists [].
  - cbn [trimStart]. destruct (isSpace c) eqn:Sp.
    + exists (c :: pre). cbn [app forallb]. rewrite Sp, F. now rewrite <- E.
    + now exists [].
Qed.

Lemma trimStart_head (s : str) (c : char) (r : str) :
  trimStart s = c :: r -> isSpace c = false.
Proof.
  induction s as [| a s IH]; cbn [trimStart]; [discriminate |].
  destruct (isSpace a) eqn:Sp; [exact IH |].
  intros E. injection E as -> _. exact Sp.
Qed.

Lemma trim_trimmed (s : str) : trimmed (trim s).
Proof.
  unfold trim. set (u := trimStart s).
  destruct (trimStart_split (rev u)) as (pre & E & _).
  set (v := trimStart (rev u)) in *. split.
  - intros c r R.
    assert (U : u = c :: r ++ rev pre).
    { rewrite <- (rev_involutive u), E, rev_app_distr, R. reflexivity. }
    exact (trimStart_head s c _ U).
  - intros r c R.
    assert (V : v = c :: rev r).
    { rewrite <- (rev_involutive v), R, rev_app_distr. reflexivity. }
    exact (trimStart_head (rev u) c _ V).
Qed.

(** [trim] leaves a text that is trimmed already as it is. *)
Lemma trim_of_trimmed (s : str) : trimmed s -> trim s = s.
Proof.
  intros [H T].
  assert (A : forall x, (forall c r, x = c :: r -> isSpace c = false) ->
                        trimStart x = x).
  { intros [| c r] Hx; [reflexivity |]. cbn [trimStart].
    now rewrite (Hx c r eq_refl). }
  unfold trim. rewrite (A s H). rewrite A; [apply rev_involutive |].
  intros c r R. apply (T (rev r) c).
  rewrite <- (rev_involutive s), R. reflexivity.
Qed.

Section GivenTitle.

Context {host : Host}.

(** X11 (parseCommand, the title that a command carries).  A title that
    parseCommand sets is never the empty text; a title that does not
    come from a quoted part has three or more code units and neither
    begins nor ends with white space. *)
Theorem X11_title_is_usable (now : Z) (message t : str) :
  title (parseCommand now message) = Some t ->
  t <> [] /\
  (jsMatch message quotedRe = None -> (3 <= length t)%nat /\ trimmed t).
Proof.
  unfold parseCommand.
  destruct (detectAction (toLowerCase message)) as [a |]; [| discriminate].
  destruct (detectEntity (toLowerCase message)) as [e |]; [| discriminate].
  destruct (jsMatch message quotedRe) as [m |] eqn:Q.
  - destruct (quotedRe_match _ _ Q) as (t' & T & (_ & _ & _ & _ & _ & _ & _ & NE & _)).
    destruct (parseTime message), (parseKoreanDate now message);
      cbn [title]; rewrite T; intros E; injection E as <-;
      (split; [exact NE | discriminate]).
  - assert (G : (if (2 <? length (stripTitle message))%nat
                 then Some (stripTitle message) else None) = Some t ->
                t <> [] /\ (None = None :> option MatchResult ->
                            (3 <= length t)%nat /\ trimmed t)).
    { destruct (Nat.ltb_spec 2 (length (stripTitle message))) as [L | L];
        [| discriminate].
      intros E. injection E as <-. split.
      - intros Z. rewrite Z in L. cbn in L. lia.
      - intros _. split; [lia | apply trim_trimmed]. }
    destruct (parseTime message), (parseKoreanDate now message);
      cbn [title]; exact G.
Qed.

End GivenTitle.

Lemma X11_title_is_usable_witness :
  let message := js "금요일까지 보고서 작성 할 일 추가해줘" in
  let t := js "까지 보고서 작성" in
  t <> [] /\
  (jsMatch message quotedRe = None -> (3 <= length t)%nat /\ trimmed t).
Proof.
  intros message t.
  apply (X11_title_is_usable (host := seoul) (seoulTime 2026 10 3 10 0) message).
  vm_compute. reflexivity.
Defined.

(** ** The add commands *)

Section AddCommands.

Context {host : Host}.

Lemma noTitle_none (c : ParsedCommand) : title c = None -> noTitle c = true.
Proof. unfold noTitle. now intros ->. Qed.

Lemma noTitle_some (c : ParsedCommand) (t : str) :
  title c = Some t -> t <> [] -> noTitle c = false /\ orElse (title c) [] = t.
Proof.
  unfold noTitle. intros -> NE. destruct t; [now contradiction NE |].
  split; reflexivity.
Qed.

(** X12 (sendMessage, an add command without a title).  When a message
    is classified as the addition of an event or of a task and the
    parser gives it no title, sendMessage returns the request for a
    title together with the parsed command, and makes no call after the
    reading of the clock by the parser, which is the [now] of the model:
    nothing is inserted and the chat model is not called. *)
Theorem X12_add_without_title (now : Z) (message : str) :
  let c := parseCommand now message in
  action c = Add -> title c = None ->
  (entity c = Some Event ->
   sendMessage now message
   = Ret {| response := askEventTitle; command := Some c |}) /\
  (entity c = Some Todo ->
   sendMessage now message
   = Ret {| response := askTodoTitle; command := Some c |}).
Proof.
  cbv zeta. intros A T. pose proof (noTitle_none _ T) as N.
  split; intros E; unfold sendMessage, executeCommand, addEvent, addTodo;
    cbv zeta; rewrite A, E, N; reflexivity.
Qed.

End AddCommands.

(** The example that the request for a title itself gives, "내일 오후
    2시에 팀 미팅 일정 추가해줘", is such a message: the removals leave
    the one-character title 팀. *)
Lemma X12_add_without_title_witness :
  let now := seoulTime 2026 10 3 10 0 in
  let message := js "내일 오후 2시에 팀 미팅 일정 추가해줘" in
  sendMessage (host := seoul) now message
  = Ret {| response := askEventTitle;
           command := Some (parseCommand (host := seoul) now message) |}.
Proof.
  intros now message.
  apply (X12_add_without_title (host := seoul) now message);
    vm_compute; reflexivity.
Defined.

Section AddEvent.

Context {host : Host}.

Lemma addDays_zero (d : Date) : addDays d 0 = d.
Proof. destruct d; reflexivity. Qed.

(** X13 (executeCommand, addition of an event).  For a command that adds
    an event with a title and a valid date, or with no date, in which
    case the clock is read and the event starts now: exactly one event
    is inserted, a personal event of that title whose end is its start;
    when the store answers without an error the text is the success
    text with the title and the start as 'M월 d일 HH:mm'; when it answers
    with an error or the call is rejected, the error is logged once and
    the text is the failure message. *)
Theorem X13_add_event (w : World) (c : ParsedCommand) (ttl : str) (t : Z) :
  action c = Add -> entity c = Some Event ->
  title c = Some ttl -> ttl <> [] ->
  date c = Some (DateAt t) \/ (date c = None /\ w _ NewDate = t) ->
  let row :=
    {| NewEventRow.title := ttl;
       NewEventRow.start_date := t;
       NewEventRow.end_date := t;
       NewEventRow.type := js "personal";
       NewEventRow.color :=
         js "bg-blue-100 text-blue-700 border-l-4 border-blue-600" |} in
  let read :=
    match date c with None => [Called NewDate] | Some _ => [] end in
  let failed (e : JsError) :=
    (read ++ [Called (InsertEvent row);
              Called (ConsoleError (js "명령 실행 오류:") e)],
     inl commandFailed) in
  run w (executeCommand c)
  = match w _ (InsertEvent row) with
    | Fulfilled r =>
      match error r with
      | None =>
        (read ++ [Called (InsertEvent row)],
         inl (js "✅ 일정이 추가되었습니다!" ++ nl ++ nl ++ js "📅 **" ++ ttl
              ++ js "**" ++ nl ++ js "⏰ "
              ++ concat (map (formatToken t) fmtEventAdded)))
      | Some e => failed e
      end
    | Rejected e => failed e
    end.
Proof.
  intros A E T NE D. cbv zeta.
  destruct (noTitle_some c ttl T NE) as [N O].
  unfold executeCommand, addEvent. rewrite A, E, N, O.
  destruct D as [D | [D <-]]; rewrite D;
    cbn [bind perform tryCatch run]; rewrite addDays_zero;
    cbn [calendarService.createEvent toISOString bind await tryCatch run
         NewEvent.title NewEvent.startDate NewEvent.endDate NewEvent.type
         NewEvent.color];
    match goal with
    | |- context [w _ (InsertEvent ?r)] =>
      destruct (w _ (InsertEvent r)) as [[dt [e |]] | e]
    end;
    cbn [bind tryCatch run error logAndFail perform formatDate format app];
    reflexivity.
Qed.

End AddEvent.

(** "내일 '팀 회의' 일정 추가해줘", said on 3 November 2026 at 10:00 in
    Seoul, against a store that accepts the insert. *)
Lemma X13_add_event_witness :
  let now := seoulTime 2026 10 3 10 0 in
  let c := parseCommand (host := seoul) now (js "내일 '팀 회의' 일정 추가해줘") in
  let w := worldOf {| selectTodos := nothing; selectEvents := nothing;
                      insertTodo := nothing; insertEvent := nothing;
                      insertMemo := nothing; geminiChat := Fulfilled [];
                      clock := now |} in
  run w (executeCommand (host := seoul) c)
  = ([Called (InsertEvent
        {| NewEventRow.title := js "팀 회의";
           NewEventRow.start_date := seoulTime 2026 10 4 10 0;
           NewEventRow.end_date := seoulTime 2026 10 4 10 0;
           NewEventRow.type := js "personal";
           NewEventRow.color :=
             js "bg-blue-100 text-blue-700 border-l-4 border-blue-600" |})],
     inl (js "✅ 일정이 추가되었습니다!" ++ nl ++ nl ++ js "📅 **팀 회의**"
          ++ nl ++ js "⏰ 11월 4일 10:00")).
Proof.
  intros now c w.
  pose proof (X13_add_event (host := seoul) w c (js "팀 회의")
                (seoulTime 2026 10 4 10 0)) as H.
  cbv zeta in H. rewrite H.
  - vm_compute. reflexivity.
  - vm_compute. reflexivity.
  - vm_compute. reflexivity.
  - vm_compute. reflexivity.
  - discriminate.
  - left. vm_compute. reflexivity.
Defined.

Section InvalidDates.

Context {host : Host}.

Lemma parsed_title_not_empty (now : Z) (message t : str) :
  title (parseCommand now message) = Some t -> t <> [].
Proof.
  unfold parseCommand.
  destruct (detectAction (toLowerCase message)) as [a |]; [| discriminate].
  destruct (detectEntity (toLowerCase message)) as [e |]; [| discriminate].
  destruct (jsMatch message quotedRe) as [m |] eqn:Q.
  - destruct (quotedRe_match _ _ Q) as (t' & T & (_ & _ & _ & _ & _ & _ & _ & NE & _)).
    destruct (parseTime message), (parseKoreanDate now message);
      cbn [title]; rewrite T; intros E; injection E as <-; exact NE.
  - assert (G : (if (2 <? length (stripTitle message))%nat
                 then Some (stripTitle message) else None) = Some t -> t <> []).
    { destruct (Nat.ltb_spec 2 (length (stripTitle message))) as [L | L];
        [| discriminate].
      intros E. injection E as <-. intros Z. rewrite Z in L. cbn in L. lia. }
    destruct (parseTime message), (parseKoreanDate now message);
      cbn [title]; exact G.
Qed.

(** X14 (sendMessage, a command whose date is invalid).  When a message
    is classified as the addition of an event or of a task, has a title,
    and its date is an Invalid Date (as after 'N일 뒤' with N beyond the
    range of dates), nothing is inserted: after the reading of the clock
    by the parser, which is the [now] of the model, the only call is the
    line on the console that logs the RangeError of the date, and the
    response is the failure message, with the parsed command. *)
Theorem X14_invalid_date_inserts_nothing (w : World) (now : Z) (message : str) :
  let c := parseCommand now message in
  action c = Add ->
  entity c = Some Event \/ entity c = Some Todo ->
  title c <> None ->
  date c = Some InvalidDate ->
  run w (sendMessage now message)
  = ([Called (ConsoleError (js "명령 실행 오류:") rangeError)],
     inl {| response := commandFailed; command := Some c |}).
Proof.
  cbv zeta. intros A E T D.
  destruct (title (parseCommand now message)) as [ttl |] eqn:Tt;
    [| now contradiction T].
  pose proof (parsed_title_not_empty _ _ _ Tt) as NE.
  destruct (noTitle_some _ ttl Tt NE) as [N O].
  unfold sendMessage, executeCommand, addEvent, addTodo. cbv zeta.
  destruct E as [E | E]; rewrite A, E, N, D; reflexivity.
Qed.

End InvalidDates.

(** "999999999일 뒤 '회의' 일정 추가해줘": the day that many days from
    now is outside the range of dates. *)
Lemma X14_invalid_date_inserts_nothing_witness :
  let now := seoulTime 2026 10 3 10 0 in
  let message := js "999999999일 뒤 '회의' 일정 추가해줘" in
  let w := worldOf {| selectTodos := nothing; selectEvents := nothing;
                      insertTodo := nothing; insertEvent := nothing;
                      insertMemo := nothing; geminiChat := Fulfilled [];
                      clock := now |} in
  run w (sendMessage (host := seoul) now message)
  = ([Called (ConsoleError (js "명령 실행 오류:") rangeError)],
     inl {| response := commandFailed;
            command := Some (parseCommand (host := seoul) now message) |}).
Proof.
  intros now message w.
  apply (X14_invalid_date_inserts_nothing (host := seoul) w now message).
  - vm_compute. reflexivity.
  - left. vm_compute. reflexivity.
  - vm_compute. discriminate.
  - vm_compute. reflexivity.
Defined.

Section AddTodo.

Context {host : Host}.

(** The insert of [createTodo] and what [addTodo] makes of its answer,
    for a due date and a day already printed. *)
Lemma addTodo_insert (w : World) (ttl due shown : str) :
  let row :=
    {| NewTodo.title := ttl;
       NewTodo.description := [];
       NewTodo.project := js "기타";
       NewTodo.dueDate := due;
       NewTodo.status := js "대기";
       NewTodo.priority := js "중";
       NewTodo.assignee := js "나" |} in
  let text :=
    js "✅ 할 일이 추가되었습니다!" ++ nl ++ nl ++ js "📝 **" ++ ttl
    ++ js "**" ++ nl ++ js "📆 마감일: " ++ shown in
  let failed (e : JsError) :=
    ([Called (InsertTodo row);
      Called (ConsoleError (js "명령 실행 오류:") e)],
     inl commandFailed) in
  run w (tryCatch
           (r <- todoService.createTodo
                   {| NewTodo.title := ttl;
                      NewTodo.dueDate := due;
                      NewTodo.status := js "대기";
                      NewTodo.priority := js "중";
                      NewTodo.project := js "기타";
                      NewTodo.assignee := js "나";
                      NewTodo.description := [] |} ;;
            match error r with
            | Some e => Throw e
            | None => Ret text
            end)
           logAndFail)
  = match w _ (InsertTodo row) with
    | Fulfilled r =>
      match error r with
      | None => ([Called (InsertTodo row)], inl text)
      | Some e => failed e
      end
    | Rejected e => failed e
    end.
Proof.
  cbv zeta.
  cbn [todoService.createTodo await bind tryCatch run orElse truthy
       NewTodo.title NewTodo.description NewTodo.project
       NewTodo.dueDate NewTodo.status NewTodo.priority NewTodo.assignee].
  match goal with
  | |- context [w _ (InsertTodo ?r)] =>
    generalize (w _ (InsertTodo r))
  end.
  intros [[dt [e |]] | e]; reflexivity.
Qed.

Lemma tomorrow_value (now : Z) :
  Z.abs now <= maxTime - msPerDay ->
  addDays (DateAt now) 1 = DateAt (now + msPerDay).
Proof.
  intros R. rewrite addDays_value by (unfold msPerDay, maxTime in *; lia).
  rewrite Z.mul_1_l. apply TimeClip_in_range.
  unfold msPerDay, maxTime in *; lia.
Qed.

(** A clock reading at the head of a guarded program. *)
Lemma run_clock {A B : Type} (w : World) (f : Z -> A) (g : A -> Prog B)
    (h : JsError -> Prog B) :
  run w (tryCatch (bind (bind (perform NewDate) (fun now => Ret (f now))) g) h)
  = let (tr, r) := run w (tryCatch (g (f (w _ NewDate))) h) in
    (Called NewDate :: tr, r).
Proof. reflexivity. Qed.

(** X15 (executeCommand, addition of a task).  For a command that adds a
    task with a title and a valid date, or with no date, in which case
    the clock is read and the task is due one day from now: exactly one
    task is inserted, with that title, no description, project 기타,
    status 대기, priority 중, assignee 나 and the due date printed as
    yyyy-MM-ddTHH:mm in local time; when the store answers without an
    error the text is the success text with the title and the due date
    as 'M월 d일'; when it answers with an error or the call is rejected,
    the error is logged once and the text is the failure message. *)
Theorem X15_add_todo (w : World) (c : ParsedCommand) (ttl : str) (t : Z) :
  action c = Add -> entity c = Some Todo ->
  title c = Some ttl -> ttl <> [] ->
  date c = Some (DateAt t) \/
  (date c = None /\ Z.abs (w _ NewDate) <= maxTime - msPerDay /\
   t = w _ NewDate + msPerDay) ->
  let row :=
    {| NewTodo.title := ttl;
       NewTodo.description := [];
       NewTodo.project := js "기타";
       NewTodo.dueDate := concat (map (formatToken t) fmtDueDate);
       NewTodo.status := js "대기";
       NewTodo.priority := js "중";
       NewTodo.assignee := js "나" |} in
  let read :=
    match date c with None => [Called NewDate] | Some _ => [] end in
  let failed (e : JsError) :=
    (read ++ [Called (InsertTodo row);
              Called (ConsoleError (js "명령 실행 오류:") e)],
     inl commandFailed) in
  run w (executeCommand c)
  = match w _ (InsertTodo row) with
    | Fulfilled r =>
      match error r with
      | None =>
        (read ++ [Called (InsertTodo row)],
         inl (js "✅ 할 일이 추가되었습니다!" ++ nl ++ nl ++ js "📝 **" ++ ttl
              ++ js "**" ++ nl ++ js "📆 마감일: "
              ++ concat (map (formatToken t) fmtTodoAdded)))
      | Some e => failed e
      end
    | Rejected e => failed e
    end.
Proof.
  intros A E T NE D. cbv zeta.
  destruct (noTitle_some c ttl T NE) as [N O].
  unfold executeCommand, addTodo. rewrite A, E, N, O.
  destruct D as [D | (D & R & Et)]; rewrite D.
  - cbn [formatDate format bind].
    rewrite addTodo_insert. reflexivity.
  - rewrite (run_clock w (fun now => addDays (DateAt now) 1)).
    cbv beta. rewrite (tomorrow_value _ R), <- Et.
    cbn [formatDate format bind].
    rewrite addTodo_insert.
    destruct (w _ (InsertTodo _)) as [[dt [e |]] | e]; reflexivity.
Qed.

End AddTodo.

(** "금요일까지 보고서 작성 할 일 추가해줘", said on Tuesday 3 November
    2026 at 10:00 in Seoul, against a store that accepts the insert: the
    task 까지 보고서 작성 is due on Friday 6 November at 10:00. *)
Lemma X15_add_todo_witness :
  let now := seoulTime 2026 10 3 10 0 in
  let c := parseCommand (host := seoul) now
             (js "금요일까지 보고서 작성 할 일 추가해줘") in
  let w := worldOf {| selectTodos := nothing; selectEvents := nothing;
                      insertTodo := nothing; insertEvent := nothing;
                      insertMemo := nothing; geminiChat := Fulfilled [];
                      clock := now |} in
  run w (executeCommand (host := seoul) c)
  = ([Called (InsertTodo
        {| NewTodo.title := js "까지 보고서 작성";
           NewTodo.description := [];
           NewTodo.project := js "기타";
           NewTodo.dueDate := js "2026-11-06T10:00";
           NewTodo.status := js "대기";
           NewTodo.priority := js "중";
           NewTodo.assignee := js "나" |})],
     inl (js "✅ 할 일이 추가되었습니다!" ++ nl ++ nl
          ++ js "📝 **까지 보고서 작성**" ++ nl ++ js "📆 마감일: 11월 6일")).
Proof.
  intros now c w.
  pose proof (X15_add_todo (host := seoul) w c (js "까지 보고서 작성")
                (seoulTime 2026 10 6 10 0)) as H.
  cbv zeta in H. rewrite H.
  - vm_compute. reflexivity.
  - vm_compute. reflexivity.
  - vm_compute. reflexivity.
  - vm_compute. reflexivity.
  - discriminate.
  - left. vm_compute. reflexivity.
Defined.

(** ** Runs of composed programs *)

Lemma run_bind {A B : Type} (w : World) (p : Prog A) (f : A -> Prog B) :
  run w (bind p f)
  = match run w p with
    | (tr, inl a) => let (tr', r) := run w (f a) in (tr ++ tr', r)
    | (tr, inr e) => (tr, inr e)
    end.
Proof.
  induction p as [a | e | X c k IH]; cbn [bind run].
  - destruct (run w (f a)). reflexivity.
  - reflexivity.
  - rewrite IH. destruct (run w (k (w X c))) as [tr [a | e]].
    + destruct (run w (f a)). reflexivity.
    + reflexivity.
Qed.

Lemma run_tryCatch {A : Type} (w : World) (p : Prog A)
    (h : JsError -> Prog A) :
  run w (tryCatch p h)
  = match run w p with
    | (tr, inl a) => (tr, inl a)
    | (tr, inr e) => let (tr', r) := run w (h e) in (tr ++ tr', r)
    end.
Proof.
  induction p as [a | e | X c k IH]; cbn [tryCatch run].
  - reflexivity.
  - destruct (run w (h e)). reflexivity.
  - rewrite IH. destruct (run w (k (w X c))) as [tr [a | e]].
    + reflexivity.
    + destruct (run w (h e)). reflexivity.
Qed.

Section CommandRuns.

Context {host : Host}.

(** When the executor ends with a text that is not empty, sendMessage
    makes the calls of the executor and no other, and answers with that
    text and the parsed command. *)
Lemma sendMessage_run_command (w : World) (now : Z) (message : str)
    (tr : list Performed) (s : str) :
  let c := parseCommand now message in
  action c <> Chat -> entity c <> None ->
  run w (executeCommand c) = (tr, inl s) -> s <> [] ->
  run w (sendMessage now message)
  = (tr, inl {| response := s; command := Some c |}).
Proof.
  cbv zeta. intros A E R NE. unfold sendMessage. cbv zeta.
  assert (G : forall p : Prog Response,
            run w (tryCatch
                     (result <- executeCommand (parseCommand now message) ;;
                      if truthy result
                      then Ret {| response := result;
                                  command := Some (parseCommand now message) |}
                      else p)
                     apologise)
            = (tr, inl {| response := s;
                          command := Some (parseCommand now message) |})).
  { intros p. rewrite run_tryCatch, run_bind, R.
    destruct s; [now contradiction NE |]. cbn [truthy run].
    now rewrite app_nil_r. }
  destruct (action (parseCommand now message)) eqn:Ea;
    try (now contradiction A);
    (destruct (entity (parseCommand now message)) eqn:Ee;
     [apply G | now contradiction E]).
Qed.

Lemma parsed_without_content (now : Z) (message : str) :
  content (parseCommand now message) = None /\
  originalMessage (parseCommand now message) = message.
Proof.
  unfold parseCommand.
  destruct (detectAction (toLowerCase message)) as [a |]; [| now split].
  destruct (detectEntity (toLowerCase message)) as [e |]; [| now split].
  destruct (parseTime message), (parseKoreanDate now message); now split.
Qed.

Lemma orElse_empty (s : str) : orElse (Some s) [] = s.
Proof. destruct s; reflexivity. Qed.

Lemma orElse_default (s d : str) : d <> [] -> orElse (Some d) s = d.
Proof. destruct d; [now intros [] | reflexivity]. Qed.

End CommandRuns.

Section AddMemo.

Context {host : Host}.

(** The insert of [createMemo] and what [addMemo] makes of its answer. *)
Lemma addMemo_insert (w : World) (ttl text : str) :
  ttl <> [] ->
  let row :=
    {| NewMemoRow.title := ttl;
       NewMemoRow.content := text;
       NewMemoRow.tags := [];
       NewMemoRow.is_pinned := false;
       NewMemoRow.updated_at := w _ NewDate;
       NewMemoRow.group := js "기본 그룹" |} in
  let saved :=
    js "✅ 메모가 저장되었습니다!" ++ nl ++ nl ++ js "📝 **" ++ ttl ++ js "**" in
  run w (tryCatch
           (r <- memoService.createMemo
                   {| NewMemo.title := ttl; NewMemo.content := text;
                      NewMemo.tags := Some []; NewMemo.isPinned := Some false;
                      NewMemo.group := None |} ;;
            match error r with
            | Some e => Throw e
            | None => Ret saved
            end)
           logAndFail)
  = match w _ (InsertMemo row) with
    | Fulfilled r =>
      match error r with
      | None =>
        ([Called NewDate; Called (InsertMemo row)] ++ stampCalls (data r),
         inl saved)
      | Some e =>
        ([Called NewDate; Called (InsertMemo row);
          Called (ConsoleError (js "메모 생성 에러:") e);
          Called (ConsoleError (js "명령 실행 오류:") e)],
         inl commandFailed)
      end
    | Rejected e =>
      ([Called NewDate; Called (InsertMemo row);
        Called (ConsoleError (js "명령 실행 오류:") e)],
       inl commandFailed)
    end.
Proof.
  intros NE. cbv zeta. unfold memoService.createMemo.
  cbn [NewMemo.title NewMemo.content NewMemo.tags NewMemo.isPinned
       NewMemo.group nth_error].
  rewrite (orElse_default _ ttl NE), orElse_empty.
  cbn [orElse perform await bind tryCatch run].
  match goal with
  | |- context [w _ (InsertMemo ?r)] => generalize (w _ (InsertMemo r))
  end.
  intros [[dt [e |]] | e]; try reflexivity.
  destruct dt as [memo |]; [| reflexivity].
  cbn [error data bind tryCatch run].
  unfold stampCalls, memoService.stamp.
  destruct (MemoRow.updated_at memo) as [s |];
    [destruct (truthy s) |]; reflexivity.
Qed.

(** X16 (sendMessage, addition of a memo).  A message classified as the
    addition of a memo is never asked for a title.  After the reading of
    the clock by the parser, which is the [now] of the model, createMemo
    reads the clock and one memo is inserted, whose title is the parsed
    title or 새 메모, whose content is the whole message as it was sent,
    with no tag, not pinned, in the group 기본 그룹, updated at that
    clock reading.  When the store answers without an error, the only
    call that can follow is one more reading of the clock, made exactly
    when the answer has a row without an updated_at, and the response
    is the success text with the title; when the store answers with an
    error, the error is logged twice, by createMemo and by
    executeCommand; when the call is rejected it is logged once; in
    both cases the response is the failure message.  The parsed command
    is returned in each case and the chat model is never called. *)
Theorem X16_add_memo (w : World) (now : Z) (message : str) :
  let c := parseCommand now message in
  action c = Add -> entity c = Some Memo ->
  let ttl := match title c with Some t => t | None => js "새 메모" end in
  let row :=
    {| NewMemoRow.title := ttl;
       NewMemoRow.content := message;
       NewMemoRow.tags := [];
       NewMemoRow.is_pinned := false;
       NewMemoRow.updated_at := w _ NewDate;
       NewMemoRow.group := js "기본 그룹" |} in
  let failed :=
    inl {| response := commandFailed; command := Some c |} in
  run w (sendMessage now message)
  = match w _ (InsertMemo row) with
    | Fulfilled r =>
      match error r with
      | None =>
        ([Called NewDate; Called (InsertMemo row)] ++ stampCalls (data r),
         inl {| response :=
                  js "✅ 메모가 저장되었습니다!" ++ nl ++ nl ++ js "📝 **"
                  ++ ttl ++ js "**";
                command := Some c |})
      | Some e =>
        ([Called NewDate; Called (InsertMemo row);
          Called (ConsoleError (js "메모 생성 에러:") e);
          Called (ConsoleError (js "명령 실행 오류:") e)], failed)
      end
    | Rejected e =>
      ([Called NewDate; Called (InsertMemo row);
        Called (ConsoleError (js "명령 실행 오류:") e)], failed)
    end.
Proof.
  cbv zeta. intros A E.
  destruct (parsed_without_content now message) as [C O].
  set (c := parseCommand now message) in *.
  set (ttl := match title c with Some t => t | None => js "새 메모" end).
  assert (NE : ttl <> []).
  { unfold ttl. destruct (title c) as [t |] eqn:T; [| discriminate].
    exact (parsed_title_not_empty _ _ _ T). }
  assert (Tt : orElse (title c) (js "새 메모") = ttl).
  { unfold ttl. destruct (title c) as [t |]; [| reflexivity].
    destruct t; [now contradiction NE | reflexivity]. }
  assert (X : executeCommand c
              = tryCatch
                  (r <- memoService.createMemo
                          {| NewMemo.title := ttl; NewMemo.content := message;
                             NewMemo.tags := Some [];
                             NewMemo.isPinned := Some false;
                             NewMemo.group := None |} ;;
                   match error r with
                   | Some e => Throw e
                   | None =>
                     Ret (js "✅ 메모가 저장되었습니다!" ++ nl ++ nl
                          ++ js "📝 **" ++ ttl ++ js "**")
                   end)
                  logAndFail).
  { unfold executeCommand, addMemo. rewrite A, E. cbv zeta.
    rewrite Tt, C, O. reflexivity. }
  pose proof (addMemo_insert w ttl message NE) as R. cbv zeta in R.
  rewrite <- X in R.
  assert (Ac : action c <> Chat) by (rewrite A; discriminate).
  assert (Ec : entity c <> None) by (rewrite E; discriminate).
  destruct (w _ (InsertMemo _)) as [[dt [e |]] | e]; cbn [error] in *;
    apply (sendMessage_run_command w now message _ _ Ac Ec R); discriminate.
Qed.

End AddMemo.

(** "프로젝트 아이디어 메모 추가해줘", against a store that answers the
    insert with an error, and against a store that answers it with a row
    that has no updated_at. *)
Lemma X16_add_memo_witness :
  let now := seoulTime 2026 10 3 10 0 in
  let message := js "프로젝트 아이디어 메모 추가해줘" in
  let e := {| message := Some (js "connection refused") |} in
  let store (answer : Settled (Reply MemoRow.t)) :=
    worldOf {| selectTodos := nothing; selectEvents := nothing;
               insertTodo := nothing; insertEvent := nothing;
               insertMemo := answer;
               geminiChat := Fulfilled []; clock := now |} in
  let inserted :=
    Called (InsertMemo
      {| NewMemoRow.title := js "프로젝트 아이디어";
         NewMemoRow.content := message;
         NewMemoRow.tags := [];
         NewMemoRow.is_pinned := false;
         NewMemoRow.updated_at := now;
         NewMemoRow.group := js "기본 그룹" |}) in
  let bare :=
    {| MemoRow.id := 7; MemoRow.title := Some (js "프로젝트 아이디어");
       MemoRow.content := Some message; MemoRow.tags := None;
       MemoRow.updated_at := None; MemoRow.is_pinned := None;
       MemoRow.group := None |} in
  run (store (failing (js "connection refused")))
      (sendMessage (host := seoul) now message)
  = ([Called NewDate; inserted;
      Called (ConsoleError (js "메모 생성 에러:") e);
      Called (ConsoleError (js "명령 실행 오류:") e)],
     inl {| response := commandFailed;
            command := Some (parseCommand (host := seoul) now message) |}) /\
  run (store (Fulfilled {| data := Some bare; error := None |}))
      (sendMessage (host := seoul) now message)
  = ([Called NewDate; inserted; Called NewDate],
     inl {| response :=
              js "✅ 메모가 저장되었습니다!" ++ nl ++ nl
              ++ js "📝 **프로젝트 아이디어**";
            command := Some (parseCommand (host := seoul) now message) |}).
Proof.
  intros now message e store inserted bare.
  assert (A : action (parseCommand (host := seoul) now message) = Add)
    by (vm_compute; reflexivity).
  assert (E : entity (parseCommand (host := seoul) now message) = Some Memo)
    by (vm_compute; reflexivity).
  split.
  - exact (X16_add_memo (host := seoul)
             (store (failing (js "connection refused"))) now message A E).
  - exact (X16_add_memo (host := seoul)
             (store (Fulfilled {| data := Some bare; error := None |}))
             now message A E).
Defined.

(** ** The list of events *)

Section ListEvents.

Context {host : Host}.

Lemma eventLines_all (events : list CalendarEvent.t) :
  forall (response : str) (lines : list str),
    Forall2 (fun e l => eventLine e = Some l) events lines ->
    eventLines response events = Ret (response ++ concat lines).
Proof.
  induction events as [| e es IH]; intros response lines F;
    inversion F as [| e' l es' ls L Fs]; subst.
  - cbn. now rewrite app_nil_r.
  - cbn [eventLines concat]. unfold eventLine in L.
    destruct (CalendarEvent.startDate e) as [| t]; [discriminate |].
    injection L as <-. cbn [formatDate format bind].
    rewrite (IH _ _ Fs). rewrite <- app_assoc. reflexivity.
Qed.

Lemma eventLines_invalid (events : list CalendarEvent.t) :
  forall response : str,
    Exists (fun e => CalendarEvent.startDate e = InvalidDate) events ->
    eventLines response events = Throw rangeError.
Proof.
  induction events as [| e es IH]; intros response X;
    inversion X as [e' es' I | e' es' Xs]; subst; cbn [eventLines].
  - rewrite I. reflexivity.
  - destruct (CalendarEvent.startDate e) as [| t]; [reflexivity |].
    cbn [formatDate format bind]. apply IH, Xs.
Qed.

(** X17 (executeCommand, list of events).  For a command that lists
    events, against a store that answers the query with one event or
    more: the events shown are the first five at most, in the order of
    the store, and an error that comes with them is not looked at.
    When each of them has a valid start date, the text is the header
    followed by one line per event, with its title and its start as
    'M/d HH:mm'; when one of them has an invalid start date, no event is
    listed: the RangeError is logged and the text is the failure
    message. *)
Theorem X17_list_events (w : World) (c : ParsedCommand)
    (rows : list EventRow.t) (err : option JsError) :
  action c = List -> entity c = Some Event ->
  w _ SelectEvents = Fulfilled {| data := Some rows; error := err |} ->
  rows <> [] ->
  let shown := firstn 5 (map calendarService.ofRow rows) in
  (forall lines,
     Forall2 (fun e l => eventLine e = Some l) shown lines ->
     run w (executeCommand c)
     = ([Called SelectEvents], inl (eventsHeader ++ concat lines))) /\
  (Exists (fun e => CalendarEvent.startDate e = InvalidDate) shown ->
   run w (executeCommand c)
   = ([Called SelectEvents;
       Called (ConsoleError (js "명령 실행 오류:") rangeError)],
      inl commandFailed)).
Proof.
  intros A E S NE. cbv zeta.
  assert (X : run w (executeCommand c)
              = let (tr, r) :=
                  run w (tryCatch
                           (eventLines eventsHeader
                              (firstn 5 (map calendarService.ofRow rows)))
                           logAndFail) in
                (Called SelectEvents :: tr, r)).
  { unfold executeCommand, listEvents, calendarService.getEvents.
    rewrite A, E. cbn [await bind tryCatch run]. rewrite S.
    cbn [bind tryCatch data].
    destruct rows as [| r rs]; [now contradiction NE | reflexivity]. }
  rewrite X. split.
  - intros lines F. rewrite (eventLines_all _ _ _ F). reflexivity.
  - intros I. rewrite (eventLines_invalid _ _ I). reflexivity.
Qed.

End ListEvents.

(** A store with two events, and the same store when the start date of
    the second event cannot be read. *)
Lemma X17_list_events_witness :
  let c := parseCommand (host := seoul) (seoulTime 2026 10 3 10 0)
             (js "일정 보여줘") in
  let row (title : str) (start : Date) :=
    {| EventRow.id := 1; EventRow.title := title;
       EventRow.start_date := start; EventRow.end_date := start;
       EventRow.type := js "personal"; EventRow.color := [] |} in
  let store (start : Date) :=
    worldOf {| selectTodos := nothing;
               selectEvents :=
                 Fulfilled
                   {| data := Some [row (js "회의")
                                        (DateAt (seoulTime 2026 10 4 15 30));
                                    row (js "점심") start];
                      error := None |};
               insertTodo := nothing; insertEvent := nothing;
               insertMemo := nothing; geminiChat := Fulfilled [];
               clock := 0 |} in
  run (store (DateAt (seoulTime 2026 10 5 12 0))) (executeCommand (host := seoul) c)
  = ([Called SelectEvents],
     inl (eventsHeader ++ js "• 회의 - 11/4 15:30" ++ nl
          ++ js "• 점심 - 11/5 12:00" ++ nl)) /\
  run (store InvalidDate) (executeCommand (host := seoul) c)
  = ([Called SelectEvents;
      Called (ConsoleError (js "명령 실행 오류:") rangeError)],
     inl commandFailed).
Proof.
  intros c row store.
  assert (A : action c = List) by (vm_compute; reflexivity).
  assert (E : entity c = Some Event) by (vm_compute; reflexivity).
  split.
  - refine (proj1 (X17_list_events (host := seoul)
                     (store (DateAt (seoulTime 2026 10 5 12 0))) c _ None
                     A E eq_refl _)
                  [js "• 회의 - 11/4 15:30" ++ nl; js "• 점심 - 11/5 12:00" ++ nl]
                  _).
    + discriminate.
    + repeat constructor.
  - refine (proj2 (X17_list_events (host := seoul) (store InvalidDate) c _ None
                     A E eq_refl _) _).
    + discriminate.
    + apply Exists_cons_tl, Exists_cons_hd. reflexivity.
Defined.

(** ** The calls of a program *)

Lemma Calls_bind {A B : Type} (ok : forall X : Type, Call X -> Prop)
    (P : A -> Prop) (Q : B -> Prop) (p : Prog A) (f : A -> Prog B) :
  Calls ok P p -> (forall a, P a -> Calls ok Q (f a)) ->
  Calls ok Q (bind p f).
Proof.
  intros Hp Hf. induction Hp as [a Pa | e | X c k Ok _ IH]; cbn [bind].
  - now apply Hf.
  - constructor.
  - constructor; [exact Ok | exact IH].
Qed.

Lemma CallsAndReturns_bind {A B : Type} (ok : forall X : Type, Call X -> Prop)
    (P : A -> Prop) (Q : B -> Prop) (p : Prog A) (f : A -> Prog B) :
  CallsAndReturns ok P p -> (forall a, P a -> CallsAndReturns ok Q (f a)) ->
  CallsAndReturns ok Q (bind p f).
Proof.
  intros Hp Hf. induction Hp as [a Pa | X c k Ok _ IH]; cbn [bind].
  - now apply Hf.
  - constructor; [exact Ok | exact IH].
Qed.

Lemma CallsAndReturns_tryCatch {A : Type} (ok : forall X : Type, Call X -> Prop)
    (P : A -> Prop) (p : Prog A) (h : JsError -> Prog A) :
  Calls ok P p -> (forall e, CallsAndReturns ok P (h e)) ->
  CallsAndReturns ok P (tryCatch p h).
Proof.
  intros Hp Hh. induction Hp as [a Pa | e | X c k Ok _ IH]; cbn [tryCatch].
  - now constructor.
  - apply Hh.
  - constructor; [exact Ok | exact IH].
Qed.

(** Nothing is caught from a program that never throws. *)
Lemma CallsAndReturns_guarded {A : Type} (ok : forall X : Type, Call X -> Prop)
    (P : A -> Prop) (p : Prog A) (h : JsError -> Prog A) :
  CallsAndReturns ok P p -> CallsAndReturns ok P (tryCatch p h).
Proof.
  intros Hp. induction Hp as [a Pa | X c k Ok _ IH]; cbn [tryCatch].
  - now constructor.
  - constructor; [exact Ok | exact IH].
Qed.

Lemma CallsAndReturns_run {A : Type} (ok : forall X : Type, Call X -> Prop)
    (P : A -> Prop) (p : Prog A) (w : World) :
  CallsAndReturns ok P p ->
  Forall (fun x => match x with Called c => ok _ c end) (fst (run w p)) /\
  exists a, snd (run w p) = inl a /\ P a.
Proof.
  induction 1 as [a Pa | X c k Ok _ IH]; cbn [run].
  - split; [constructor | now exists a].
  - destruct (IH (w X c)) as (F & a & E & Pa).
    destruct (run w (k (w X c))) as [tr r]. cbn [fst snd] in *.
    split; [now constructor | now exists a].
Qed.

Lemma not_empty_app (c : char) (s t : str) : (c :: s) ++ t <> [].
Proof. discriminate. Qed.

Section NoModelCall.

Context {host : Host}.

Lemma formatDate_calls (ok : forall X : Type, Call X -> Prop) (d : Date)
    (pattern : list token) :
  Calls ok (fun _ => True) (formatDate d pattern).
Proof. unfold formatDate. destruct (format d pattern); now constructor. Qed.

Lemma toISOString_calls (ok : forall X : Type, Call X -> Prop) (d : Date) :
  Calls ok (fun _ => True) (toISOString d).
Proof. destruct d; now constructor. Qed.

Lemma await_calls {A : Type} (ok : forall X : Type, Call X -> Prop)
    (c : Call (Settled A)) :
  ok _ c -> Calls ok (fun _ => True) (await c).
Proof. intros Ok. constructor; [exact Ok |]. intros [a | e]; now constructor. Qed.

Lemma clock_calls {A : Type} (f : Z -> A) :
  Calls notGemini (fun _ => True) (now <- perform NewDate ;; Ret (f now)).
Proof. cbn [perform bind]. constructor; [exact I |]. now constructor. Qed.

Ltac said :=
  match goal with
  | |- Calls _ _ (Ret _) => constructor; apply not_empty_app
  | |- Calls _ _ (Throw _) => constructor
  end.

Lemma addEvent_calls (c : ParsedCommand) :
  Calls notGemini (fun s => s <> []) (addEvent c).
Proof.
  unfold addEvent. destruct (noTitle c); [said |].
  eapply Calls_bind with (P := fun _ => True).
  { destruct (date c); [now constructor | apply clock_calls]. }
  intros startDate _.
  eapply Calls_bind with (P := fun _ => True).
  { unfold calendarService.createEvent.
    eapply Calls_bind; [apply toISOString_calls | intros s _].
    eapply Calls_bind; [apply toISOString_calls | intros e _].
    eapply Calls_bind; [apply await_calls; exact I | intros r _].
    now constructor. }
  intros r _. destruct (error r); [said |].
  eapply Calls_bind; [apply formatDate_calls | intros dateStr _]. said.
Qed.

Lemma addTodo_calls (c : ParsedCommand) :
  Calls notGemini (fun s => s <> []) (addTodo c).
Proof.
  unfold addTodo. destruct (noTitle c); [said |].
  eapply Calls_bind with (P := fun _ => True).
  { destruct (date c); [now constructor | apply clock_calls]. }
  intros dueDate _.
  eapply Calls_bind; [apply formatDate_calls | intros due _].
  eapply Calls_bind with (P := fun _ => True).
  { unfold todoService.createTodo.
    eapply Calls_bind; [apply await_calls; exact I | intros r _].
    now constructor. }
  intros r _. destruct (error r); [said |].
  eapply Calls_bind; [apply formatDate_calls | intros dateStr _]. said.
Qed.

Lemma addMemo_calls (c : ParsedCommand) :
  Calls notGemini (fun s => s <> []) (addMemo c).
Proof.
  unfold addMemo. cbv zeta.
  eapply Calls_bind with (P := fun _ => True).
  { unfold memoService.createMemo. cbn [perform bind].
    constructor; [exact I | intros now].
    eapply Calls_bind; [apply await_calls; exact I | intros r _].
    destruct (error r).
    - cbn [perform bind]. constructor; [exact I | intros _]. now constructor.
    - destruct (data r) as [row |]; [| now constructor].
      eapply Calls_bind with (P := fun _ => True); [| now constructor].
      unfold memoService.stamp.
      destruct (MemoRow.updated_at row) as [s |];
        [destruct (truthy s) |]; try (now constructor);
        apply clock_calls. }
  intros r _. destruct (error r); said.
Qed.

Lemma eventLines_calls (events : list CalendarEvent.t) :
  forall response : str,
    response <> [] ->
    Calls notGemini (fun s => s <> []) (eventLines response events).
Proof.
  induction events as [| e es IH]; intros response NE; cbn [eventLines].
  - now constructor.
  - eapply Calls_bind; [apply formatDate_calls | intros when _].
    apply IH. destruct response; [now contradiction NE | discriminate].
Qed.

Lemma listEvents_calls : Calls notGemini (fun s => s <> []) listEvents.
Proof.
  unfold listEvents.
  eapply Calls_bind with (P := fun _ => True).
  { unfold calendarService.getEvents.
    eapply Calls_bind; [apply await_calls; exact I | intros r _].
    now constructor. }
  intros r _. destruct (data r) as [[| e es] |];
    try (constructor; discriminate).
  apply eventLines_calls. discriminate.
Qed.

Lemma listTodos_calls : Calls notGemini (fun s => s <> []) listTodos.
Proof.
  unfold listTodos.
  eapply Calls_bind with (P := fun _ => True).
  { unfold todoService.getTodos.
    eapply Calls_bind; [apply await_calls; exact I | intros r _].
    now constructor. }
  intros r _. destruct (data r) as [[| e es] |];
    try (constructor; discriminate).
  constructor. rewrite todoLines_concat. discriminate.
Qed.

Lemma logAndFail_calls (e : JsError) :
  CallsAndReturns notGemini (fun s => s <> []) (logAndFail e).
Proof.
  unfold logAndFail. cbn [perform bind].
  constructor; [exact I | intros _]. constructor. discriminate.
Qed.

Lemma executeCommand_calls (c : ParsedCommand) :
  implemented c = true ->
  CallsAndReturns notGemini (fun s => s <> []) (executeCommand c).
Proof.
  unfold implemented, executeCommand. intros Im.
  apply CallsAndReturns_tryCatch; [| apply logAndFail_calls].
  destruct (action c); try discriminate;
    destruct (entity c) as [[| |] |]; try discriminate.
  - apply addEvent_calls.
  - apply addTodo_calls.
  - apply addMemo_calls.
  - apply listEvents_calls.
  - apply listTodos_calls.
Qed.

(** X18 (sendMessage, commands that have an executor).  When a message
    is classified as the addition of an event, a task or a memo, or as
    the list of events or tasks, sendMessage never calls the chat model,
    whatever the stores answer: it always returns, with a response that
    is not empty and with the parsed command. *)
Theorem X18_commands_bypass_the_model (now : Z) (message : str) :
  let c := parseCommand now message in
  implemented c = true ->
  CallsAndReturns notGemini
    (fun r => command r = Some c /\ response r <> [])
    (sendMessage now message).
Proof.
  cbv zeta. intros Im. pose proof (executeCommand_calls _ Im) as X.
  unfold sendMessage. cbv zeta.
  assert (G : CallsAndReturns notGemini
                (fun r => command r = Some (parseCommand now message) /\
                          response r <> [])
                (tryCatch
                   (result <- executeCommand (parseCommand now message) ;;
                    if truthy result
                    then Ret {| response := result;
                                command := Some (parseCommand now message) |}
                    else converse message)
                   apologise)).
  { apply CallsAndReturns_guarded.
    eapply CallsAndReturns_bind; [exact X |].
    intros s NE. destruct s; [now contradiction NE |].
    cbn [truthy]. constructor. split; [reflexivity | discriminate]. }
  unfold implemented in Im.
  destruct (action (parseCommand now message)); try discriminate;
    destruct (entity (parseCommand now message)); try discriminate;
    exact G.
Qed.

End NoModelCall.

(** "할 일 보여줘" is the list of tasks. *)
Lemma X18_commands_bypass_the_model_witness :
  let now := seoulTime 2026 10 3 10 0 in
  let message := js "할 일 보여줘" in
  CallsAndReturns notGemini
    (fun r => command r = Some (parseCommand (host := seoul) now message) /\
              response r <> [])
    (sendMessage (host := seoul) now message).
Proof.
  intros now message.
  apply (X18_commands_bypass_the_model (host := seoul) now message).
  vm_compute. reflexivity.
Defined.

(** ** The conversation *)

Section Conversation.

Context {host : Host}.

Lemma converse_run (w : World) (text : str) :
  run w (tryCatch (converse text) apologise)
  = match w _ (GeminiChat systemPrompt greeting text) with
    | Fulfilled reply =>
      ([Called (GeminiChat systemPrompt greeting text)],
       inl {| response := reply; command := None |})
    | Rejected e =>
      ([Called (GeminiChat systemPrompt greeting text);
        Called (ConsoleError (js "AI 서비스 오류:") e)],
       inl {| response :=
                if mentions404 e then modelUnreachable else requestFailed;
              command := None |})
    end.
Proof.
  unfold converse. cbn [await bind tryCatch run].
  destruct (w _ (GeminiChat systemPrompt greeting text)) as [reply | e];
    [reflexivity |].
  cbn [tryCatch apologise perform bind run].
  unfold mentions404.
  destruct (match message e with
            | Some m => includes (js "404") m
            | None => false
            end); reflexivity.
Qed.

(** X19 (sendMessage, everything else).  When a message is not one of
    the commands that have an executor - it is classified as chat, as a
    deletion, or as the list of memos - sendMessage makes one call of
    the chat model, with the persona prompt, the greeting and the
    message as it was sent, and no call of a store.  When the model
    answers, the response is its reply, whatever it is; when the call is
    rejected, the error is logged and the response is the message about
    the connection to the model if the text of the error includes 404,
    and the general apology otherwise.  The command of the result is
    null in each case. *)
Theorem X19_conversation (w : World) (now : Z) (message : str) :
  implemented (parseCommand now message) = false ->
  run w (sendMessage now message)
  = match w _ (GeminiChat systemPrompt greeting message) with
    | Fulfilled reply =>
      ([Called (GeminiChat systemPrompt greeting message)],
       inl {| response := reply; command := None |})
    | Rejected e =>
      ([Called (GeminiChat systemPrompt greeting message);
        Called (ConsoleError (js "AI 서비스 오류:") e)],
       inl {| response :=
                if mentions404 e then modelUnreachable else requestFailed;
              command := None |})
    end.
Proof.
  intros Im. rewrite <- converse_run.
  unfold implemented in Im. unfold sendMessage, executeCommand. cbv zeta.
  destruct (action (parseCommand now message));
    destruct (entity (parseCommand now message)) as [[| |] |];
    try discriminate; reflexivity.
Qed.

End Conversation.

(** The suggestion of the chat view for a memo, "프로젝트 아이디어 메모
    저장해줘", has none of the words that make an addition, and goes to
    the model; here the model cannot be found. *)
Lemma X19_conversation_witness :
  let now := seoulTime 2026 10 3 10 0 in
  let e := {| message := Some (js "[404 Not Found] models/gemini") |} in
  let message := js "프로젝트 아이디어 메모 저장해줘" in
  let w := worldOf {| selectTodos := nothing; selectEvents := nothing;
                      insertTodo := nothing; insertEvent := nothing;
                      insertMemo := nothing; geminiChat := Rejected e;
                      clock := now |} in
  run w (sendMessage (host := seoul) now message)
  = ([Called (GeminiChat systemPrompt greeting message);
      Called (ConsoleError (js "AI 서비스 오류:") e)],
     inl {| response := modelUnreachable; command := None |}).
Proof.
  intros now e message w.
  assert (Im : implemented (parseCommand (host := seoul) now message) = false)
    by (vm_compute; reflexivity).
  exact (X19_conversation (host := seoul) w now message Im).
Defined.

(** ** The chat view *)

Lemma Ends_bind {A B : Type} (Q : B -> Prop) (p : Prog A) (f : A -> Prog B) :
  (forall a, Ends Q (f a)) -> Ends Q (bind p f).
Proof.
  intros Hf. induction p as [a | e | X c k IH]; cbn [bind].
  - apply Hf.
  - constructor.
  - constructor. exact IH.
Qed.

Lemma run_perform {X B : Type} (w : World) (c : Call X) (f : X -> Prog B) :
  run w (bind (perform c) f)
  = let (tr, r) := run w (f (w _ c)) in (Called c :: tr, r).
Proof. reflexivity. Qed.

Section ChatView.

Context {host : Host}.

(** The command of a result of sendMessage is null or has an action
    other than chat. *)
Lemma sendMessage_flag (now : Z) (message : str) :
  Returns (fun r => AIView.isCommandOf (command r) = true)
          (sendMessage now message).
Proof.
  assert (C : forall text,
            Ends (fun r => AIView.isCommandOf (command r) = true)
                 (converse text)).
  { intros text. unfold converse. cbn [await bind].
    constructor. intros [reply | e]; now constructor. }
  unfold sendMessage. cbv zeta. apply Returns_tryCatch.
  - destruct (action (parseCommand now message)) eqn:A;
      try apply C;
      (destruct (entity (parseCommand now message)); [| apply C]);
      apply Ends_bind; intros result;
      (destruct (truthy result); [| apply C]);
      constructor; cbn [command AIView.isCommandOf]; now rewrite A.
  - intros e. eapply Returns_weaken; [| apply apologise_returns].
    cbn beta. intros r [-> _]. reflexivity.
Qed.

(** X23 (AIView.handleSend, a message that is sent).  With an input
    that is not blank and no request under way, handleSend reads the
    clock twice, makes the calls of sendMessage on the input as it was
    typed, and reads the clock twice again; the handler of a failed
    request is never run and its line is never logged.  The state it
    leaves has two messages more, the input as the message of the user
    and the response of sendMessage as the message of the assistant,
    an empty input and no request under way.  The message of the
    assistant is marked as a command in every case, also when it is the
    reply of the chat model. *)
Theorem X23_handleSend (w : World) (now : Z) (st : AIView.State) :
  trim (AIView.inputMessage st) <> [] ->
  AIView.isLoading st = false ->
  exists calls r st' u a,
    run w (sendMessage now (AIView.inputMessage st)) = (calls, inl r) /\
    run w (AIView.handleSend now st)
    = (Called NewDate :: Called NewDate :: calls
         ++ [Called NewDate; Called NewDate],
       inl st') /\
    AIView.messages st' = AIView.messages st ++ [u; a] /\
    AIView.inputMessage st' = [] /\
    AIView.isLoading st' = false /\
    AIView.role u = AIView.User /\
    AIView.content u = AIView.inputMessage st /\
    AIView.role a = AIView.Assistant /\
    AIView.content a = response r /\
    AIView.isCommand a = Some true.
Proof.
  intros NB NL.
  destruct (Returns_run _ _ w (sendMessage_flag now (AIView.inputMessage st)))
    as (r & E & F).
  destruct (run w (sendMessage now (AIView.inputMessage st)))
    as [calls res] eqn:R.
  cbn [snd] in E. subst res.
  exists calls, r. unfold AIView.handleSend.
  destruct (trim (AIView.inputMessage st)) as [| ch rest] eqn:T;
    [now contradiction NB |].
  rewrite NL. cbn [truthy negb orb].
  rewrite !run_perform, run_bind, run_tryCatch, run_bind, R.
  rewrite !run_perform. cbn [run]. rewrite F, app_nil_r.
  eexists. eexists. eexists.
  split; [reflexivity |]. split; [reflexivity |].
  cbn [AIView.messages AIView.inputMessage AIView.isLoading AIView.append].
  rewrite <- app_assoc. cbn [app].
  repeat split.
Qed.

(** X24 (AIView.handleSend, the guard).  handleSend returns at once,
    with no call and the state as it was, exactly when the input is
    blank - empty or white space only - or a request is under way. *)
Theorem X24_handleSend_guard (now : Z) (st : AIView.State) :
  AIView.handleSend now st = Ret st <->
  trim (AIView.inputMessage st) = [] \/ AIView.isLoading st = true.
Proof.
  unfold AIView.handleSend.
  destruct (trim (AIView.inputMessage st)) as [| ch rest];
    destruct (AIView.isLoading st); cbn [truthy negb orb];
    split; intros H; try reflexivity; try tauto.
  - cbn [perform bind] in H. discriminate H.
  - destruct H; discriminate.
Qed.

End ChatView.

(** "내일 '팀 회의' 일정 추가해줘" in the input of a fresh view. *)
Lemma X23_handleSend_witness :
  let now := seoulTime 2026 10 3 10 0 in
  let w := worldOf {| selectTodos := nothing; selectEvents := nothing;
                      insertTodo := nothing; insertEvent := nothing;
                      insertMemo := nothing; geminiChat := Fulfilled [];
                      clock := now |} in
  let st := {| AIView.messages := [];
               AIView.inputMessage := js "내일 '팀 회의' 일정 추가해줘";
               AIView.isLoading := false |} in
  exists calls r st' u a,
    run w (sendMessage (host := seoul) now (AIView.inputMessage st))
    = (calls, inl r) /\
    run w (AIView.handleSend (host := seoul) now st)
    = (Called NewDate :: Called NewDate :: calls
         ++ [Called NewDate; Called NewDate],
       inl st') /\
    AIView.messages st' = AIView.messages st ++ [u; a] /\
    AIView.inputMessage st' = [] /\
    AIView.isLoading st' = false /\
    AIView.role u = AIView.User /\
    AIView.content u = AIView.inputMessage st /\
    AIView.role a = AIView.Assistant /\
    AIView.content a = response r /\
    AIView.isCommand a = Some true.
Proof.
  intros now w st.
  apply (X23_handleSend (host := seoul) w now st).
  - vm_compute. discriminate.
  - reflexivity.
Defined.

(** ** The services *)

Lemma orElse_not_empty (x : option str) (d : str) : d <> [] -> orElse x d <> [].
Proof.
  intros D. destruct x as [[| c s] |]; cbn [orElse truthy];
    [exact D | discriminate | exact D].
Qed.

Lemma orElse_keeps (s d : str) : s <> [] -> orElse (Some s) d = s.
Proof. destruct s; [now intros [] | reflexivity]. Qed.

Lemma orElse_absent (x : option str) (d : str) :
  x = None \/ x = Some [] -> orElse x d = d.
Proof. intros [-> | ->]; reflexivity. Qed.

Lemma ofRow_reads (row : TodoRow.t) : readsRow row (todoService.ofRow row).
Proof.
  unfold readsRow, todoService.ofRow.
  cbn [TodoItem.id TodoItem.title TodoItem.status TodoItem.project
       TodoItem.priority TodoItem.assignee TodoItem.dueDate
       TodoItem.description TodoItem.isDeleted].
  split; [reflexivity |]. split; [reflexivity |].
  split; [apply orElse_not_empty; discriminate |].
  split; [apply orElse_not_empty; discriminate |].
  split; [apply orElse_not_empty; discriminate |].
  split; [apply orElse_not_empty; discriminate |].
  split.
  { intros s NE. repeat split; intros ->; now apply orElse_keeps. }
  split; [apply orElse_absent |].
  split; [apply orElse_absent |].
  split; [apply orElse_absent |].
  split; [apply orElse_absent |].
  destruct (TodoRow.is_deleted row) as [[|] |]; split; intros H;
    try reflexivity; try discriminate.
Qed.

(** X20 (todoService.getTodos).  getTodos makes one query.  When the
    query is answered, the data of the result is a list and never null
    - the empty list for null data - and the error of the answer is
    passed on as it is; the list has one task per row, in the order of
    the rows, with the id and the title of the row; the status, project,
    priority and assignee of a task are never empty: a value that the
    row has is kept, and 대기, 기타, 중 and 나 stand for a value that is
    null or empty; a task is deleted only if its row says so.  When the
    query is rejected, getTodos throws what it was rejected with. *)
Theorem X20_getTodos (w : World) :
  match w _ SelectTodos with
  | Fulfilled r =>
    exists todos,
      run w todoService.getTodos
      = ([Called SelectTodos], inl {| data := Some todos; error := error r |}) /\
      Forall2 readsRow (match data r with Some rows => rows | None => [] end)
              todos
  | Rejected e => run w todoService.getTodos = ([Called SelectTodos], inr e)
  end.
Proof.
  unfold todoService.getTodos. cbn [await bind run].
  destruct (w _ SelectTodos) as [r | e]; [| reflexivity].
  eexists. split; [reflexivity |]. cbn [data].
  destruct (data r) as [rows |]; [| constructor].
  induction rows as [| row rows IH]; cbn [map]; constructor;
    [apply ofRow_reads | exact IH].
Qed.

(** X21 (todoService.createTodo).  createTodo makes one insert, of a row
    with the title, the description and the due date that it was given;
    the status, project, priority and assignee of the row are never
    empty: a value that was given is kept, and 대기, 기타, 중 and 나
    stand for an empty one.  When the insert is answered, the error of
    the answer is passed on as it is, and the data of the result is the
    task read from the row of the answer, or null when the answer has
    no row; when the insert is rejected, createTodo throws what it was
    rejected with. *)
Theorem X21_createTodo (w : World) (todo : NewTodo.t) :
  exists row,
    NewTodo.title row = NewTodo.title todo /\
    NewTodo.description row = NewTodo.description todo /\
    NewTodo.dueDate row = NewTodo.dueDate todo /\
    NewTodo.status row <> [] /\ NewTodo.project row <> [] /\
    NewTodo.priority row <> [] /\ NewTodo.assignee row <> [] /\
    (NewTodo.status todo <> [] -> NewTodo.status row = NewTodo.status todo) /\
    (NewTodo.project todo <> [] -> NewTodo.project row = NewTodo.project todo) /\
    (NewTodo.priority todo <> [] -> NewTodo.priority row = NewTodo.priority todo) /\
    (NewTodo.assignee todo <> [] -> NewTodo.assignee row = NewTodo.assignee todo) /\
    (NewTodo.status todo = [] -> NewTodo.status row = js "대기") /\
    (NewTodo.project todo = [] -> NewTodo.project row = js "기타") /\
    (NewTodo.priority todo = [] -> NewTodo.priority row = js "중") /\
    (NewTodo.assignee todo = [] -> NewTodo.assignee row = js "나") /\
    match w _ (InsertTodo row) with
    | Fulfilled r =>
      exists d,
        run w (todoService.createTodo todo)
        = ([Called (InsertTodo row)], inl {| data := d; error := error r |}) /\
        match data r, d with
        | Some echo, Some t => readsRow echo t
        | None, None => True
        | _, _ => False
        end
    | Rejected e =>
      run w (todoService.createTodo todo) = ([Called (InsertTodo row)], inr e)
    end.
Proof.
  unfold todoService.createTodo. cbv zeta.
  exists {| NewTodo.title := NewTodo.title todo;
            NewTodo.description := orElse (Some (NewTodo.description todo)) [];
            NewTodo.project := orElse (Some (NewTodo.project todo)) (js "기타");
            NewTodo.dueDate := NewTodo.dueDate todo;
            NewTodo.status := orElse (Some (NewTodo.status todo)) (js "대기");
            NewTodo.priority := orElse (Some (NewTodo.priority todo)) (js "중");
            NewTodo.assignee := orElse (Some (NewTodo.assignee todo)) (js "나") |}.
  cbn [NewTodo.title NewTodo.description NewTodo.dueDate NewTodo.status
       NewTodo.project NewTodo.priority NewTodo.assignee].
  split; [reflexivity |]. split; [apply orElse_empty |].
  split; [reflexivity |].
  split; [apply orElse_not_empty; discriminate |].
  split; [apply orElse_not_empty; discriminate |].
  split; [apply orElse_not_empty; discriminate |].
  split; [apply orElse_not_empty; discriminate |].
  split; [apply orElse_keeps |]. split; [apply orElse_keeps |].
  split; [apply orElse_keeps |]. split; [apply orElse_keeps |].
  split; [now intros -> |]. split; [now intros -> |].
  split; [now intros -> |]. split; [now intros -> |].
  cbn [await bind run].
  match goal with
  | |- context [w _ (InsertTodo ?r)] => destruct (w _ (InsertTodo r)) as [r' | e]
  end; [| reflexivity].
  eexists. split; [reflexivity |].
  destruct (data r') as [echo |]; cbn [option_map];
    [apply ofRow_reads | exact I].
Qed.

(** X22 (calendarService.createEvent).  With an invalid start or end
    date, createEvent throws the RangeError of toISOString before
    anything is inserted.  With valid dates it makes one insert, of a
    row with the title, type and colour of the event and the two dates
    as they were given; when the insert is answered, the error is
    passed on as it is and the data is the event of the row of the
    answer, or null without a row; when the insert is rejected,
    createEvent throws what it was rejected with. *)
Theorem X22_createEvent (w : World) (event : NewEvent.t) :
  (NewEvent.startDate event = InvalidDate \/
   NewEvent.endDate event = InvalidDate ->
   calendarService.createEvent event = Throw rangeError) /\
  (forall s e,
     NewEvent.startDate event = DateAt s ->
     NewEvent.endDate event = DateAt e ->
     let row :=
       {| NewEventRow.title := NewEvent.title event;
          NewEventRow.start_date := s;
          NewEventRow.end_date := e;
          NewEventRow.type := NewEvent.type event;
          NewEventRow.color := NewEvent.color event |} in
     run w (calendarService.createEvent event)
     = ([Called (InsertEvent row)],
        match w _ (InsertEvent row) with
        | Fulfilled r =>
          inl {| data := option_map calendarService.ofRow (data r);
                 error := error r |}
        | Rejected x => inr x
        end)).
Proof.
  unfold calendarService.createEvent. split.
  - intros [I | I].
    + rewrite I. reflexivity.
    + rewrite I. destruct (NewEvent.startDate event); reflexivity.
  - intros s e S E. rewrite S, E. cbv zeta.
    cbn [toISOString bind await run].
    match goal with
    | |- context [w _ (InsertEvent ?r)] => destruct (w _ (InsertEvent r))
    end; reflexivity.
Qed.


(** ** A day that the month does not have *)

Section DayBeyondMonth.

Context {host : Host}.

Lemma midnight_day y M D :
  midnight y M D = midnight y M 1 + (D - 1) * msPerDay.
Proof. unfold midnight, UTC, MakeDate, MakeDay. cbv zeta. ring. Qed.

Lemma first_of_month_valid y M : 1 <= M <= 12 -> validDate y (M - 1) 1.
Proof.
  intros HM. split; [lia |]. unfold DaysInMonth.
  assert (Hm : 0 <= M - 1 <= 11) by lia.
  revert Hm. generalize (M - 1). intros m Hm.
  month_cases m; destruct (isLeap y); cbv [monthLength]; lia.
Qed.

Lemma first_of_month_near now M :
  ordinaryClock now -> 1 <= M <= 12 ->
  Z.abs (midnight (getFullYear now) M 1 - now) <= 367 * msPerDay.
Proof.
  intros [H0 HR] HM.
  pose proof (clock_day_in_year now) as C. cbv zeta in C.
  pose proof (MakeDay_in_year _ _ _ (first_of_month_valid (getFullYear now) M HM)) as A.
  pose proof (Day_split (LocalTime now)) as S.
  pose proof (TimeWithinDay_range (LocalTime now)) as W.
  unfold midnight, UTC, MakeDate, LocalTime, msPerDay in *.
  lia.
Qed.

(** [setFullYear] to the next year stays a date, away from the ends of
    the range of time values. *)
Lemma next_year_is_a_date t :
  - maxTime + 400 * msPerDay <= t <= maxTime - 900 * msPerDay ->
  exists r, setFullYear t (getFullYear t + 1) = DateAt r.
Proof.
  intros R. rewrite setFullYear_fields. eexists. apply TimeClip_in_range.
  pose proof (clock_day_in_year t) as C. cbv zeta in C.
  pose proof (MakeDay_next_year _ _ _ (fields_valid (LocalTime t))) as B.
  pose proof (Day_split (LocalTime t)) as S.
  pose proof (TimeWithinDay_range (LocalTime t)) as W.
  unfold getFullYear, getMonth, getDate in *.
  unfold UTC, MakeDate, LocalTime, maxTime, msPerDay in *.
  lia.
Qed.

(** X5 (parseKoreanDate, a day that the month does not have).  For an
    input 'M월 D일' with a month from 1 to 12, the day is not checked
    against the length of the month: D from 0 to 99 is counted from the
    first of the month, so that '2월 30일' is the day 29 days after
    1 February, and the result is that day at 00:00 when it has not
    passed.  When it has passed, the result is still a date, never an
    Invalid Date and never null. *)
Theorem X5_day_beyond_the_month (now : Z) (text : str) (M D : Z) :
  ordinaryClock now ->
  monthDayInput (toLowerCase text) M D ->
  1 <= M <= 12 -> 0 <= D <= 99 ->
  let first := midnight (getFullYear now) M 1 in
  let t := first + (D - 1) * msPerDay in
  isLocalMidnightOf first (getFullYear now) M 1 /\
  (now <= t -> parseKoreanDate now text = Some (DateAt t)) /\
  (t < now -> exists r, parseKoreanDate now text = Some (DateAt r)).
Proof.
  intros HC HI HM HD. cbv zeta.
  split; [apply midnight_fields, first_of_month_valid, HM |].
  destruct (parseKoreanDate_monthDay now text M D HI) as (m & -> & H1 & H2).
  pose proof (first_of_month_near now M HC HM) as N.
  assert (Y : 1970 <= getFullYear now)
    by (apply YearFromTime_epoch; apply HC).
  assert (Q : (0 <=? getFullYear now) && (getFullYear now <=? 99) = false)
    by (apply andb_false_iff; right; apply Z.leb_gt; lia).
  rewrite <- midnight_day.
  assert (R : Z.abs (midnight (getFullYear now) M D)
              <= maxTime - 500 * msPerDay).
  { rewrite midnight_day. destruct HC as [_ HR].
    unfold maxTime, msPerDay in *. lia. }
  assert (V : monthDayDate now m
              = if midnight (getFullYear now) M D <? now
                then setFullYear (midnight (getFullYear now) M D)
                       (getFullYear (midnight (getFullYear now) M D) + 1)
                else DateAt (midnight (getFullYear now) M D)).
  { unfold monthDayDate. rewrite H1, H2. cbn [option_map newDateOf].
    rewrite (newDate_midnight _ _ _ Q), TimeClip_in_range; [reflexivity |].
    unfold maxTime, msPerDay in *. lia. }
  rewrite V. split.
  - intros L. apply Z.ltb_ge in L. now rewrite L.
  - intros L. apply Z.ltb_lt in L. rewrite L.
    destruct (next_year_is_a_date (midnight (getFullYear now) M D))
      as (r & E).
    + apply Z.ltb_lt in L. rewrite midnight_day in *. destruct HC as [_ HR].
      unfold maxTime, msPerDay in *. lia.
    + exists r. now rewrite E.
Qed.

End DayBeyondMonth.

(** On 3 November 2026 in Seoul, "11월 31일" is 1 December 2026. *)
Lemma X5_day_beyond_the_month_witness :
  let now := seoulTime 2026 10 3 10 0 in
  parseKoreanDate (host := seoul) now (js "11월 31일")
  = Some (DateAt (seoulTime 2026 11 1 0 0)).
Proof.
  intros now.
  destruct (X5_day_beyond_the_month (host := seoul) now (js "11월 31일") 11 31)
    as (_ & H & _).
  - vm_compute. split; discriminate.
  - apply monthDayInputb_sound. vm_compute. reflexivity.
  - lia.
  - lia.
  - rewrite H.
    + vm_compute. reflexivity.
    + vm_compute. discriminate.
Defined.

(** ** An hour or a minute beyond the clock *)

Lemma time_of_day_split l :
  l = MakeDate (Day l)
        (MakeTime (HourFromTime l) (MinFromTime l) (SecFromTime l)
                  (msFromTime l)).
Proof.
  unfold MakeDate, MakeTime, Day, HourFromTime, MinFromTime, SecFromTime,
    msFromTime, msPerDay, msPerHour, msPerMinute, msPerSecond.
  Z.div_mod_to_equations. lia.
Qed.

Lemma minute_of_shifted_hour l k :
  MinFromTime (l + k * msPerHour) = MinFromTime l.
Proof.
  unfold MinFromTime, msPerHour, msPerMinute.
  replace (l + k * 3600000) with (l + (k * 60) * 60000) by lia.
  rewrite Z.div_add by lia.
  now rewrite Z.mod_add by lia.
Qed.

Section BeyondTheClock.

Context {host : Host}.

Lemma setHours_value t h :
  Z.abs (t + (h - getHours t) * msPerHour) <= maxTime ->
  setHours_ t h = DateAt (t + (h - getHours t) * msPerHour).
Proof.
  intros R. rewrite <- (TimeClip_in_range _ R).
  unfold setHours_, getHours. f_equal.
  pose proof (time_of_day_split (LocalTime t)) as S.
  unfold UTC, MakeDate, MakeTime, LocalTime in *. lia.
Qed.

Lemma setMinutes_value t mi :
  Z.abs (t + (mi - getMinutes t) * msPerMinute) <= maxTime ->
  setMinutes_ t mi = DateAt (t + (mi - getMinutes t) * msPerMinute).
Proof.
  intros R. rewrite <- (TimeClip_in_range _ R).
  unfold setMinutes_, getMinutes. f_equal.
  pose proof (time_of_day_split (LocalTime t)) as S.
  unfold UTC, MakeDate, MakeTime, LocalTime in *. lia.
Qed.

Lemma getMinutes_shifted t k : getMinutes (t + k * msPerHour) = getMinutes t.
Proof.
  unfold getMinutes, LocalTime.
  replace (t + k * msPerHour + LocalTZA) with (t + LocalTZA + k * msPerHour)
    by lia.
  apply minute_of_shifted_hour.
Qed.

(** X7 (parseCommand, an hour or a minute beyond the clock).  The hour
    and the minute that parseTime reads are not held below 24 and 60,
    and parseCommand does not check them either: with a date d, an hour
    h and a minute mi from 0 to 99, the date of the command is d moved
    by h hours and mi minutes less the hour and the minute of d itself,
    so that an hour of 24 or more, or a minute of 60 or more, runs over
    into the next hour or day (25시 is 1:00 of the day after). *)
Theorem X7_time_runs_over (now : Z) (message : str) (d h mi : Z) :
  action (parseCommand now message) <> Chat ->
  parseKoreanDate now message = Some (DateAt d) ->
  parseTime message = Some {| hours := Some h; minutes := Some mi |} ->
  0 <= h <= 99 -> 0 <= mi <= 99 ->
  Z.abs d <= maxTime - 5 * msPerDay ->
  date (parseCommand now message)
  = Some (DateAt (d + (h - getHours d) * msPerHour
                    + (mi - getMinutes d) * msPerMinute)).
Proof.
  intros NC PD PT Hh Hm R.
  pose proof (time_of_day_ranges (LocalTime d)) as (Rh & Rm & _).
  fold (getHours d) in Rh. fold (getMinutes d) in Rm.
  assert (E : setMinutesOf (setHoursOf (DateAt d) (Some h)) (Some mi)
              = DateAt (d + (h - getHours d) * msPerHour
                          + (mi - getMinutes d) * msPerMinute)).
  { unfold setMinutesOf, setHoursOf, setHours, setMinutes.
    rewrite setHours_value
      by (unfold maxTime, msPerDay, msPerHour in *; lia).
    rewrite setMinutes_value; rewrite getMinutes_shifted; [reflexivity |].
    unfold maxTime, msPerDay, msPerHour, msPerMinute in *. lia. }
  revert NC. unfold parseCommand.
  destruct (detectAction (toLowerCase message)) as [a |];
    [| intros NC; now contradiction NC].
  destruct (detectEntity (toLowerCase message)) as [e |];
    [| intros NC; now contradiction NC].
  intros _. rewrite PD, PT. cbn [date hours minutes]. now rewrite E.
Qed.

End BeyondTheClock.

(** "내일 25시에 '마감' 일정 추가해줘", said on 3 November 2026 at 10:00
    in Seoul: the event is on 5 November at 1:00. *)
Lemma X7_time_runs_over_witness :
  let now := seoulTime 2026 10 3 10 0 in
  date (parseCommand (host := seoul) now (js "내일 25시에 '마감' 일정 추가해줘"))
  = Some (DateAt (seoulTime 2026 10 5 1 0)).
Proof.
  intros now.
  rewrite (X7_time_runs_over (host := seoul) now _
             (seoulTime 2026 10 4 10 0) 25 0).
  - vm_compute. reflexivity.
  - vm_compute. discriminate.
  - vm_compute. reflexivity.
  - vm_compute. reflexivity.
  - lia.
  - lia.
  - vm_compute. discriminate.
Defined.
